(** * ipm: catalog resolution, addressing and installation engine

    A shallow embedding of [ipm/common.py]: the two catalog readers
    ([LocalIP.get_info], [RemoteIP.get_info]), the listing functions
    ([get_IP_list], [list_IPs]), the registry and dependency-manifest
    stores, the installer ([install_ip], [install_deps_ip],
    [uninstall_ip]), the check/update driver ([check_IP]) and the URLs of
    [package_check]; and of [cleanup] of [ipm/manage.py].  The properties
    of the design document that concern them follow, and further
    properties of the code.

    Conventions of the embedding.
    - Parsed JSON is the inductive type [json]; a Python [dict] is an
      association list in insertion order (the code depends on the first
      and on the last key of a dict).
    - A Python object ([RemoteIP], [LocalIP]) is its [__dict__]: an
      association list of attributes in order of first assignment, because
      [get_info_from_atr] serialises an object by walking [__dict__].
    - Uncaught Python exceptions are values of [pyerr]; [exit(1)] is the
      result [Exit].
    - The two JSON documents and the install tree are a [state], threaded
      through the monad [M]. *)

From Stdlib Require Import ZArith Ascii String List Bool Lia.
From stdpp Require Import base option list strings pretty gmap fin_maps.

Local Open Scope string_scope.
Local Open Scope Z_scope.
Local Open Scope list_scope.

(* ===================================================================== *)
(** ** Python values *)
(* ===================================================================== *)

(** What [json.load] produces.  Numbers are integers here: no property
    below depends on the value of a number. *)
#[warnings="-register-all"]
Inductive json : Type :=
| JNull : json
| JBool : bool -> json
| JNum : Z -> json
| JStr : string -> json
| JArr : list json -> json
| JObj : list (string * json) -> json.

(** The Python exceptions the modelled code can raise.  [NotModelled] marks
    the one construct left outside the embedding: [str()] of a list or dict
    inside an f-string. *)
Inductive pyerr : Type :=
| KeyError (k : json)
| TypeError
| IndexError
| AttributeError (attr : string)
| FileNotFoundError (path : string)
| FileExistsError (path : string)
| NotADirectoryError (path : string)
| IsADirectoryError (path : string)
| ReadError
| NotModelled.

(** Result of running a piece of Python: a value, [exit(code)], or an
    uncaught exception. *)
Inductive result (A : Type) : Type :=
| Ok (a : A)
| Exit (code : Z)
| Raise (e : pyerr).
Arguments Ok {A} a.
Arguments Exit {A} code.
Arguments Raise {A} e.

Definition rbind {A B} (c : result A) (k : A -> result B) : result B :=
  match c with
  | Ok a => k a
  | Exit n => Exit n
  | Raise e => Raise e
  end.

Notation "'do' x <- c ; k" := (rbind c (fun x => k))
  (at level 10, x name, c at level 100, k at level 200).
Notation "'do' ' p <- c ; k" := (rbind c (fun x => let 'p := x in k))
  (at level 10, p pattern, c at level 100, k at level 200).

(** *** Strings *)

(** [needle in hay] on two [str]: substring test. *)
Fixpoint str_in (needle hay : string) : bool :=
  String.prefix needle hay ||
  match hay with
  | EmptyString => false
  | String _ rest => str_in needle rest
  end.

(** [s.split(sep)] for a one-character separator: never the empty list. *)
Fixpoint split (sep : ascii) (s : string) : list string :=
  match s with
  | EmptyString => [EmptyString]
  | String c rest =>
      if Ascii.eqb c sep then EmptyString :: split sep rest
      else match split sep rest with
           | seg :: segs => String c seg :: segs
           | [] => [String c EmptyString]
           end
  end.

(** [sep.join(parts)]. *)
Fixpoint join (sep : string) (parts : list string) : string :=
  match parts with
  | [] => ""
  | [p] => p
  | p :: ps => p +:+ sep +:+ join sep ps
  end.

(** [l[-1]] on a non-empty list of strings (the caller has a non-empty list:
    [split] never returns []). *)
Definition last_segment (parts : list string) : string := List.last parts "".

Definition chars (s : string) : list string :=
  map (fun c => String c EmptyString) (list_ascii_of_string s).

(** [os.path.join(a, b)] on POSIX. *)
Definition path_join (a b : string) : string :=
  if String.prefix "/" b then b
  else if String.eqb a "" then b
  else if str_in "/" (String.substring (Nat.pred (String.length a)) 1 a) then a +:+ b
  else a +:+ "/" +:+ b.

(** *** Lookup, equality, truthiness *)

Fixpoint assoc {A} (k : string) (kvs : list (string * A)) : option A :=
  match kvs with
  | [] => None
  | (k', v) :: rest => if String.eqb k k' then Some v else assoc k rest
  end.

(** [d[k] = v] on a dict: in place when the key exists, else appended. *)
Fixpoint assoc_set {A} (k : string) (v : A) (kvs : list (string * A)) : list (string * A) :=
  match kvs with
  | [] => [(k, v)]
  | (k', v') :: rest =>
      if String.eqb k k' then (k', v) :: rest else (k', v') :: assoc_set k v rest
  end.

(** [del d[k]] (the caller checks that the key exists). *)
Fixpoint assoc_del {A} (k : string) (kvs : list (string * A)) : list (string * A) :=
  match kvs with
  | [] => []
  | (k', v') :: rest =>
      if String.eqb k k' then rest else (k', v') :: assoc_del k rest
  end.

(** Python [==] on parsed JSON: [True == 1], lists compare element-wise,
    dicts compare as maps (order of keys does not matter). *)
Fixpoint py_eq (a b : json) : bool :=
  match a, b with
  | JNull, JNull => true
  | JBool x, JBool y => Bool.eqb x y
  | JBool x, JNum n => Z.eqb (if x then 1 else 0) n
  | JNum n, JBool y => Z.eqb n (if y then 1 else 0)
  | JNum n, JNum m => Z.eqb n m
  | JStr s, JStr t => String.eqb s t
  | JArr xs, JArr ys =>
      (fix go (xs ys : list json) : bool :=
         match xs, ys with
         | [], [] => true
         | x :: xs', y :: ys' => py_eq x y && go xs' ys'
         | _, _ => false
         end) xs ys
  | JObj kvs, JObj kvs' =>
      Nat.eqb (length kvs) (length kvs') &&
      (fix go (kvs : list (string * json)) : bool :=
         match kvs with
         | [] => true
         | (k, v) :: rest =>
             match assoc k kvs' with
             | Some v' => py_eq v v'
             | None => false
             end && go rest
         end) kvs
  | _, _ => false
  end.

(** [bool(v)]. *)
Definition truthy (v : json) : bool :=
  match v with
  | JNull => false
  | JBool b => b
  | JNum n => negb (Z.eqb n 0)
  | JStr s => negb (String.eqb s "")
  | JArr l => negb (Nat.eqb (length l) 0)
  | JObj l => negb (Nat.eqb (length l) 0)
  end.

(** [l[i]] with Python's negative indices. *)
Definition py_index {A} (l : list A) (i : Z) : option A :=
  let n := Z.of_nat (length l) in
  if (0 <=? i) && (i <? n) then nth_error l (Z.to_nat i)
  else if (i <? 0) && (0 <=? n + i) then nth_error l (Z.to_nat (n + i))
  else None.

(** [v[k]]. *)
Definition getitem (v k : json) : result json :=
  match v with
  | JObj kvs =>
      match k with
      | JStr s => match assoc s kvs with Some x => Ok x | None => Raise (KeyError k) end
      | JArr _ | JObj _ => Raise TypeError
      | _ => Raise (KeyError k)
      end
  | JArr l =>
      match k with
      | JNum i => match py_index l i with Some x => Ok x | None => Raise IndexError end
      | JBool b => match py_index l (if b then 1 else 0) with
                   | Some x => Ok x | None => Raise IndexError end
      | _ => Raise TypeError
      end
  | JStr s =>
      match k with
      | JNum i => match py_index (chars s) i with
                  | Some x => Ok (JStr x) | None => Raise IndexError end
      | JBool b => match py_index (chars s) (if b then 1 else 0) with
                   | Some x => Ok (JStr x) | None => Raise IndexError end
      | _ => Raise TypeError
      end
  | _ => Raise TypeError
  end.

(** [x in v]. *)
Definition py_in (x v : json) : result bool :=
  match v with
  | JObj kvs =>
      match x with
      | JStr s => Ok (bool_decide (is_Some (assoc s kvs)))
      | JArr _ | JObj _ => Raise TypeError
      | _ => Ok false
      end
  | JArr l => Ok (existsb (fun y => py_eq y x) l)
  | JStr s =>
      match x with
      | JStr t => Ok (str_in t s)
      | _ => Raise TypeError
      end
  | _ => Raise TypeError
  end.

(** The values a [for] loop over [v] visits. *)
Definition py_iter (v : json) : result (list json) :=
  match v with
  | JObj kvs => Ok (map (fun kv => JStr (fst kv)) kvs)
  | JArr l => Ok l
  | JStr s => Ok (map JStr (chars s))
  | _ => Raise TypeError
  end.

(** [v.items()], [v.keys()], [v.get(k, d)]: dict methods. *)
Definition py_items (v : json) : result (list (string * json)) :=
  match v with
  | JObj kvs => Ok kvs
  | _ => Raise (AttributeError "items")
  end.

Definition py_keys (v : json) : result (list string) :=
  match v with
  | JObj kvs => Ok (map fst kvs)
  | _ => Raise (AttributeError "keys")
  end.

Definition py_get (v : json) (k : string) (d : json) : result json :=
  match v with
  | JObj kvs => Ok (default d (assoc k kvs))
  | _ => Raise (AttributeError "get")
  end.

(** [v.append(x)]. *)
Definition py_append (v x : json) : result json :=
  match v with
  | JArr l => Ok (JArr (l ++ [x]))
  | _ => Raise (AttributeError "append")
  end.

(** [l.remove(x)] where [x] is the item [l[i]] itself: the first item that
    is [x] or equals [x] goes.  The items before [i] are compared with
    [==]; the item at [i] is the same object. *)
Fixpoint list_remove (i : nat) (x : json) (l : list json) : list json :=
  match l with
  | [] => []
  | y :: rest =>
      match i with
      | O => rest
      | S i' => if py_eq y x then rest else y :: list_remove i' x rest
      end
  end.

(** [f"{v}"] for the scalars; see [NotModelled]. *)
Definition fmt (v : json) : result string :=
  match v with
  | JStr s => Ok s
  | JNull => Ok "None"
  | JBool true => Ok "True"
  | JBool false => Ok "False"
  | JNum n => Ok (pretty n)
  | _ => Raise NotModelled
  end.

(** A value handed to [os.path.join] must be a [str]. *)
Definition as_path (v : json) : result string :=
  match v with
  | JStr s => Ok s
  | _ => Raise TypeError
  end.

(** Monadic loops: [for x in l: acc = body(acc, x)]. *)
Fixpoint foldM {A S} (body : S -> A -> result S) (l : list A) (acc : S) : result S :=
  match l with
  | [] => Ok acc
  | x :: rest => do acc' <- body acc x; foldM body rest acc'
  end.

Fixpoint mapM {A B} (f : A -> result B) (l : list A) : result (list B) :=
  match l with
  | [] => Ok []
  | x :: rest => do y <- f x; do ys <- mapM f rest; Ok (y :: ys)
  end.

(** [sep.join(v)]: every item must be a [str]. *)
Definition py_join (sep : string) (v : json) : result string :=
  do items <- py_iter v;
  do strs <- mapM as_path items;
  Ok (join sep strs).

(** *** Objects *)

(** An instance's [__dict__]. *)
Definition obj := list (string * json).

Definition getattr (self : obj) (a : string) : result json :=
  match assoc a self with
  | Some v => Ok v
  | None => Raise (AttributeError a)
  end.

Definition setattr (a : string) (v : json) (self : obj) : obj := assoc_set a v self.

(* ===================================================================== *)
(** ** Catalog schema detection *)
(* ===================================================================== *)

(** The two layouts, named as the comments of the source name them. *)
Inductive schema : Type := NewFormat | OriginalFormat.

(** [first_key = next(iter(data)) if data else None] followed by
    [first_key and first_key in data and "description" in data[first_key]]:
    the test written out in [list_IPs], [list_IPs_local], [get_IP_list] and
    [get_IP_info]. *)
Definition is_new_format (data : json) : result bool :=
  if truthy data then
    do keys <- py_iter data;
    match keys with
    | [] => Ok false
    | first_key :: _ =>
        if truthy first_key then
          do present <- py_in first_key data;
          if present then
            do v <- getitem data first_key;
            py_in (JStr "description") v
          else Ok false
        else Ok false
    end
  else Ok false.

Definition schema_by_first_key (data : json) : result schema :=
  do b <- is_new_format data;
  Ok (if b then NewFormat else OriginalFormat).

(** [if self.ip in data:], the test of [RemoteIP.get_info]. *)
Definition schema_by_membership (ip data : json) : result schema :=
  do b <- py_in ip data;
  Ok (if b then NewFormat else OriginalFormat).

(* ===================================================================== *)
(** ** Download URL *)
(* ===================================================================== *)

(** The tail of [RemoteIP.get_info] on a [str] repository and the formatted
    version: [repo_parts = self.repo.split('/')], then the test
    [len(repo_parts) >= 3 and "github.com" in self.repo]. *)
Definition release_url_of (repo version : string) : string :=
  let repo_parts := split "/" repo in
  if (3 <=? length repo_parts)%nat && str_in "github.com" repo then
    let repo_name := last_segment repo_parts in
    "https://" +:+ repo +:+ "/archive/refs/tags/" +:+ repo_name +:+ "-" +:+ version +:+ ".tar.gz"
  else
    "https://" +:+ repo +:+ "/releases/download/" +:+ version +:+ "/" +:+ version +:+ ".tar.gz".

(** The URL of [LocalIP.get_info] and [LocalIP.init_info]. *)
Definition local_release_url (repo version : string) : string :=
  "https://" +:+ repo +:+ "/releases/download/" +:+ version +:+ "/" +:+ version +:+ ".tar.gz".

(* ===================================================================== *)
(** ** RemoteIP *)
(* ===================================================================== *)

Module RemoteIP.

(** [RemoteIP(ip)]. *)
Definition init (ip : json) : obj := [("ip", ip)].

(** The seven assignments made from a release of the new format. *)
Definition set_release_info (release_info : json) (self : obj) : result obj :=
  do date <- getitem release_info (JStr "date");
  let self := setattr "date" date self in
  do type <- getitem release_info (JStr "type");
  let self := setattr "type" type self in
  do width <- getitem release_info (JStr "width");
  let self := setattr "width" width self in
  do height <- getitem release_info (JStr "height");
  let self := setattr "height" height self in
  do cell_count <- getitem release_info (JStr "cell_count");
  let self := setattr "cell_count" cell_count self in
  do clk_freq <- getitem release_info (JStr "clock_freq_mhz");
  let self := setattr "clk_freq" clk_freq self in
  do status <- py_get release_info "maturity" (JStr "unknown");
  Ok (setattr "status" status self).

(** The branch [if self.ip in data:]. *)
Definition get_info_new (data : json) (technology version : json) (self : obj) : result obj :=
  do ip <- getattr self "ip";
  do value <- getitem data ip;
  let self := setattr "name" ip self in
  do repo <- getitem value (JStr "repo");
  let self := setattr "repo" repo self in
  do author <- getitem value (JStr "author");
  let self := setattr "author" author self in
  do email <- getitem value (JStr "email");
  let self := setattr "email" email self in
  do category <- getitem value (JStr "category");
  let self := setattr "category" category self in
  let self := setattr "technology" technology self in
  do license <- getitem value (JStr "license");
  let self := setattr "license" license self in
  do tags <- getitem value (JStr "tags");
  let self := setattr "tag" tags self in
  do release <- getitem value (JStr "release");
  let self := setattr "release" release self in
  match version with
  | JNull =>
      do versions <- py_keys release;
      match last versions with
      | Some latest_version =>
          let self := setattr "version" (JStr latest_version) self in
          do release_info <- getitem release (JStr latest_version);
          set_release_info release_info self
      | None => Ok self
      end
  | _ =>
      do present <- py_in version release;
      if present then
        let self := setattr "version" version self in
        do release_info <- getitem release version;
        set_release_info release_info self
      else Ok self
  end.

(** [for v in value["release"]: if v["version"] == version: ...]. *)
Definition pick_version (version : json) (self : obj) (v : json) : result obj :=
  do vv <- getitem v (JStr "version");
  if py_eq vv version then
    let self := setattr "version" vv self in
    do date <- getitem v (JStr "date");
    Ok (setattr "date" date self)
  else Ok self.

(** The body of the inner loop of the original format, for one record
    [value] of the category [key]. *)
Definition visit_record (technology version : json) (key : string)
    (self : obj) (value : json) : result obj :=
  do ip <- getattr self "ip";
  do name <- getitem value (JStr "name");
  do matches <-
    (if py_eq name ip then
       do tech <- getitem value (JStr "technology"); Ok (py_eq tech technology)
     else Ok false);
  if matches then
    let self := setattr "name" ip self in
    do repo <- getitem value (JStr "repo");
    let self := setattr "repo" repo self in
    do release <- getitem value (JStr "release");
    let self := setattr "release" release self in
    do self <-
      match version with
      | JNull =>
          do newest <- getitem release (JNum (-1));
          do vv <- getitem newest (JStr "version");
          let self := setattr "version" vv self in
          do newest <- getitem release (JNum (-1));
          do date <- getitem newest (JStr "date");
          Ok (setattr "date" date self)
      | _ =>
          do releases <- py_iter release;
          foldM (pick_version version) releases self
      end;
    do author <- getitem value (JStr "author");
    let self := setattr "author" author self in
    do email <- getitem value (JStr "email");
    let self := setattr "email" email self in
    let self := setattr "category" (JStr key) self in
    do type <- getitem value (JStr "type");
    let self := setattr "type" type self in
    do status <- getitem value (JStr "status");
    let self := setattr "status" status self in
    do width <- getitem value (JStr "width");
    let self := setattr "width" width self in
    do height <- getitem value (JStr "height");
    let self := setattr "height" height self in
    let self := setattr "technology" technology self in
    do tag <- getitem value (JStr "tag");
    let self := setattr "tag" tag self in
    do cell_count <- getitem value (JStr "cell_count");
    let self := setattr "cell_count" cell_count self in
    do clk_freq <- getitem value (JStr "clk_freq");
    let self := setattr "clk_freq" clk_freq self in
    do license <- getitem value (JStr "license");
    Ok (setattr "license" license self)
  else Ok self.

Definition visit_category (technology version : json)
    (self : obj) (kv : string * json) : result obj :=
  do values <- py_iter (snd kv);
  foldM (visit_record technology version (fst kv)) values self.

(** The [else] branch: [for key, values in data.items(): for value in values:]. *)
Definition get_info_original (data : json) (technology version : json) (self : obj) : result obj :=
  do items <- py_items data;
  foldM (visit_category technology version) items self.

(** From [self.possible_urls = []] to [self.release_url = self.possible_urls[0]]. *)
Definition set_release_url (self : obj) : result obj :=
  let self := setattr "possible_urls" (JArr []) self in
  do repo <- getattr self "repo";
  match repo with
  | JStr repo =>
      do version <- getattr self "version";
      do version <- fmt version;
      let url := JStr (release_url_of repo version) in
      let self := setattr "possible_urls" (JArr [url]) self in
      Ok (setattr "release_url" url self)
  | _ => Raise (AttributeError "split")
  end.

(** [RemoteIP.get_info(self, technology, version)] on the catalog [data]
    that [requests.get(REMOTE_JSON_FILE_NAME)] delivered. *)
Definition get_info (data : json) (technology version : json) (self : obj) : result obj :=
  do ip <- getattr self "ip";
  do sch <- schema_by_membership ip data;
  do self <-
    match sch with
    | NewFormat => get_info_new data technology version self
    | OriginalFormat => get_info_original data technology version self
    end;
  set_release_url self.

End RemoteIP.

(* ===================================================================== *)
(** ** Catalog readers: name enumeration and listing *)
(* ===================================================================== *)

(** [get_IP_list], new format: [for ip_name in data.keys()]. *)
Definition get_IP_list_new (data : json) : result (list json) :=
  do keys <- py_keys data;
  Ok (map JStr keys).

(** [get_IP_list], original format. *)
Definition get_IP_list_original (data : json) : result (list json) :=
  do items <- py_items data;
  foldM (fun IP_list kv =>
           do values <- py_iter (snd kv);
           foldM (fun IP_list value =>
                    do name <- getitem value (JStr "name");
                    Ok (IP_list ++ [name])) values IP_list)
        items [].

(** [get_IP_list] once [data] has been read. *)
Definition get_IP_list_of (data : json) : result (list json) :=
  do sch <- schema_by_first_key data;
  match sch with
  | NewFormat => get_IP_list_new data
  | OriginalFormat => get_IP_list_original data
  end.

(** A row handed to [table.add_row]. *)
Definition row := list json.

(** [list_IPs], new format. *)
Definition list_IPs_new (data : json) (category : string) : result (list row) :=
  do items <- py_items data;
  foldM (fun rows kv =>
           let '(ip_name, ip_data) := kv in
           do skip <-
             (if negb (String.eqb category "all") then
                do c <- getitem ip_data (JStr "category");
                Ok (negb (py_eq c (JStr category)))
              else Ok false);
           if skip then Ok rows
           else
             do release <- getitem ip_data (JStr "release");
             if truthy release then
               do versions <- py_keys release;
               match last versions with
               | None => Raise IndexError
               | Some latest_version =>
                   do latest_release <- getitem release (JStr latest_version);
                   do c <- getitem ip_data (JStr "category");
                   do author <- getitem ip_data (JStr "author");
                   do type <- getitem latest_release (JStr "type");
                   do tags <- getitem ip_data (JStr "tags");
                   do tags <- py_join "," tags;
                   do maturity <- py_get latest_release "maturity" (JStr "unknown");
                   do technology <- getitem ip_data (JStr "technology");
                   do license <- getitem ip_data (JStr "license");
                   Ok (rows ++ [[c; JStr ip_name; JStr latest_version; author; type;
                                 JStr tags; maturity; technology; license]])
               end
             else Ok rows)
        items [].

(** One row of [list_IPs], original format. *)
Definition original_row (key : json) (value : json) : result row :=
  do name <- getitem value (JStr "name");
  do release <- getitem value (JStr "release");
  do newest <- getitem release (JNum (-1));
  do version <- getitem newest (JStr "version");
  do author <- getitem value (JStr "author");
  do type <- getitem value (JStr "type");
  do tag <- getitem value (JStr "tag");
  do tag <- py_join "," tag;
  do status <- getitem value (JStr "status");
  do technology <- getitem value (JStr "technology");
  do license <- getitem value (JStr "license");
  Ok [key; name; version; author; type; JStr tag; status; technology; license].

(** [list_IPs], original format. *)
Definition list_IPs_original (data : json) (category : string) : result (list row) :=
  if String.eqb category "all" then
    do items <- py_items data;
    foldM (fun rows kv =>
             do values <- py_iter (snd kv);
             foldM (fun rows value =>
                      do r <- original_row (JStr (fst kv)) value; Ok (rows ++ [r]))
                   values rows)
          items []
  else
    do bucket <- getitem data (JStr category);
    do values <- py_iter bucket;
    foldM (fun rows value =>
             do r <- original_row (JStr category) value; Ok (rows ++ [r]))
          values [].

(** [list_IPs] once [data] has been read: the rows of the printed table (no
    row: "No IPs Found"). *)
Definition list_IPs_of (data : json) (category : string) : result (list row) :=
  do sch <- schema_by_first_key data;
  match sch with
  | NewFormat => list_IPs_new data category
  | OriginalFormat => list_IPs_original data category
  end.


(* ===================================================================== *)
(** ** The world outside and the state on disk *)
(* ===================================================================== *)

(** A file-system object. *)
#[warnings="-register-all"]
Inductive node : Type :=
| File (content : string)
| Dir (entries : list (string * node)).

(** What [requests.get(url, headers=...)] returns. *)
Record response : Type := { status_code : Z; content : string }.

(** Everything the code reads and does not own: the remote catalog (what
    [json.loads] makes of the answer to [requests.get(REMOTE_JSON_FILE_NAME)],
    taken to arrive and to parse), the archive hosts, the decoding of a
    tarball ([tarfile.open] followed by [extractall]; [None] when the bytes
    are no archive), the current directory behind [os.path.abspath], and
    the environment. *)
Record world : Type := {
  remote_catalog : json;
  http_get : string -> option string -> response;
  untar : string -> option (list (string * node));
  abspath : string -> string;
  GITHUB_TOKEN : option string
}.

(** Lines the code prints, with [console.print] or with [print]; the
    payload is the data interpolated in them. *)
Inductive event : Type :=
| ExistsNonEmpty (ip ip_root : string)
| RemovingExisting (ip ip_root : string)
| GettingInstalled (ip ip_path : string)
| UsingGitHubAuth (ip : string)
| DownloadingFrom (url : json)
| NotFoundRemotely (ip : string) (version : json) (status : Z)
| UrlAttempted (url : json)
| ExtractingFrom (url : json)
| FoundGitHubStyle (top : string)
| FoundStandard
| Installed (ip : string) (version : json) (ip_path : string)
| DepsFileMissing (path : string)
| NotValidIP (ip : json)
| Uninstalled (ip : string) (version : json)
| NotFoundAt (ip ip_root : string)
| NoInstalledToUpdate
| NoInstalledToCheck
| CheckingAll
| UpToDate (ip : json) (version : json)
| Updating (ip : json)
| NewerVersion (ip : json) (version : json)
| NumberUpdated (n : nat)
| NewerVersionsFor (n : nat)
| AllUpToDate
| DebugReleaseUrl (url : json).

(** The registry [Installed_IPs.json] under [ipm_iproot] (every command
    creates it first, in [check_ipm_directory]), the [dependencies.json]
    files by path, the directories and files by path, and the console.
    Paths are the strings [os.path.join] builds; the manifests live outside
    the package directories. *)
Record state : Type := {
  registry : json;
  deps : gmap string json;
  fs : gmap string node;
  console : list event
}.

Definition M (A : Type) : Type := state -> result A * state.

Definition ret {A} (a : A) : M A := fun s => (Ok a, s).

Definition bind {A B} (c : M A) (k : A -> M B) : M B :=
  fun s =>
    match c s with
    | (Ok a, s') => k a s'
    | (Exit n, s') => (Exit n, s')
    | (Raise e, s') => (Raise e, s')
    end.

Definition lift {A} (r : result A) : M A := fun s => (r, s).

Definition exit {A} (code : Z) : M A := fun s => (Exit code, s).

Notation "'run' x <- c ; k" := (bind c (fun x => k))
  (at level 10, x name, c at level 100, k at level 200).
Notation "'exec' c ; k" := (bind c (fun _ => k))
  (at level 10, c at level 100, k at level 200).

Definition print (e : event) : M unit :=
  fun s => (Ok tt, {| registry := registry s; deps := deps s; fs := fs s;
                      console := console s ++ [e] |}).

Definition read_registry : M json := fun s => (Ok (registry s), s).

Definition write_registry (doc : json) : M unit :=
  fun s => (Ok tt, {| registry := doc; deps := deps s; fs := fs s; console := console s |}).

(** [open(path)] then [json.load]. *)
Definition read_deps (path : string) : M json :=
  fun s => match deps s !! path with
           | Some doc => (Ok doc, s)
           | None => (Raise (FileNotFoundError path), s)
           end.

Definition deps_exists (path : string) : M bool :=
  fun s => (Ok (bool_decide (is_Some (deps s !! path))), s).

(** [with open(path, "w") as f: json.dump(doc, f)].  The directory of
    [path] is taken to exist: the state records the manifests by path and
    the packages by path, not the directories above them, so the
    [FileNotFoundError] that [open] raises in a directory that does not
    exist (a [--dep-file] that names no directory) has no counterpart here.
    Where a manifest is rewritten after it was read, that directory
    exists. *)
Definition write_deps (path : string) (doc : json) : M unit :=
  fun s => (Ok tt, {| registry := registry s; deps := <[path := doc]> (deps s);
                      fs := fs s; console := console s |}).

Definition with_fs (f : gmap string node -> result (gmap string node)) : M unit :=
  fun s => match f (fs s) with
           | Ok fs' => (Ok tt, {| registry := registry s; deps := deps s; fs := fs';
                                  console := console s |})
           | Exit n => (Exit n, s)
           | Raise e => (Raise e, s)
           end.

(** [os.path.exists(path)]. *)
Definition path_exists (path : string) : M bool :=
  fun s => (Ok (bool_decide (is_Some (fs s !! path))), s).

(** [os.listdir(path)]. *)
Definition listdir (path : string) : M (list string) :=
  fun s => match fs s !! path with
           | Some (Dir entries) => (Ok (map fst entries), s)
           | Some (File _) => (Raise (NotADirectoryError path), s)
           | None => (Raise (FileNotFoundError path), s)
           end.

(** [shutil.rmtree(path)]. *)
Definition rmtree (path : string) : M unit :=
  with_fs (fun m => match m !! path with
                    | Some (Dir _) => Ok (delete path m)
                    | Some (File _) => Raise (NotADirectoryError path)
                    | None => Raise (FileNotFoundError path)
                    end).

(** [os.remove(path)]. *)
Definition remove (path : string) : M unit :=
  with_fs (fun m => match m !! path with
                    | Some (File _) => Ok (delete path m)
                    | Some (Dir _) => Raise (IsADirectoryError path)
                    | None => Raise (FileNotFoundError path)
                    end).

(** [with open(path, "wb") as f: f.write(content)]; the directory of
    [path] is taken to exist, as for [write_deps]. *)
Definition write_file (path content : string) : M unit :=
  with_fs (fun m => match m !! path with
                    | Some (Dir _) => Raise (IsADirectoryError path)
                    | _ => Ok (<[path := File content]> m)
                    end).

(** [os.makedirs(path)] and [os.makedirs(path, exist_ok=True)]. *)
Definition makedirs (path : string) (exist_ok : bool) : M unit :=
  with_fs (fun m => match m !! path with
                    | None => Ok (<[path := Dir []]> m)
                    | Some (Dir _) => if exist_ok then Ok m else Raise (FileExistsError path)
                    | Some (File _) => Raise (FileExistsError path)
                    end).

(** The entries of the directory at [path]. *)
Definition dir_entries (path : string) : M (list (string * node)) :=
  fun s => match fs s !! path with
           | Some (Dir entries) => (Ok entries, s)
           | Some (File _) => (Raise (NotADirectoryError path), s)
           | None => (Raise (FileNotFoundError path), s)
           end.

(** One step of the copy loops: [shutil.copytree(s, d, dirs_exist_ok=True)]
    for a directory, [shutil.copy2(s, d)] for a file, where [d] is the entry
    [name] of the destination directory. *)
Fixpoint copy_item (name : string) (src : node) (dst : list (string * node))
    : result (list (string * node)) :=
  match src with
  | File c =>
      match assoc name dst with
      | Some (Dir inner) => Ok (assoc_set name (Dir (assoc_set name (File c) inner)) dst)
      | _ => Ok (assoc_set name (File c) dst)
      end
  | Dir children =>
      do inner <-
        match assoc name dst with
        | Some (Dir inner) => Ok inner
        | Some (File _) => Raise (FileExistsError name)
        | None => Ok []
        end;
      do merged <-
        (fix go (children : list (string * node)) (acc : list (string * node)) :=
           match children with
           | [] => Ok acc
           | (n, child) :: rest => do acc' <- copy_item n child acc; go rest acc'
           end) children inner;
      Ok (assoc_set name (Dir merged) dst)
  end.

Fixpoint copy_items (items : list (string * node)) (dst : list (string * node))
    : result (list (string * node)) :=
  match items with
  | [] => Ok dst
  | (n, child) :: rest => do dst' <- copy_item n child dst; copy_items rest dst'
  end.

(** The loop [for item in ...: copytree or copy2] into the directory [dst_path]. *)
Definition copy_into (items : list (string * node)) (dst_path : string) : M unit :=
  run dst <- dir_entries dst_path;
  run dst' <- lift (copy_items items dst);
  with_fs (fun m => Ok (<[dst_path := Dir dst']> m)).

(* ===================================================================== *)
(** ** LocalIP: the registry and the dependency manifest *)
(* ===================================================================== *)

Module LocalIP.

(** [LocalIP(ip, ipm_iproot)]. *)
Definition init (ip : json) (ipm_iproot : string) : obj :=
  [("ip", ip); ("ipm_iproot", JStr ipm_iproot)].

(** The body of the inner loop of [get_info] for one record [value] of the
    category [key]. *)
Definition visit_record (technology : json) (key : string)
    (self : obj) (value : json) : result obj :=
  do ip <- getattr self "ip";
  do name <- getitem value (JStr "name");
  do matches <-
    (if py_eq name ip then
       do tech <- getitem value (JStr "technology"); Ok (py_eq tech technology)
     else Ok false);
  if matches then
    let self := setattr "name" ip self in
    do repo <- getitem value (JStr "repo");
    let self := setattr "repo" repo self in
    do version <- getitem value (JStr "version");
    let self := setattr "version" version self in
    do date <- getitem value (JStr "date");
    let self := setattr "date" date self in
    do author <- getitem value (JStr "author");
    let self := setattr "author" author self in
    do email <- getitem value (JStr "email");
    let self := setattr "email" email self in
    let self := setattr "category" (JStr key) self in
    do type <- getitem value (JStr "type");
    let self := setattr "type" type self in
    do status <- getitem value (JStr "status");
    let self := setattr "status" status self in
    do width <- getitem value (JStr "width");
    let self := setattr "width" width self in
    do height <- getitem value (JStr "height");
    let self := setattr "height" height self in
    let self := setattr "technology" technology self in
    do tag <- getitem value (JStr "tag");
    let self := setattr "tag" tag self in
    do cell_count <- getitem value (JStr "cell_count");
    let self := setattr "cell_count" cell_count self in
    do clk_freq <- getitem value (JStr "clk_freq");
    let self := setattr "clk_freq" clk_freq self in
    do license <- getitem value (JStr "license");
    let self := setattr "license" license self in
    do ip_root <- getitem value (JStr "ip_root");
    Ok (setattr "ip_root" ip_root self)
  else Ok self.

Definition visit_category (technology : json)
    (self : obj) (kv : string * json) : result obj :=
  do values <- py_iter (snd kv);
  foldM (visit_record technology (fst kv)) values self.

(** [LocalIP.get_info(self, technology, version)] on the registry document
    [data]; the parameter [version] is not used by the source. *)
Definition get_info (data : json) (technology : json) (self : obj) : result obj :=
  do items <- py_items data;
  do self <- foldM (visit_category technology) items self;
  do repo <- getattr self "repo";
  do repo <- fmt repo;
  do version <- getattr self "version";
  do version <- fmt version;
  Ok (setattr "release_url" (JStr (local_release_url repo version)) self).

(** [get_info_from_atr(ip_info)]: a dict with the attributes of [ip_info],
    in the order of [__dict__]. *)
Definition get_info_from_atr (ip_info : obj) : obj := ip_info.

(** [v[k] = x] where [v[k]] was read just before: the write-back of a
    list mutated in place. *)
Definition setitem_any (v k x : json) : result json :=
  match v, k with
  | JObj kvs, JStr s => Ok (JObj (assoc_set s x kvs))
  | JArr l, JNum i =>
      let n := Z.of_nat (length l) in
      if (0 <=? i) && (i <? n) then Ok (JArr (<[Z.to_nat i := x]> l))
      else if (i <? 0) && (0 <=? n + i) then Ok (JArr (<[Z.to_nat (n + i) := x]> l))
      else Raise IndexError
  | _, _ => Raise TypeError
  end.

(** The dict [add_ip_to_json] appends: the attributes of [ip_info] without
    [release], with [ip_root] made absolute. *)
Definition installed_record (w : world) (ip_info : obj) (ip_root : string) : result json :=
  let ip_info_dict := get_info_from_atr ip_info in
  do _ <- match assoc "release" ip_info_dict with
          | Some _ => Ok tt
          | None => Raise (KeyError (JStr "release"))
          end;
  let ip_info_dict := assoc_del "release" ip_info_dict in
  Ok (JObj (assoc_set "ip_root" (JStr (abspath w ip_root)) ip_info_dict)).

(** [add_ip_to_json(self, ip_info, ip_root)]; returns [self], whose
    [ip_root] it assigns. *)
Definition add_ip_to_json (w : world) (ip_info : obj) (ip_root : string) (self : obj) : M obj :=
  run json_decoded <- read_registry;
  run ip_info_dict <- lift (installed_record w ip_info ip_root);
  let self := setattr "ip_root" (JStr (abspath w ip_root)) self in
  run category <- lift (getitem ip_info_dict (JStr "category"));
  run bucket <- lift (getitem json_decoded category);
  run bucket <- lift (py_append bucket ip_info_dict);
  run json_decoded <- lift (setitem_any json_decoded category bucket);
  exec write_registry json_decoded;
  ret self.

(** [for ips in l: if cond(ips): l.remove(ips)].  The list iterator keeps
    an index into the list it walks: after a removal the items behind
    move one place forward and the iterator steps over the next one.
    [fuel] bounds the number of visits; [length l] visits are enough
    ([remove_loop_fuel]). *)
Fixpoint remove_loop (cond : json -> result bool) (fuel i : nat) (l : list json)
    : result (list json) :=
  match fuel with
  | O => Ok l
  | S fuel' =>
      match l !! i with
      | None => Ok l
      | Some ips =>
          do c <- cond ips;
          remove_loop cond fuel' (S i) (if c then list_remove i ips l else l)
      end
  end.

(** The same loop over whatever [v] is. *)
Definition remove_where (cond : json -> result bool) (v : json) : result json :=
  match v with
  | JArr l => do l' <- remove_loop cond (length l) 0 l; Ok (JArr l')
  | _ =>
      do items <- py_iter v;
      match items with
      | [] => Ok v
      | ips :: _ => do _ <- cond ips; Raise TypeError
      end
  end.

(** [ips['name'] == ip_info_dict['name'] and ips['ip_root'] == self.ip_root]. *)
Definition same_name_and_root (self : obj) (ips : json) : result bool :=
  do n <- getitem ips (JStr "name");
  do name <- getitem (JObj self) (JStr "name");
  if py_eq n name then
    do r <- getitem ips (JStr "ip_root");
    do ip_root <- getattr self "ip_root";
    Ok (py_eq r ip_root)
  else Ok false.

(** [remove_ip_from_json(self)]; returns [self], which [get_info] fills. *)
Definition remove_ip_from_json (self : obj) : M obj :=
  run json_decoded <- read_registry;
  run data <- read_registry;
  run self <- lift (get_info data (JStr "sky130") self);
  let ip_info_dict := get_info_from_atr self in
  run category <- lift (getitem (JObj ip_info_dict) (JStr "category"));
  run ip_category <- lift (getitem json_decoded category);
  run ip_category <- lift (remove_where (same_name_and_root self) ip_category);
  run json_decoded <- lift (setitem_any json_decoded category ip_category);
  exec write_registry json_decoded;
  ret self.

Definition DEPENDENCIES_FILE_NAME : string := "dependencies.json".

(** The manifest path: [deps_file] when it is given and not empty, else
    [self.ip_root]. *)
Definition deps_path (self : obj) (deps_file : option string) : result string :=
  match deps_file with
  | Some d =>
      if negb (String.eqb d "") then Ok (path_join d DEPENDENCIES_FILE_NAME)
      else do r <- getattr self "ip_root"; do r <- as_path r;
           Ok (path_join r DEPENDENCIES_FILE_NAME)
  | None => do r <- getattr self "ip_root"; do r <- as_path r;
            Ok (path_join r DEPENDENCIES_FILE_NAME)
  end.

(** [ips['name'] == ip_info_dict['name']]. *)
Definition same_name (self : obj) (ips : json) : result bool :=
  do n <- getitem ips (JStr "name");
  do name <- getitem (JObj self) (JStr "name");
  Ok (py_eq n name).

(** [remove_from_deps(self, deps_file)]. *)
Definition remove_from_deps (deps_file : option string) (self : obj) : M unit :=
  run json_file <- lift (deps_path self deps_file);
  run json_decoded <- read_deps json_file;
  let ip_info_dict := get_info_from_atr self in
  run ip_category <- lift (getitem json_decoded (JStr "IP"));
  run ip_category <- lift (remove_where (same_name ip_info_dict) ip_category);
  run json_decoded <- lift (setitem_any json_decoded (JStr "IP") ip_category);
  write_deps json_file json_decoded.

(** The [tmp_dict] of [create_deps]. *)
Definition dependency_entry (ip_info : obj) : result json :=
  let ip_info_dict := get_info_from_atr ip_info in
  do name <- getitem (JObj ip_info_dict) (JStr "name");
  do version <- getitem (JObj ip_info_dict) (JStr "version");
  do technology <- getitem (JObj ip_info_dict) (JStr "technology");
  Ok (JObj [("name", name); ("version", version); ("technology", technology)]).

(** [create_deps(self, ip_info, deps_file)]. *)
Definition create_deps (ip_info : obj) (deps_file : option string) (self : obj) : M unit :=
  run local_json_file <- lift (deps_path self deps_file);
  run present <- deps_exists local_json_file;
  run json_decoded <-
    (if present then read_deps local_json_file
     else ret (JObj [("IP", JArr [])]));
  run tmp_dict <- lift (dependency_entry ip_info);
  run bucket <- lift (getitem json_decoded (JStr "IP"));
  run bucket <- lift (py_append bucket tmp_dict);
  run json_decoded <- lift (setitem_any json_decoded (JStr "IP") bucket);
  write_deps local_json_file json_decoded.

End LocalIP.

(* ===================================================================== *)
(** ** The installer *)
(* ===================================================================== *)

Section Installer.

Variable w : world.

(** The guard that opens [install_ip] and the body of the loop of
    [install_deps_ip] (the same lines in both): [false] when the code
    takes its [return]. *)
Definition destination_guard (ipm_iproot ip : string) (overwrite : bool)
    (ip_root : string) (deps_file : option string) : M bool :=
  let ip_path := path_join ip_root ip in
  run present <- path_exists ip_path;
  if present then
    run names <- listdir ip_path;
    if negb (Nat.eqb (length names) 0) then
      if negb overwrite then
        exec print (ExistsNonEmpty ip ip_root);
        ret false
      else
        exec print (RemovingExisting ip ip_root);
        let local_ip := LocalIP.init (JStr ip) ipm_iproot in
        run local_ip <- LocalIP.remove_ip_from_json local_ip;
        exec LocalIP.remove_from_deps deps_file local_ip;
        exec rmtree ip_path;
        ret true
    else
      exec rmtree ip_path;
      ret true
  else ret true.

(** [remote_ip.get_info(technology=technology, version=version)]: a fresh
    fetch of the catalog. *)
Definition resolve (ip technology version : json) : M obj :=
  run remote_ip <-
    lift (RemoteIP.get_info (remote_catalog w) technology version (RemoteIP.init ip));
  run release_url <- lift (getattr remote_ip "release_url");
  exec print (DebugReleaseUrl release_url);
  ret remote_ip.

(** [if GITHUB_TOKEN and "github.com" in remote_ip.repo]. *)
Definition auth_header (remote_ip : obj) : result (option string) :=
  match GITHUB_TOKEN w with
  | Some token =>
      if negb (String.eqb token "") then
        do repo <- getattr remote_ip "repo";
        do uses <- py_in (JStr "github.com") repo;
        Ok (if uses then Some ("token " +:+ token) else None)
      else Ok None
  | None => Ok None
  end.

(** From the request to "Successfully installed": download, unpack into a
    scratch directory, copy into [ip_path], clean up (the same lines in
    [install_ip] and in [install_deps_ip]). *)
Definition download_and_unpack (ip ip_root : string) (remote_ip : obj) : M unit :=
  let ip_path := path_join ip_root ip in
  run headers <- lift (auth_header remote_ip);
  exec (if headers is Some _ then print (UsingGitHubAuth ip) else ret tt);
  run release_url <- lift (getattr remote_ip "release_url");
  exec print (DownloadingFrom release_url);
  run url <- lift (as_path release_url);
  let response := http_get w url headers in
  if negb (status_code response =? 200) then
    run version <- lift (getattr remote_ip "version");
    exec print (NotFoundRemotely ip version (status_code response));
    exec print (UrlAttempted release_url);
    exit 1
  else
    let tarball_path := path_join ip_root (ip +:+ ".tar.gz") in
    exec write_file tarball_path (content response);
    let temp_extract_dir := path_join ip_root (ip +:+ "_temp_extract") in
    run stale <- path_exists temp_extract_dir;
    exec (if stale then rmtree temp_extract_dir else ret tt);
    exec makedirs temp_extract_dir false;
    exec print (ExtractingFrom release_url);
    run members <- lift (match untar w (content response) with
                         | Some members => Ok members
                         | None => Raise ReadError
                         end);
    exec copy_into members temp_extract_dir;
    run extracted_contents <- dir_entries temp_extract_dir;
    exec
      match extracted_contents with
      | [(top, Dir children)] =>
          exec print (FoundGitHubStyle top);
          exec makedirs ip_path true;
          copy_into children ip_path
      | _ =>
          exec print FoundStandard;
          exec makedirs ip_path true;
          copy_into extracted_contents ip_path
      end;
    exec rmtree temp_extract_dir;
    exec remove tarball_path;
    run version <- lift (getattr remote_ip "version");
    print (Installed ip version ip_path).

(** [install_ip(console, ipm_iproot, ip, overwrite, technology, version,
    ip_root, deps_file)]. *)
Definition install_ip (ipm_iproot ip : string) (overwrite : bool)
    (technology version : json) (ip_root : string) (deps_file : option string) : M unit :=
  let ip_path := path_join ip_root ip in
  run proceed <- destination_guard ipm_iproot ip overwrite ip_root deps_file;
  if proceed then
    run remote_ip <- resolve (JStr ip) technology version;
    let local_ip := LocalIP.init (JStr ip) ipm_iproot in
    exec print (GettingInstalled ip ip_path);
    exec download_and_unpack ip ip_root remote_ip;
    run local_ip <- LocalIP.add_ip_to_json w remote_ip ip_root local_ip;
    LocalIP.create_deps remote_ip deps_file local_ip
  else ret tt.

(** One turn of the loop of [install_deps_ip]: [false] when the code takes
    its [return]. *)
Definition install_dep (ipm_iproot : string) (overwrite : bool) (ip_root : string)
    (deps_file : option string) (IP_list : list json) (ip_obj : json) : M bool :=
  run ip <- lift (getitem ip_obj (JStr "name"));
  run version <- lift (getitem ip_obj (JStr "version"));
  run technology <- lift (getitem ip_obj (JStr "technology"));
  if negb (existsb (fun x => py_eq x ip) IP_list) then
    exec print (NotValidIP ip);
    exit 1
  else
    run ip <- lift (as_path ip);
    run proceed <- destination_guard ipm_iproot ip overwrite ip_root deps_file;
    if proceed then
      run remote_ip <- resolve (JStr ip) technology version;
      let local_ip := LocalIP.init (JStr ip) ipm_iproot in
      exec download_and_unpack ip ip_root remote_ip;
      run _ <- LocalIP.add_ip_to_json w remote_ip ip_root local_ip;
      ret true
    else ret false.

(** [for ip_obj in ips: ...], left by [return], [exit(1)] or an exception;
    [true] when the loop ran to its end, [false] when it was left by
    [return]. *)
Fixpoint install_deps_loop (ipm_iproot : string) (overwrite : bool) (ip_root : string)
    (deps_file : option string) (IP_list : list json) (ips : list json) : M bool :=
  match ips with
  | [] => ret true
  | ip_obj :: rest =>
      run continue <- install_dep ipm_iproot overwrite ip_root deps_file IP_list ip_obj;
      if continue then install_deps_loop ipm_iproot overwrite ip_root deps_file IP_list rest
      else ret false
  end.

(** [if deps_file: JSON_FILE = os.path.join(deps_file, DEPENDENCIES_FILE_NAME)
    else: JSON_FILE = os.path.join(ip_root, DEPENDENCIES_FILE_NAME)]. *)
Definition manifest_file (ip_root : string) (deps_file : option string) : string :=
  match deps_file with
  | Some d => if negb (String.eqb d "") then path_join d LocalIP.DEPENDENCIES_FILE_NAME
              else path_join ip_root LocalIP.DEPENDENCIES_FILE_NAME
  | None => path_join ip_root LocalIP.DEPENDENCIES_FILE_NAME
  end.

(** [install_deps_ip(console, ipm_iproot, overwrite, ip_root, deps_file,
    IP_list)]. *)
Definition install_deps_ip (ipm_iproot : string) (overwrite : bool) (ip_root : string)
    (deps_file : option string) (IP_list : list json) : M unit :=
  let JSON_FILE := manifest_file ip_root deps_file in
  run present <- deps_exists JSON_FILE;
  if present then
    run json_decoded <- read_deps JSON_FILE;
    run ips <- lift (getitem json_decoded (JStr "IP"));
    run ips <- lift (py_iter ips);
    run _ <- install_deps_loop ipm_iproot overwrite ip_root deps_file IP_list ips;
    ret tt
  else
    exec print (DepsFileMissing JSON_FILE);
    exit 1.

(** [uninstall_ip(console, ipm_iproot, ip, ip_root, deps_file)]. *)
Definition uninstall_ip (ipm_iproot ip ip_root : string) (deps_file : option string) : M unit :=
  let ip_path := path_join ip_root ip in
  let local_ip := LocalIP.init (JStr ip) ipm_iproot in
  run present <- path_exists ip_path;
  if present then
    run local_ip <- LocalIP.remove_ip_from_json local_ip;
    exec LocalIP.remove_from_deps deps_file local_ip;
    exec rmtree ip_path;
    run version <- lift (getattr local_ip "version");
    print (Uninstalled ip version)
  else
    print (NotFoundAt ip ip_root).

End Installer.

(* ===================================================================== *)
(** ** The check / update driver *)
(* ===================================================================== *)

Section Driver.

Variable w : world.

(** [get_IP_list(ipm_iproot, remote)]. *)
Definition get_IP_list (remote : bool) : M (list json) :=
  if remote then lift (get_IP_list_of (remote_catalog w))
  else run data <- read_registry; lift (get_IP_list_of data).

(** [local_ip.get_info(technology=technology, version=version)]. *)
Definition local_info (ipm_iproot : string) (ip technology : json) : M obj :=
  run data <- read_registry;
  lift (LocalIP.get_info data technology (LocalIP.init ip ipm_iproot)).

(** The five lines "uninstall the old version, install the new one". *)
Definition reinstall (ipm_iproot : string) (ip : json) (local_ip : obj)
    (technology version : json) : M unit :=
  exec print (Updating ip);
  run root <- lift (getattr local_ip "ip_root");
  run root <- lift (as_path root);
  run name <- lift (as_path ip);
  exec uninstall_ip ipm_iproot name root (Some root);
  install_ip w ipm_iproot name true technology version root (Some root).

(** One turn of the loop over all installed IPs; returns the counter. *)
Definition check_one_of_all (ipm_iproot : string) (update : bool)
    (version technology : json) (update_counter : nat) (ip : json) : M nat :=
  run local_ip <- local_info ipm_iproot ip technology;
  run remote_ip <- resolve w ip technology version;
  match version with
  | JNull =>
      run local_version <- lift (getattr local_ip "version");
      run remote_version <- lift (getattr remote_ip "version");
      if py_eq local_version remote_version then
        exec print (UpToDate ip local_version);
        ret update_counter
      else if update then
        exec reinstall ipm_iproot ip local_ip technology remote_version;
        ret (S update_counter)
      else
        exec print (NewerVersion ip remote_version);
        ret (S update_counter)
  | _ => ret update_counter
  end.

Fixpoint check_all_loop (ipm_iproot : string) (update : bool)
    (version technology : json) (IP_list : list json) (update_counter : nat) : M nat :=
  match IP_list with
  | [] => ret update_counter
  | ip :: rest =>
      run update_counter <-
        check_one_of_all ipm_iproot update version technology update_counter ip;
      check_all_loop ipm_iproot update version technology rest update_counter
  end.

(** The branch "Checks or Updates a single IP". *)
Definition check_single (ipm_iproot : string) (ip : json) (update : bool)
    (version technology : json) : M unit :=
  run local_ip <- local_info ipm_iproot ip technology;
  run remote_ip <- resolve w ip technology version;
  run local_version <- lift (getattr local_ip "version");
  if py_eq local_version version then
    print (UpToDate ip local_version)
  else if update then
    reinstall ipm_iproot ip local_ip technology version
  else
    run remote_version <- lift (getattr remote_ip "version");
    print (NewerVersion ip remote_version).

(** [check_IP(console, ipm_iproot, ip, update, version, technology)]. *)
Definition check_IP (ipm_iproot ip : string) (update : bool)
    (version technology : json) : M unit :=
  if String.eqb ip "all" then
    run IP_list <- get_IP_list false;
    if Nat.eqb (length IP_list) 0 then
      if update then print NoInstalledToUpdate else print NoInstalledToCheck
    else
      exec print CheckingAll;
      run update_counter <- check_all_loop ipm_iproot update version technology IP_list 0%nat;
      if (0 <? update_counter)%nat then
        if update then print (NumberUpdated update_counter)
        else print (NewerVersionsFor update_counter)
      else print AllUpToDate
  else check_single ipm_iproot (JStr ip) update version technology.

End Driver.

(* ===================================================================== *)
(** ** The design document's wording, and sample data *)
(* ===================================================================== *)

(** The host of a repository location: what stands before the first "/". *)
Definition host_of (repo : string) : string := List.hd "" (split "/" repo).

Definition archive_url (repo name version : string) : string :=
  "https://" +:+ repo +:+ "/archive/refs/tags/" +:+ name +:+ "-" +:+ version +:+ ".tar.gz".

Definition download_url (repo version : string) : string :=
  "https://" +:+ repo +:+ "/releases/download/" +:+ version +:+ "/" +:+ version +:+ ".tar.gz".

(** The installer convention as the design document words it: the host
    alone decides. *)
Definition url_by_host (repo version : string) : string :=
  if String.eqb (host_of repo) "github.com"
  then archive_url repo (last_segment (split "/" repo)) version
  else download_url repo version.

(** A release of the new format. *)
Definition sample_release (date : string) : json :=
  JObj [("date", JStr date); ("type", JStr "soft"); ("width", JNum 0); ("height", JNum 0);
        ("cell_count", JNum 10); ("clock_freq_mhz", JNum 50); ("maturity", JStr "verified")].

(** A record of the new format for the package at [repo]. *)
Definition sample_record (repo : string) (releases : list (string * json)) : json :=
  JObj [("description", JStr "a widget"); ("repo", JStr repo); ("author", JStr "acme");
        ("email", JStr "ip@acme.example"); ("category", JStr "digital");
        ("technology", JStr "sky130"); ("license", JStr "Apache-2.0");
        ("tags", JArr [JStr "demo"]); ("release", JObj releases)].

(** A catalog of the new format with one package, [widget], in two releases. *)
Definition sample_catalog : json :=
  JObj [("widget", sample_record "github.com/acme/widget"
                     [("v1.0.0", sample_release "2024-01-01T00:00:00Z");
                      ("v1.2.0", sample_release "2024-06-01T00:00:00Z")])].

(** The same package listed at a repository with no owner segment. *)
Definition short_repo_catalog : json :=
  JObj [("widget", sample_record "github.com/widget"
                     [("v1.2.0", sample_release "2024-06-01T00:00:00Z")])].

(** What [RemoteIP.get_info] makes of [widget] in [sample_catalog] when no
    version is asked for. *)
Definition resolved_widget : obj :=
  Eval vm_compute in
    match RemoteIP.get_info sample_catalog (JStr "sky130") JNull (RemoteIP.init (JStr "widget")) with
    | Ok self => self
    | _ => []
    end.

(** The detection rule as the design document words it: the document is
    of the flat ("new") format when the value of its first key is an object
    with a [description] field, and of the legacy ("original") format
    otherwise. *)
Definition schema_by_description (data : json) : schema :=
  match data with
  | JObj ((_, JObj fields) :: _) =>
      if assoc "description" fields is Some _ then NewFormat else OriginalFormat
  | _ => OriginalFormat
  end.

(** [RemoteIP.get_info], were it to decide by that rule. *)
Definition get_info_by_description (data : json) (technology version : json) (self : obj)
    : result obj :=
  do self <-
    match schema_by_description data with
    | NewFormat => RemoteIP.get_info_new data technology version self
    | OriginalFormat => RemoteIP.get_info_original data technology version self
    end;
  RemoteIP.set_release_url self.

(** The registry [create_local_JSON] writes. *)
Definition create_local_JSON : json :=
  JObj [("analog", JArr []); ("comm", JArr []); ("dataconv", JArr []);
        ("digital", JArr []); ("technolgy", JArr [])].

(** A world that serves [catalog] and answers every download with an
    archive of the wrapped layout. *)
Definition world_of (catalog : json) : world :=
  {| remote_catalog := catalog;
     http_get := fun _ _ => {| status_code := 200; content := "tarball" |};
     untar := fun _ => Some [("widget-main", Dir [("a.txt", File "A")])];
     abspath := fun path => path;
     GITHUB_TOKEN := None |}.

Definition sample_world : world := world_of sample_catalog.

(** A fresh management root: an empty registry, no manifest, no package. *)
Definition fresh_state : state :=
  {| registry := create_local_JSON; deps := ∅; fs := ∅; console := [] |}.

(** The state a command leaves, and the lines it printed. *)
Definition after {A} (c : M A) (s : state) : state := snd (c s).
Definition printed {A} (c : M A) (s : state) : list event :=
  drop (length (console s)) (console (after c s)).

(** [ipm install widget --ip-root /ips] on a fresh root. *)
Definition widget_installed : state :=
  after (install_ip sample_world "/home/u/.ipm" "widget" false (JStr "sky130") JNull "/ips" None)
        fresh_state.

(** A catalog of the original format in which two categories list a
    [widget] for sky130, at different repositories and with different
    release histories. *)
Definition legacy_record (repo : string) (releases : list json) : json :=
  JObj [("name", JStr "widget"); ("repo", JStr repo); ("release", JArr releases);
        ("author", JStr "acme"); ("email", JStr "ip@acme.example"); ("type", JStr "soft");
        ("status", JStr "verified"); ("width", JStr "0"); ("height", JStr "0");
        ("technology", JStr "sky130"); ("tag", JArr [JStr "demo"]);
        ("cell_count", JStr "10"); ("clk_freq", JStr "50"); ("license", JStr "Apache-2.0")].

Definition legacy_release (version date : string) : json :=
  JObj [("version", JStr version); ("date", JStr date)].

Definition legacy_catalog : json :=
  JObj [("digital", JArr [legacy_record "github.com/acme/widget"
                            [legacy_release "v1.0.0" "2024-01-01T00:00:00Z"]])].

Definition two_widgets_catalog : json :=
  JObj [("digital", JArr [legacy_record "github.com/acme/widget"
                            [legacy_release "v1.0.0" "2024-01-01T00:00:00Z"]]);
        ("comm", JArr [legacy_record "github.com/other/widget"
                         [legacy_release "v2.0.0" "2024-06-01T00:00:00Z"]])].

(** The state [s] with one more line on the console. *)
Definition say (e : event) (s : state) : state :=
  {| registry := registry s; deps := deps s; fs := fs s; console := console s ++ [e] |}.

(** A manifest entry for [widget], and the state after the bulk installer
    has processed it on a fresh root. *)
Definition widget_dep : list (string * json) :=
  [("name", JStr "widget"); ("version", JStr "v1.2.0"); ("technology", JStr "sky130")].

Definition widget_dep_installed : state :=
  after (install_deps_loop sample_world "/home/u/.ipm" false "/ips" None [JStr "widget"]
           [JObj widget_dep])
        fresh_state.

(** The name, version and root of the records in a bucket of the registry,
    and the names in a manifest. *)
Definition registered (category : string) (s : state) : result (list (json * json * json)) :=
  do bucket <- getitem (registry s) (JStr category);
  do records <- py_iter bucket;
  mapM (fun r => do n <- getitem r (JStr "name");
                 do v <- getitem r (JStr "version");
                 do root <- getitem r (JStr "ip_root");
                 Ok (n, v, root)) records.

Definition required (path : string) (s : state) : result (list (json * json)) :=
  match deps s !! path with
  | Some doc =>
      do entries <- getitem doc (JStr "IP");
      do entries <- py_iter entries;
      mapM (fun r => do n <- getitem r (JStr "name");
                     do v <- getitem r (JStr "version");
                     Ok (n, v)) entries
  | None => Raise (FileNotFoundError path)
  end.

(** The state [s] after someone deleted [path] by hand. *)
Definition deleted_by_hand (path : string) (s : state) : state :=
  {| registry := registry s; deps := deps s; fs := delete path (fs s); console := console s |}.

(** [widget] v1.0.0 installed at /ips, its directory deleted by hand, then
    [widget] installed again (v1.2.0): two records for (widget, /ips). *)
Definition widget_installed_twice : state :=
  after (install_ip sample_world "/home/u/.ipm" "widget" false (JStr "sky130") JNull "/ips" None)
    (deleted_by_hand "/ips/widget"
       (after (install_ip sample_world "/home/u/.ipm" "widget" false (JStr "sky130")
                 (JStr "v1.0.0") "/ips" None)
              fresh_state)).

(** [widget] installed at /a, then at /b. *)
Definition widget_at_two_roots : state :=
  after (install_ip sample_world "/home/u/.ipm" "widget" false (JStr "sky130") JNull "/b" None)
    (after (install_ip sample_world "/home/u/.ipm" "widget" false (JStr "sky130") JNull "/a" None)
           fresh_state).

(** A root where [/ips/widget] holds a file and nothing is registered. *)
Definition unregistered_directory : state :=
  {| registry := create_local_JSON; deps := ∅;
     fs := {[ "/ips/widget" := Dir [("notes.txt", File "kept")] ]}; console := [] |}.

(** What a successful resolution leaves in the [RemoteIP] object: the name
    asked for, the technology asked for, a [str] repository, a version that
    the URL f-string could print, and the other attributes the registry
    record is made of. *)
Definition record_attributes : list string :=
  ["date"; "author"; "email"; "category"; "type"; "status"; "width"; "height";
   "tag"; "cell_count"; "clk_freq"; "license"; "release"].

Definition resolved (ip technology : json) (self : obj) : Prop :=
  assoc "name" self = Some ip /\
  assoc "technology" self = Some technology /\
  (exists repo, assoc "repo" self = Some (JStr repo)) /\
  (exists v vs, assoc "version" self = Some v /\ fmt v = Ok vs) /\
  Forall (fun a => is_Some (assoc a self)) record_attributes.

(** [c] may print and change the file system; it writes neither the
    registry nor a manifest. *)
Definition keeps_docs {A} (c : M A) : Prop :=
  forall s r s', c s = (r, s') -> registry s' = registry s /\ deps s' = deps s.

(** The invariant of the two loops of the original format: once a record
    has matched, every attribute but version and date is there; a version
    never comes without a date and a repository. *)
Definition partly_resolved (ip technology : json) (self : obj) : Prop :=
  (is_Some (assoc "repo" self) ->
     assoc "name" self = Some ip /\ assoc "technology" self = Some technology /\
     Forall (fun a => is_Some (assoc a self))
       ["author"; "email"; "category"; "type"; "status"; "width"; "height";
        "tag"; "cell_count"; "clk_freq"; "license"; "release"]) /\
  (is_Some (assoc "version" self) ->
     is_Some (assoc "date" self) /\ is_Some (assoc "repo" self)).

(** [after] is [before] with [record] appended to the bucket of the
    record's category. *)
Definition registry_appended (before after : json) (record : json) : Prop :=
  exists category l,
    getitem record (JStr "category") = Ok category /\
    getitem before category = Ok (JArr l) /\
    LocalIP.setitem_any before category (JArr (l ++ [record])) = Ok after.

(** [after] is [before] with [entry] appended to the list [IP] of the
    manifest at [path], which is created when it does not exist. *)
Definition manifest_appended (before after : gmap string json) (path : string) (entry : json)
    : Prop :=
  exists l doc',
    getitem (default (JObj [("IP", JArr [])]) (before !! path)) (JStr "IP") = Ok (JArr l) /\
    LocalIP.setitem_any (default (JObj [("IP", JArr [])]) (before !! path)) (JStr "IP")
      (JArr (l ++ [entry])) = Ok doc' /\
    after = <[path := doc']> before.

(** A fresh root with a manifest that asks for [widget]. *)
Definition manifest_only : state :=
  {| registry := create_local_JSON;
     deps := {[ "/ips/dependencies.json" := JObj [("IP", JArr [JObj widget_dep])] ]};
     fs := ∅; console := [] |}.

(** A record (of the registry or of a manifest) that carries a name other
    than [ip]. *)
Definition not_named (ip : string) (r : json) : Prop :=
  exists fields n, r = JObj fields /\ assoc "name" fields = Some n /\ py_eq n (JStr ip) = false.

(** A registry -- categories, each a list of records -- without a record
    named [ip]. *)
Definition registry_without (ip : string) (doc : json) : Prop :=
  exists cats, doc = JObj cats /\
    Forall (fun kv => exists l, snd kv = JArr l /\ Forall (not_named ip) l) cats.

(** A manifest without an entry named [ip]. *)
Definition manifest_without (ip : string) (doc : json) : Prop :=
  exists kvs l, doc = JObj kvs /\ assoc "IP" kvs = Some (JArr l) /\ Forall (not_named ip) l.

(** What the removal needs of the [LocalIP] object that [get_info] filled:
    the name, the bucket, the stored root, a version to print. *)
Definition local_view (ip c root : string) (self : obj) : Prop :=
  assoc "name" self = Some (JStr ip) /\
  assoc "category" self = Some (JStr c) /\
  assoc "ip_root" self = Some (JStr root) /\
  is_Some (assoc "version" self).

(** A fresh root with an empty manifest at /ips. *)
Definition empty_manifest_state : state :=
  {| registry := create_local_JSON;
     deps := {[ "/ips/dependencies.json" := JObj [("IP", JArr [])] ]};
     fs := ∅; console := [] |}.

(** [widget] installed there, for sky130 and for gf180mcu. *)
Definition widget_installed_with_manifest : state :=
  after (install_ip sample_world "/home/u/.ipm" "widget" false (JStr "sky130") JNull "/ips" None)
        empty_manifest_state.

Definition widget_installed_for_gf180mcu : state :=
  after (install_ip sample_world "/home/u/.ipm" "widget" false (JStr "gf180mcu") JNull "/ips" None)
        empty_manifest_state.


(* ===================================================================== *)
(** ** Further vocabulary for the properties of the code *)
(* ===================================================================== *)

(** [c] may print; it writes neither the registry, nor a manifest, nor the
    file system. *)
Definition keeps_disk {A} (c : M A) : Prop :=
  forall s r s', c s = (r, s') ->
    registry s' = registry s /\ deps s' = deps s /\ fs s' = fs s.


(** A registry record that carries the name [ip] and the root [root], by
    Python's [==]. *)
Definition is_target (ip root : string) (r : json) : bool :=
  match r with
  | JObj fields =>
      match assoc "name" fields, assoc "ip_root" fields with
      | Some n, Some r => py_eq n (JStr ip) && py_eq r (JStr root)
      | _, _ => false
      end
  | _ => false
  end.

(** A registry record: an object with a name and a root. *)
Definition is_record (r : json) : Prop :=
  exists fields n root, r = JObj fields /\ assoc "name" fields = Some n /\
    assoc "ip_root" fields = Some root.

(** A world that serves [sample_catalog], holds a token, and answers every
    download with 404. *)
Definition unreachable_world : world :=
  {| remote_catalog := sample_catalog;
     http_get := fun _ _ => {| status_code := 404; content := "Not Found" |};
     untar := fun _ => None;
     abspath := fun path => path;
     GITHUB_TOKEN := Some "t0ken" |}.

(** A root where [/ips/widget] is an empty directory. *)
Definition empty_destination : state :=
  {| registry := create_local_JSON; deps := ∅;
     fs := {[ "/ips/widget" := Dir [] ]}; console := [] |}.

(** A catalog of the original format whose one package carries the name of
    its category. *)
Definition category_named_catalog : json :=
  JObj [("digital",
         JArr [JObj [("name", JStr "digital"); ("repo", JStr "github.com/acme/digital");
                     ("release", JArr [legacy_release "v1.0.0" "2024-01-01T00:00:00Z"]);
                     ("author", JStr "acme"); ("email", JStr "ip@acme.example");
                     ("type", JStr "soft"); ("status", JStr "verified"); ("width", JStr "0");
                     ("height", JStr "0"); ("technology", JStr "sky130");
                     ("tag", JArr [JStr "demo"]); ("cell_count", JStr "10");
                     ("clk_freq", JStr "50"); ("license", JStr "Apache-2.0")]])].
(** The fields of a record that [LocalIP.get_info] reads. *)
Definition registry_fields : list string :=
  ["name"; "technology"; "repo"; "version"; "date"; "author"; "email"; "type"; "status";
   "width"; "height"; "tag"; "cell_count"; "clk_freq"; "license"; "ip_root"].

(** A record as [add_ip_to_json] writes it: an object with those fields. *)
Definition registry_record (r : json) : Prop :=
  exists fields, r = JObj fields /\ Forall (fun a => is_Some (assoc a fields)) registry_fields.

(** A record that the lookup of [ip] for sky130 passes over: it carries
    another name, or another technology. *)
Definition passed_over (ip : string) (r : json) : Prop :=
  exists fields n, r = JObj fields /\ assoc "name" fields = Some n /\
    (py_eq n (JStr ip) = false \/
     exists t, assoc "technology" fields = Some t /\ py_eq t (JStr "sky130") = false).

(** A registry in which [ip] is not registered at [root]: its categories
    hold lists of records; the bucket [c] -- of the category of [ip] --
    holds no record with the name [ip] and the root [root]; and the
    categories behind [c] hold no record of [ip] for sky130.  Records of
    [ip] at other roots may be there. *)
Definition not_registered_at (ip root c : string) (doc : json) : Prop :=
  exists before l behind,
    doc = JObj (before ++ (c, JArr l) :: behind) /\
    assoc c before = None /\
    Forall (fun kv => exists l, snd kv = JArr l /\ Forall registry_record l) before /\
    Forall registry_record l /\
    Forall (fun r => is_target ip root r = false) l /\
    Forall (fun kv => exists l, snd kv = JArr l /\ Forall (passed_over ip) l) behind.
(** A manifest entry for another package. *)
Definition gadget_dep : list (string * json) :=
  [("name", JStr "gadget"); ("version", JStr "v0.3.0"); ("technology", JStr "sky130")].

(** [widget] installed at /b, on a root where the manifest of /a asks for
    [gadget]. *)
Definition widget_installed_at_b : state :=
  after (install_ip sample_world "/home/u/.ipm" "widget" false (JStr "sky130") JNull "/b" None)
    {| registry := create_local_JSON;
       deps := {[ "/a/dependencies.json" := JObj [("IP", JArr [JObj gadget_dep])] ]};
       fs := ∅; console := [] |}.

(** ... and then at /a as well. *)
Definition widget_installed_at_b_and_a : state :=
  after (install_ip sample_world "/home/u/.ipm" "widget" false (JStr "sky130") JNull "/a" None)
        widget_installed_at_b.

(** A root whose manifest asks for [widget] v1.0.0 while nothing is
    installed. *)
Definition widget_required : state :=
  {| registry := create_local_JSON;
     deps := {[ "/ips/dependencies.json" :=
                  JObj [("IP", JArr [JObj [("name", JStr "widget"); ("version", JStr "v1.0.0");
                                           ("technology", JStr "sky130")]])] ]};
     fs := ∅; console := [] |}.

(** [widget] v1.0.0 registered at /ips, its directory and its manifest
    entry deleted by hand. *)
Definition widget_registered_only : state :=
  {| registry :=
       registry (after (install_ip sample_world "/home/u/.ipm" "widget" false (JStr "sky130")
                          (JStr "v1.0.0") "/ips" None) fresh_state);
     deps := {[ "/ips/dependencies.json" := JObj [("IP", JArr [])] ]};
     fs := ∅; console := [] |}.

(** A registry that files the record of [widget] at /b under the last
    category, behind the one the catalog gives it; both manifests exist. *)
Definition widget_filed_behind : state :=
  {| registry :=
       JObj [("analog", JArr []); ("comm", JArr []); ("dataconv", JArr []); ("digital", JArr []);
             ("technolgy",
              JArr [match LocalIP.installed_record sample_world resolved_widget "/b" with
                    | Ok record => record
                    | _ => JNull
                    end])];
     deps := {[ "/a/dependencies.json" := JObj [("IP", JArr [])];
                "/b/dependencies.json" := JObj [("IP", JArr [])] ]};
     fs := ∅; console := [] |}.

(** [widget] installed at /b, and at /a a directory that no install made. *)
Definition widget_at_b_and_stray_directory : state :=
  {| registry := registry widget_installed_at_b;
     deps := deps widget_installed_at_b;
     fs := <["/a/widget" := Dir [("notes.txt", File "kept")]]> (fs widget_installed_at_b);
     console := [] |}.

(** The records of [widget] in the registry of [widget_at_two_roots]. *)
Definition records_at_two_roots : list json :=
  Eval vm_compute in
    match getitem (registry widget_at_two_roots) (JStr "digital") with
    | Ok (JArr l) => l
    | _ => []
    end.

(* ===================================================================== *)
(** ** The URLs of the package check *)
(* ===================================================================== *)

(** The head of [package_check]: [gh_repo_url], [release_tag_url] and
    [tarball_url], which stays [None] for a GitHub location of fewer than
    three segments. *)
Definition gh_repo_url_of (gh_repo : string) : string :=
  if String.prefix "https" gh_repo then gh_repo else "https://" +:+ gh_repo.

Definition release_tag_url_of (gh_repo version : string) : string :=
  gh_repo_url_of gh_repo +:+ "/releases/tag/" +:+ version.

Definition tarball_url_of (gh_repo version : string) : option string :=
  let gh_repo_url := gh_repo_url_of gh_repo in
  if str_in "github.com" gh_repo_url then
    let repo_parts := split "/" gh_repo in
    if (3 <=? length repo_parts)%nat then
      let repo_name := last_segment repo_parts in
      Some (gh_repo_url +:+ "/archive/refs/tags/" +:+ repo_name +:+ "-" +:+ version +:+ ".tar.gz")
    else None
  else
    Some (gh_repo_url +:+ "/releases/download/" +:+ version +:+ "/" +:+ version +:+ ".tar.gz").
(** What [list_IPs] asks of a record of the new format before it makes a
    row of it: the category that was asked for, and a release mapping that
    is not empty. *)
Definition in_category (category : string) (ip_data : json) : bool :=
  String.eqb category "all" ||
  match getitem ip_data (JStr "category") with
  | Ok c => py_eq c (JStr category)
  | _ => false
  end.

Definition has_releases (ip_data : json) : bool :=
  match getitem ip_data (JStr "release") with
  | Ok release => truthy release
  | _ => false
  end.

(** The column "IP Name" of a row. *)
Definition row_name (r : row) : json := nth 1 r JNull.

(** A catalog of the new format with a second package that has no release
    yet. *)
Definition catalog_with_unreleased : json :=
  JObj [("widget", sample_record "github.com/acme/widget"
                     [("v1.2.0", sample_release "2024-06-01T00:00:00Z")]);
        ("gadget", sample_record "github.com/acme/gadget" [])].
(** A record with a name, and a registry made of such records: an object
    that opens with a non-empty key and maps every key to a list of named
    records. *)
Definition named_record (r : json) : Prop :=
  exists fields n, r = JObj fields /\ assoc "name" fields = Some n.

Definition registry_of_named_records (doc : json) : Prop :=
  exists k v rest, doc = JObj ((k, v) :: rest) /\ k <> "" /\
    Forall (fun kv => exists l, snd kv = JArr l /\ Forall named_record l) ((k, v) :: rest).

(** The names in a registry, bucket by bucket. *)
Definition record_name (r : json) : json :=
  match getitem r (JStr "name") with
  | Ok n => n
  | _ => JNull
  end.

Definition bucket_names (v : json) : list json :=
  match v with
  | JArr l => map record_name l
  | _ => []
  end.

Definition registry_names (cats : list (string * json)) : list json :=
  flat_map (fun kv => bucket_names (snd kv)) cats.

(* ===================================================================== *)
(** ** The cleanup of the registry (command module) *)
(* ===================================================================== *)

(** Lines that [cleanup] prints; the payload is the data interpolated in
    them. *)
Inductive cleanup_line : Type :=
| NoEntriesFound
| FoundEntries (n : nat)
| EntryInstalledAt (ip_name stored_ip_root : json)
| CleanupCanceled
| RemovedEntries (n : nat)
| FilesNotDeleted.

(** [[x for x in l if test(x)]]. *)
Fixpoint filterM {A} (test : A -> result bool) (l : list A) : result (list A) :=
  match l with
  | [] => Ok []
  | x :: rest =>
      do b <- test x;
      do kept <- filterM test rest;
      Ok (if b then x :: kept else kept)
  end.

(** [first_key and first_key in data and "description" in
    data.get(first_key, {})]: the test of [cleanup], which reads the value
    with [get]. *)
Definition cleanup_is_new_format (data : json) : result bool :=
  if truthy data then
    do keys <- py_iter data;
    match keys with
    | [] => Ok false
    | first_key :: _ =>
        if truthy first_key then
          do present <- py_in first_key data;
          if present then
            do v <- py_get data (match first_key with JStr k => k | _ => "" end) (JObj []);
            py_in (JStr "description") v
          else Ok false
        else Ok false
    end
  else Ok false.

(** [stored_ip_root and stored_ip_root != ip_root]. *)
Definition stale (ip_root : string) (stored_ip_root : json) : bool :=
  truthy stored_ip_root && negb (py_eq stored_ip_root (JStr ip_root)).

(** The first loop of [cleanup], new format: [entries_to_remove]. *)
Definition collect_new (ip_root : string) (items : list (string * json))
    : result (list (json * json)) :=
  foldM (fun entries_to_remove kv =>
           let '(ip_name, ip_data) := kv in
           do stored_ip_root <- py_get ip_data "ip_root" (JStr "");
           if stale ip_root stored_ip_root
           then Ok (entries_to_remove ++ [(JStr ip_name, stored_ip_root)])
           else Ok entries_to_remove)
        items [].

(** The first loop of [cleanup], original format. *)
Definition collect_original (ip_root : string) (items : list (string * json))
    : result (list (json * json)) :=
  foldM (fun entries_to_remove kv =>
           do values <- py_iter (snd kv);
           foldM (fun entries_to_remove value =>
                    do stored_ip_root <- py_get value "ip_root" (JStr "");
                    do ip_name <- py_get value "name" (JStr "");
                    if stale ip_root stored_ip_root
                    then Ok (entries_to_remove ++ [(ip_name, stored_ip_root)])
                    else Ok entries_to_remove)
                 values entries_to_remove)
        items [].

(** [(name, root) in entries_to_remove], on tuples. *)
Definition in_entries (name root : json) (entries_to_remove : list (json * json)) : bool :=
  existsb (fun e => py_eq (fst e) name && py_eq (snd e) root) entries_to_remove.

(** The second loop of [cleanup], new format: the document and
    [removed_entries]. *)
Definition remove_new (entries_to_remove : list (json * json)) (data : json)
    : result (json * list json) :=
  foldM (fun acc e =>
           let '(data, removed_entries) := acc in
           let ip_name := fst e in
           do present <- py_in ip_name data;
           if present then
             match data, ip_name with
             | JObj kvs, JStr k => Ok (JObj (assoc_del k kvs), removed_entries ++ [ip_name])
             | _, _ => Raise TypeError
             end
           else Ok (data, removed_entries))
        entries_to_remove (data, []).

(** The second loop of [cleanup], original format; the loop walks the
    items of the document and assigns to the key it is at. *)
Definition remove_original (entries_to_remove : list (json * json))
    (items : list (string * json)) (data : json) : result (json * list json) :=
  foldM (fun acc kv =>
           let '(data, removed_entries) := acc in
           do values <- py_iter (snd kv);
           do kept <-
             filterM (fun v =>
                        do name <- py_get v "name" (JStr "");
                        do root <- py_get v "ip_root" (JStr "");
                        Ok (negb (in_entries name root entries_to_remove)))
                     values;
           do data <- LocalIP.setitem_any data (JStr (fst kv)) (JArr kept);
           let more :=
             List.filter (fun n => negb (existsb (fun y => py_eq y n) removed_entries))
                         (map fst entries_to_remove) in
           Ok (data, removed_entries ++ more))
        items (data, []).

(** [confirm.lower() == 'y']. *)
Definition confirmed (answer : string) : bool :=
  String.eqb answer "y" || String.eqb answer "Y".

(** [cleanup(ipm_iproot, ip_root, force)] from the reading of the registry
    on, as a function of the registry document [data] and of the line
    [answer] that [input] returns when it is asked: the lines printed, and
    the document written back, if one is.  The test of the format is
    written twice in the source, on the same document. *)
Definition cleanup_registry (data : json) (ip_root : string) (force : bool) (answer : string)
    : result (list cleanup_line * option json) :=
  do new_format <- cleanup_is_new_format data;
  do items <- py_items data;
  do entries_to_remove <-
    (if new_format then collect_new ip_root items else collect_original ip_root items);
  if Nat.eqb (length entries_to_remove) 0 then Ok ([NoEntriesFound], None)
  else
    let shown :=
      FoundEntries (length entries_to_remove)
      :: map (fun e => EntryInstalledAt (fst e) (snd e)) entries_to_remove in
    if negb force && negb (confirmed answer) then Ok (shown ++ [CleanupCanceled], None)
    else
      do removed <-
        (if new_format then remove_new entries_to_remove data
         else remove_original entries_to_remove items data);
      Ok (shown ++ [RemovedEntries (length (snd removed)); FilesNotDeleted], Some (fst removed)).

(** A record whose name and root, where it has them, are [str]; the root
    it stores; whether that root is another one than [ip_root]. *)
Definition stored_name (v : json) : json :=
  match v with
  | JObj fields => default (JStr "") (assoc "name" fields)
  | _ => JStr ""
  end.

Definition stored_root (v : json) : json :=
  match v with
  | JObj fields => default (JStr "") (assoc "ip_root" fields)
  | _ => JStr ""
  end.

Definition rooted_record (v : json) : Prop :=
  (exists fields, v = JObj fields) /\
  (exists n, stored_name v = JStr n) /\ (exists r, stored_root v = JStr r).

Definition elsewhere (ip_root : string) (v : json) : bool := stale ip_root (stored_root v).

(** A registry of the original format: distinct categories, each a list of
    such records; its records, bucket by bucket; and the registry without
    the records that sit elsewhere. *)
Definition tidy_registry (cats : list (string * json)) : Prop :=
  NoDup (map fst cats) /\
  Forall (fun kv => exists l, snd kv = JArr l /\ Forall rooted_record l) cats.

Definition bucket_records (v : json) : list json :=
  match v with
  | JArr l => l
  | _ => []
  end.

Definition registry_records (cats : list (string * json)) : list json :=
  flat_map (fun kv => bucket_records (snd kv)) cats.

(** The tuple that [cleanup] notes of a record. *)
Definition entry_of (v : json) : json * json := (stored_name v, stored_root v).

Definition cleaned (ip_root : string) (cats : list (string * json)) : list (string * json) :=
  map (fun kv => (fst kv,
                  JArr (List.filter (fun v => negb (elsewhere ip_root v))
                          (bucket_records (snd kv)))))
      cats.

(** The categories of the registry of [widget_at_two_roots]. *)
Definition registry_at_two_roots : list (string * json) :=
  Eval vm_compute in
    match registry widget_at_two_roots with
    | JObj cats => cats
    | _ => []
    end.

(* ===================================================================== *)
(** * Properties *)
(* ===================================================================== *)

(** ** Generalities on association lists, attributes and the two monads *)

Lemma assoc_set_eq {A} (k : string) (v : A) (kvs : list (string * A)) :
  assoc k (assoc_set k v kvs) = Some v.
Proof.
  induction kvs as [|[k' v'] rest IH]; simpl.
  - by rewrite String.eqb_refl.
  - destruct (String.eqb k k') eqn:E; simpl; rewrite E; [done | exact IH].
Qed.

Lemma assoc_set_ne {A} (k k' : string) (v : A) (kvs : list (string * A)) :
  k <> k' -> assoc k' (assoc_set k v kvs) = assoc k' kvs.
Proof.
  intros Hne. induction kvs as [|[k0 v0] rest IH]; simpl.
  - destruct (String.eqb k' k) eqn:E; [|done].
    apply String.eqb_eq in E. congruence.
  - destruct (String.eqb k k0) eqn:E; simpl.
    + apply String.eqb_eq in E. subst k0.
      destruct (String.eqb k' k) eqn:E'; [|done].
      apply String.eqb_eq in E'. congruence.
    + by rewrite IH.
Qed.

Lemma getattr_setattr_eq (a : string) (v : json) (self : obj) :
  getattr (setattr a v self) a = Ok v.
Proof. unfold getattr, setattr. by rewrite assoc_set_eq. Qed.

Lemma getattr_setattr_ne (a b : string) (v : json) (self : obj) :
  a <> b -> getattr (setattr a v self) b = getattr self b.
Proof. intros H. unfold getattr, setattr. by rewrite assoc_set_ne. Qed.

Lemma rbind_Ok {A B} (c : result A) (k : A -> result B) (b : B) :
  rbind c k = Ok b -> exists a, c = Ok a /\ k a = Ok b.
Proof. destruct c; simpl; intros H; try discriminate. eauto. Qed.

(** Invert one [do] of a hypothesis [H : (do x <- c; k) = Ok _]. *)
Tactic Notation "inv_do" hyp(H) ident(x) ident(Hx) :=
  apply rbind_Ok in H; destruct H as (x & Hx & H).

(** ** Strings *)

Lemma prefix_app (p rest : string) : String.prefix p (p +:+ rest) = true.
Proof.
  induction p as [|c p IH]; simpl.
  - by destruct rest.
  - destruct (ascii_dec c c); [exact IH | done].
Qed.

Lemma str_in_prefix (p s : string) : String.prefix p s = true -> str_in p s = true.
Proof. intros H. destruct s; simpl; simpl in H; rewrite H; done. Qed.

Lemma split_nonempty (sep : ascii) (s : string) : split sep s <> [].
Proof.
  destruct s as [|c s]; simpl; [done|].
  destruct (Ascii.eqb c sep); [done|]. by destruct (split sep s).
Qed.

(** The first segment of a split is a prefix of the string. *)
Lemma split_head_prefix (sep : ascii) (s : string) :
  exists rest, s = List.hd "" (split sep s) +:+ rest.
Proof.
  induction s as [|c s [rest IH]]; simpl.
  - by exists "".
  - destruct (Ascii.eqb c sep).
    + by exists (String c s).
    + destruct (split sep s) as [|seg segs] eqn:E; simpl in *.
      * by exists s.
      * exists rest. by rewrite IH at 1.
Qed.

Lemma host_in_repo (repo : string) : str_in (host_of repo) repo = true.
Proof.
  destruct (split_head_prefix "/" repo) as [rest H].
  apply str_in_prefix. unfold host_of. rewrite H at 2. apply prefix_app.
Qed.

(** ** C1: the installer's download URL *)

Lemma release_url_of_archive (repo version : string) :
  (3 <= length (split "/" repo))%nat -> str_in "github.com" repo = true ->
  release_url_of repo version = archive_url repo (last_segment (split "/" repo)) version.
Proof.
  intros Hlen Hin. unfold release_url_of. rewrite Hin.
  destruct (Nat.leb_spec 3 (length (split "/" repo))); [done | lia].
Qed.

Lemma release_url_of_download (repo version : string) :
  (length (split "/" repo) < 3)%nat \/ str_in "github.com" repo = false ->
  release_url_of repo version = download_url repo version.
Proof.
  intros H. unfold release_url_of.
  destruct (Nat.leb_spec 3 (length (split "/" repo))), (str_in "github.com" repo) eqn:E;
    simpl; try done.
  destruct H; [lia | done].
Qed.

(** What [set_release_url] leaves in the object. *)
Lemma set_release_url_Ok (self self' : obj) :
  RemoteIP.set_release_url self = Ok self' ->
  exists repo v vs,
    getattr self "repo" = Ok (JStr repo) /\ getattr self "version" = Ok v /\
    fmt v = Ok vs /\
    getattr self' "repo" = Ok (JStr repo) /\ getattr self' "version" = Ok v /\
    getattr self' "release_url" = Ok (JStr (release_url_of repo vs)).
Proof.
  unfold RemoteIP.set_release_url. intros H.
  inv_do H r Hr. rewrite getattr_setattr_ne in Hr by done.
  destruct r as [| | |repo| |]; try discriminate.
  inv_do H v Hv. rewrite getattr_setattr_ne in Hv by done.
  inv_do H vs Hvs. injection H as <-.
  exists repo, v, vs. repeat split; try done.
  - by rewrite !getattr_setattr_ne.
  - by rewrite !getattr_setattr_ne.
  - by rewrite getattr_setattr_eq.
Qed.

(** C1 (amended).  Whenever [RemoteIP.get_info] resolves a package, the URL
    it stores is built from the resolved repository and version as
    follows: if the repository has at least three "/"-separated segments
    and contains the text github.com -- in particular when its host is
    github.com and an owner and a name follow -- the URL is
    https://<repo>/archive/refs/tags/<last segment>-<version>.tar.gz;
    otherwise (fewer than three segments, or no github.com in it) the URL
    is https://<repo>/releases/download/<version>/<version>.tar.gz.  The two
    literal cases of the design document come out as it states them. *)
Theorem installer_url_convention
    (data ip technology version : json) (self : obj) :
  RemoteIP.get_info data technology version (RemoteIP.init ip) = Ok self ->
  exists repo v vs,
    getattr self "repo" = Ok (JStr repo) /\
    getattr self "version" = Ok v /\ fmt v = Ok vs /\
    getattr self "release_url" = Ok (JStr (release_url_of repo vs)) /\
    ((3 <= length (split "/" repo))%nat -> str_in "github.com" repo = true ->
       release_url_of repo vs = archive_url repo (last_segment (split "/" repo)) vs) /\
    ((3 <= length (split "/" repo))%nat -> host_of repo = "github.com" ->
       release_url_of repo vs = archive_url repo (last_segment (split "/" repo)) vs) /\
    ((length (split "/" repo) < 3)%nat \/ str_in "github.com" repo = false ->
       release_url_of repo vs = download_url repo vs) /\
    release_url_of "github.com/acme/widget" "v1.2.0" =
      "https://github.com/acme/widget/archive/refs/tags/widget-v1.2.0.tar.gz" /\
    release_url_of "example.org/acme/widget" "v1.2.0" =
      "https://example.org/acme/widget/releases/download/v1.2.0/v1.2.0.tar.gz".
Proof.
  unfold RemoteIP.get_info. intros H.
  inv_do H ip' Hip. inv_do H sch Hsch. inv_do H self0 Hself0.
  apply set_release_url_Ok in H as (repo & v & vs & _ & _ & Hvs & Hrepo & Hv & Hurl).
  exists repo, v, vs. repeat split; try done.
  - apply release_url_of_archive.
  - intros Hlen Hhost. apply release_url_of_archive; [done|].
    rewrite <- Hhost. apply host_in_repo.
  - apply release_url_of_download.
Qed.

Lemma installer_url_convention_witness :
  RemoteIP.get_info sample_catalog (JStr "sky130") JNull (RemoteIP.init (JStr "widget"))
    = Ok resolved_widget /\
  getattr resolved_widget "release_url"
    = Ok (JStr "https://github.com/acme/widget/archive/refs/tags/widget-v1.2.0.tar.gz").
Proof.
  assert (H : RemoteIP.get_info sample_catalog (JStr "sky130") JNull
                (RemoteIP.init (JStr "widget")) = Ok resolved_widget) by reflexivity.
  split; [exact H|].
  destruct (installer_url_convention _ _ _ _ _ H)
    as (repo & v & vs & Hrepo & Hv & Hvs & Hurl & _).
  vm_compute in Hrepo. injection Hrepo as <-.
  vm_compute in Hv. injection Hv as <-.
  vm_compute in Hvs. injection Hvs as <-.
  rewrite Hurl. reflexivity.
Defined.

(** C1, as stated, fails: a catalog record at [github.com/widget] has host
    github.com, yet the installer asks for the releases/download URL. *)
Lemma installer_url_by_host_fails :
  host_of "github.com/widget" = "github.com" /\
  (do self <- RemoteIP.get_info short_repo_catalog (JStr "sky130") (JStr "v1.2.0")
                (RemoteIP.init (JStr "widget"));
   getattr self "release_url")
    = Ok (JStr "https://github.com/widget/releases/download/v1.2.0/v1.2.0.tar.gz") /\
  url_by_host "github.com/widget" "v1.2.0"
    = "https://github.com/widget/archive/refs/tags/widget-v1.2.0.tar.gz" /\
  release_url_of "github.com/widget" "v1.2.0" <> url_by_host "github.com/widget" "v1.2.0".
Proof. repeat split; try reflexivity. vm_compute. discriminate. Qed.

(** ** C2: which schema a reader takes the catalog for *)

Lemma assoc_head {A} (k : string) (v : A) (rest : list (string * A)) :
  assoc k ((k, v) :: rest) = Some v.
Proof. simpl. by rewrite String.eqb_refl. Qed.

(** On a document that opens with a non-empty key, the test of the four
    listing functions comes down to ["description" in data[first_key]]. *)
Lemma is_new_format_first_key (k : string) (v : json) (rest : list (string * json)) :
  k <> "" ->
  is_new_format (JObj ((k, v) :: rest)) = py_in (JStr "description") v.
Proof.
  intros Hk. unfold is_new_format.
  cbn [truthy py_iter rbind map length Nat.eqb negb fst].
  assert (String.eqb k "" = false) as -> by (by apply String.eqb_neq).
  cbn [negb]. unfold py_in at 1. rewrite assoc_head.
  rewrite bool_decide_eq_true_2 by eauto.
  unfold getitem. by rewrite assoc_head.
Qed.

Lemma py_in_records (s : string) (records : list json) :
  Forall (fun r => exists fields, r = JObj fields) records ->
  py_in (JStr s) (JArr records) = Ok false.
Proof.
  intros H. simpl. f_equal. induction H as [|r records [fields ->] _ IH]; [done|].
  simpl. exact IH.
Qed.

Lemma schema_by_first_key_description (k : string) (v : json) (rest : list (string * json)) :
  k <> "" ->
  (exists fields, v = JObj fields) \/
  (exists records, v = JArr records /\ Forall (fun r => exists fields, r = JObj fields) records) ->
  schema_by_first_key (JObj ((k, v) :: rest)) = Ok (schema_by_description (JObj ((k, v) :: rest))).
Proof.
  intros Hk Hv. unfold schema_by_first_key. rewrite is_new_format_first_key by done.
  destruct Hv as [[fields ->] | (records & -> & Hrec)].
  - simpl. destruct (assoc "description" fields) eqn:E.
    + by rewrite bool_decide_eq_true_2 by eauto.
    + rewrite bool_decide_eq_false_2; [done|]. by intros [? ?].
  - by rewrite py_in_records.
Qed.

(** C2.  Resolution does not decide the schema by the first key.  The
    listing functions take [sample_catalog] for a document of the new
    format -- the value of its first key has a [description] -- and
    enumerate its one package; [RemoteIP.get_info], which tests
    [self.ip in data], takes the same document for one of the original
    format when asked for a name it does not list, walks it as categories
    of records, and ends in a [TypeError].  And on a catalog of the
    original format whose package carries the name of its category, the
    enumeration lists the package while resolution takes the document for
    one of the new format and ends in a [TypeError]; decided by the first
    key, the resolution succeeds. *)
Theorem resolution_misdetects_the_schema :
  (schema_by_first_key sample_catalog = Ok NewFormat /\
   get_IP_list_of sample_catalog = Ok [JStr "widget"] /\
   schema_by_membership (JStr "gadget") sample_catalog = Ok OriginalFormat /\
   RemoteIP.get_info sample_catalog (JStr "sky130") JNull (RemoteIP.init (JStr "gadget"))
     = Raise TypeError /\
   get_info_by_description sample_catalog (JStr "sky130") JNull (RemoteIP.init (JStr "gadget"))
     = Raise (KeyError (JStr "gadget"))) /\
  (schema_by_first_key category_named_catalog = Ok OriginalFormat /\
   get_IP_list_of category_named_catalog = Ok [JStr "digital"] /\
   schema_by_membership (JStr "digital") category_named_catalog = Ok NewFormat /\
   RemoteIP.get_info category_named_catalog (JStr "sky130") JNull
       (RemoteIP.init (JStr "digital")) = Raise TypeError /\
   (do self <- get_info_by_description category_named_catalog (JStr "sky130") JNull
                 (RemoteIP.init (JStr "digital"));
    do version <- getattr self "version";
    do url <- getattr self "release_url";
    Ok (version, url))
     = Ok (JStr "v1.0.0",
           JStr "https://github.com/acme/digital/archive/refs/tags/digital-v1.0.0.tar.gz")).
Proof. repeat split; vm_compute; reflexivity. Qed.

(** ** C3: what the check compares *)

Lemma bind_unfold {A B} (c : M A) (k : A -> M B) (s : state) :
  bind c k s =
  match c s with
  | (Ok a, s') => k a s'
  | (Exit n, s') => (Exit n, s')
  | (Raise e, s') => (Raise e, s')
  end.
Proof. reflexivity. Qed.

(** In the loop over all installed IPs the two version strings are compared
    with each other. *)
Lemma check_one_of_all_compares (w : world) (ipm_iproot : string) (technology ip : json)
    (n : nat) (s s1 s2 : state) (local_ip remote_ip : obj) (lv rv : json) :
  local_info ipm_iproot ip technology s = (Ok local_ip, s1) ->
  resolve w ip technology JNull s1 = (Ok remote_ip, s2) ->
  getattr local_ip "version" = Ok lv ->
  getattr remote_ip "version" = Ok rv ->
  check_one_of_all w ipm_iproot false JNull technology n ip s =
    if py_eq lv rv then (Ok n, snd (print (UpToDate ip lv) s2))
    else (Ok (S n), snd (print (NewerVersion ip rv) s2)).
Proof.
  intros Hl Hr Hlv Hrv. unfold check_one_of_all.
  rewrite bind_unfold, Hl, bind_unfold, Hr.
  unfold lift. rewrite bind_unfold, Hlv, bind_unfold, Hrv.
  by destruct (py_eq lv rv).
Qed.

(** In the single-IP branch the local version is compared with the
    version that was asked for, not with the resolved one. *)
Lemma check_single_compares_request (w : world) (ipm_iproot : string)
    (technology version ip : json)
    (s s1 s2 : state) (local_ip remote_ip : obj) (lv rv : json) :
  local_info ipm_iproot ip technology s = (Ok local_ip, s1) ->
  resolve w ip technology version s1 = (Ok remote_ip, s2) ->
  getattr local_ip "version" = Ok lv ->
  getattr remote_ip "version" = Ok rv ->
  check_single w ipm_iproot ip false version technology s =
    if py_eq lv version then (Ok tt, snd (print (UpToDate ip lv) s2))
    else (Ok tt, snd (print (NewerVersion ip rv) s2)).
Proof.
  intros Hl Hr Hlv Hrv. unfold check_single.
  rewrite bind_unfold, Hl, bind_unfold, Hr.
  unfold lift. rewrite bind_unfold, Hlv.
  destruct (py_eq lv version); [done|].
  by rewrite bind_unfold, Hrv.
Qed.

(** C3, on the code: [widget] is installed at v1.2.0 and the catalog's
    newest release is v1.2.0.  The check of all installed IPs reports it up
    to date; the check of the single IP reports a newer version v1.2.0. *)
Theorem check_single_reports_update_for_equal_versions :
  (do l <- LocalIP.get_info (registry widget_installed) (JStr "sky130")
             (LocalIP.init (JStr "widget") "/home/u/.ipm");
   getattr l "version") = Ok (JStr "v1.2.0") /\
  (do r <- RemoteIP.get_info sample_catalog (JStr "sky130") JNull (RemoteIP.init (JStr "widget"));
   getattr r "version") = Ok (JStr "v1.2.0") /\
  printed (check_IP sample_world "/home/u/.ipm" "all" false JNull (JStr "sky130")) widget_installed
    = [CheckingAll;
       DebugReleaseUrl
         (JStr "https://github.com/acme/widget/archive/refs/tags/widget-v1.2.0.tar.gz");
       UpToDate (JStr "widget") (JStr "v1.2.0");
       AllUpToDate] /\
  printed (check_IP sample_world "/home/u/.ipm" "widget" false JNull (JStr "sky130")) widget_installed
    = [DebugReleaseUrl
         (JStr "https://github.com/acme/widget/archive/refs/tags/widget-v1.2.0.tar.gz");
       NewerVersion (JStr "widget") (JStr "v1.2.0")].
Proof. repeat split; vm_compute; reflexivity. Qed.

(** ** C4: a version the record does not have *)

Lemma getitem_obj (kvs : list (string * json)) (k : string) (v : json) :
  assoc k kvs = Some v -> getitem (JObj kvs) (JStr k) = Ok v.
Proof. intros H. simpl. by rewrite H. Qed.

(** On a record of the new format with a [str] repository and a release
    mapping that lacks the requested version, [RemoteIP.get_info] fills
    name, repo, author, email, category, technology, license, tag and
    release, assigns no version, and ends in the [AttributeError] of the
    f-string that reads [self.version]. *)
Lemma get_info_absent_version_new
    (kvs fields releases : list (string * json)) (ip version repo : string)
    (technology author email category license tags : json) :
  assoc ip kvs = Some (JObj fields) ->
  assoc "repo" fields = Some (JStr repo) ->
  assoc "author" fields = Some author ->
  assoc "email" fields = Some email ->
  assoc "category" fields = Some category ->
  assoc "license" fields = Some license ->
  assoc "tags" fields = Some tags ->
  assoc "release" fields = Some (JObj releases) ->
  assoc version releases = None ->
  RemoteIP.get_info (JObj kvs) technology (JStr version) (RemoteIP.init (JStr ip))
    = Raise (AttributeError "version").
Proof.
  intros Hip Hrepo Hauthor Hemail Hcat Hlic Htags Hrel Hver.
  unfold RemoteIP.get_info, schema_by_membership.
  change (getattr (RemoteIP.init (JStr ip)) "ip") with (Ok (JStr ip) : result json).
  cbn [rbind py_in]. rewrite Hip, bool_decide_eq_true_2 by eauto. cbn [rbind].
  unfold RemoteIP.get_info_new.
  change (getattr (RemoteIP.init (JStr ip)) "ip") with (Ok (JStr ip) : result json).
  cbn [rbind]. rewrite (getitem_obj _ _ _ Hip). cbn [rbind].
  rewrite (getitem_obj _ _ _ Hrepo), (getitem_obj _ _ _ Hauthor), (getitem_obj _ _ _ Hemail),
    (getitem_obj _ _ _ Hcat), (getitem_obj _ _ _ Hlic), (getitem_obj _ _ _ Htags),
    (getitem_obj _ _ _ Hrel).
  cbn [rbind py_in]. rewrite Hver.
  rewrite bool_decide_eq_false_2 by (by intros [? ?]).
  cbn [rbind]. reflexivity.
Qed.

(** C4, on the code: asking for v9.9.9 of [widget], which the record does
    not have, raises no error of its own.  In the new format, and in the
    original format with a single record, the object is left without a
    version and the URL f-string raises [AttributeError]; in the original
    format with two records of that name, the version and date found in
    the first are combined with the repository of the second, which has
    no such release, and resolution succeeds. *)
Theorem absent_version_is_not_reported :
  RemoteIP.get_info sample_catalog (JStr "sky130") (JStr "v9.9.9") (RemoteIP.init (JStr "widget"))
    = Raise (AttributeError "version") /\
  RemoteIP.get_info legacy_catalog (JStr "sky130") (JStr "v9.9.9") (RemoteIP.init (JStr "widget"))
    = Raise (AttributeError "version") /\
  (do self <- RemoteIP.get_info two_widgets_catalog (JStr "sky130") (JStr "v1.0.0")
                (RemoteIP.init (JStr "widget"));
   do repo <- getattr self "repo";
   do release <- getattr self "release";
   do version <- getattr self "version";
   do url <- getattr self "release_url";
   Ok (repo, release, version, url))
    = Ok (JStr "github.com/other/widget",
          JArr [legacy_release "v2.0.0" "2024-06-01T00:00:00Z"],
          JStr "v1.0.0",
          JStr "https://github.com/other/widget/archive/refs/tags/widget-v1.0.0.tar.gz").
Proof. repeat split; vm_compute; reflexivity. Qed.

(** ** The guard on the destination directory (C5, C9, C10) *)

(** A destination that holds something, and no [--overwrite]: the guard
    prints its line, touches nothing and takes the [return]. *)
Lemma destination_guard_refuses (ipm_iproot ip ip_root : string) (deps_file : option string)
    (s : state) (entries : list (string * node)) :
  fs s !! path_join ip_root ip = Some (Dir entries) -> entries <> [] ->
  destination_guard ipm_iproot ip false ip_root deps_file s
    = (Ok false, say (ExistsNonEmpty ip ip_root) s).
Proof.
  intros Hdir Hne. unfold destination_guard.
  rewrite bind_unfold. unfold path_exists at 1.
  rewrite bool_decide_eq_true_2 by (rewrite Hdir; eauto).
  rewrite bind_unfold. unfold listdir at 1. rewrite Hdir.
  destruct entries as [|e entries]; [done|]. reflexivity.
Qed.

(** An empty destination is deleted and the guard lets the install go on. *)
Lemma destination_guard_empty (ipm_iproot ip ip_root : string) (overwrite : bool)
    (deps_file : option string) (s : state) :
  fs s !! path_join ip_root ip = Some (Dir []) ->
  destination_guard ipm_iproot ip overwrite ip_root deps_file s
    = (Ok true, {| registry := registry s; deps := deps s;
                   fs := delete (path_join ip_root ip) (fs s); console := console s |}).
Proof.
  intros Hdir. unfold destination_guard.
  rewrite bind_unfold. unfold path_exists at 1.
  rewrite bool_decide_eq_true_2 by (rewrite Hdir; eauto).
  rewrite bind_unfold. unfold listdir at 1. rewrite Hdir.
  cbn [map length Nat.eqb negb]. rewrite bind_unfold.
  unfold rmtree, with_fs. by rewrite Hdir.
Qed.

(** No destination: the guard does nothing. *)
Lemma destination_guard_absent (ipm_iproot ip ip_root : string) (overwrite : bool)
    (deps_file : option string) (s : state) :
  fs s !! path_join ip_root ip = None ->
  destination_guard ipm_iproot ip overwrite ip_root deps_file s = (Ok true, s).
Proof.
  intros Hdir. unfold destination_guard.
  rewrite bind_unfold. unfold path_exists at 1.
  rewrite bool_decide_eq_false_2; [done|]. rewrite Hdir. by intros [? ?].
Qed.

(** The part of C5 that holds: without [--overwrite], an install into a
    destination that is not empty changes neither the registry, nor a
    manifest, nor the file system; it only prints its refusal. *)
Lemma install_ip_refuses (w : world) (ipm_iproot ip ip_root : string)
    (technology version : json) (deps_file : option string)
    (s : state) (entries : list (string * node)) :
  fs s !! path_join ip_root ip = Some (Dir entries) -> entries <> [] ->
  install_ip w ipm_iproot ip false technology version ip_root deps_file s
    = (Ok tt, say (ExistsNonEmpty ip ip_root) s).
Proof.
  intros Hdir Hne. unfold install_ip.
  rewrite bind_unfold. by erewrite destination_guard_refuses.
Qed.

(** ** C9: the bulk installer stops at the first occupied destination *)

Lemma install_deps_loop_app (w : world) (ipm_iproot : string) (overwrite : bool)
    (ip_root : string) (deps_file : option string) (IP_list pre rest : list json) (s : state) :
  install_deps_loop w ipm_iproot overwrite ip_root deps_file IP_list (pre ++ rest) s =
  match install_deps_loop w ipm_iproot overwrite ip_root deps_file IP_list pre s with
  | (Ok true, s') => install_deps_loop w ipm_iproot overwrite ip_root deps_file IP_list rest s'
  | other => other
  end.
Proof.
  revert s. induction pre as [|ip_obj pre IH]; intros s; [done|].
  cbn [app install_deps_loop]. rewrite !bind_unfold.
  destruct (install_dep w ipm_iproot overwrite ip_root deps_file IP_list ip_obj s)
    as [[[] | |] s']; first [apply IH | done].
Qed.

(** C9.  Let the loop of the bulk installer, with overwrite unset, have run
    through the entries before [ip_obj] and left the state [s'], and let
    the destination of [ip_obj] exist in [s'] and not be empty.  Then the
    loop over the whole manifest ends at [ip_obj]: it is left by [return]
    (by [exit(1)] when the name is not in the catalog's list), the entries
    behind it are not visited, and the registry, the manifests and the file
    system are those of [s'] -- what the earlier entries installed stays,
    nothing is downloaded, installed or recorded for [ip_obj] or after. *)
Theorem bulk_install_stops_at_occupied_destination
    (w : world) (ipm_iproot ip_root : string) (deps_file : option string)
    (IP_list pre rest : list json) (fields : list (string * json))
    (name : string) (version technology : json)
    (entries : list (string * node)) (s s' : state) :
  install_deps_loop w ipm_iproot false ip_root deps_file IP_list pre s = (Ok true, s') ->
  assoc "name" fields = Some (JStr name) ->
  assoc "version" fields = Some version ->
  assoc "technology" fields = Some technology ->
  fs s' !! path_join ip_root name = Some (Dir entries) -> entries <> [] ->
  install_deps_loop w ipm_iproot false ip_root deps_file IP_list (pre ++ JObj fields :: rest) s
    = if existsb (fun x => py_eq x (JStr name)) IP_list
      then (Ok false, say (ExistsNonEmpty name ip_root) s')
      else (Exit 1, say (NotValidIP (JStr name)) s').
Proof.
  intros Hpre Hname Hversion Htech Hdir Hne.
  rewrite install_deps_loop_app, Hpre.
  cbn [install_deps_loop]. rewrite bind_unfold.
  unfold install_dep, lift. rewrite !bind_unfold.
  rewrite (getitem_obj _ _ _ Hname), (getitem_obj _ _ _ Hversion), (getitem_obj _ _ _ Htech).
  destruct (existsb _ IP_list); cbn [negb]; [|done].
  rewrite !bind_unfold. cbn [as_path]. rewrite bind_unfold.
  by rewrite (destination_guard_refuses _ _ _ _ _ _ Hdir Hne).
Qed.

Lemma bulk_install_stops_witness :
  install_deps_loop sample_world "/home/u/.ipm" false "/ips" None [JStr "widget"]
    ([JObj widget_dep] ++ JObj widget_dep :: [JObj widget_dep]) fresh_state
    = (Ok false, say (ExistsNonEmpty "widget" "/ips") widget_dep_installed).
Proof.
  rewrite (bulk_install_stops_at_occupied_destination sample_world "/home/u/.ipm" "/ips" None
             [JStr "widget"] [JObj widget_dep] [JObj widget_dep] widget_dep
             "widget" (JStr "v1.2.0") (JStr "sky130") [("a.txt", File "A")]
             fresh_state widget_dep_installed).
  - reflexivity.
  - vm_compute. reflexivity.
  - reflexivity.
  - reflexivity.
  - reflexivity.
  - vm_compute. reflexivity.
  - discriminate.
Defined.

(** ** C10: uninstalling what is not there *)

(** C10.  When the directory [ip_root/ip] does not exist, [uninstall_ip]
    leaves the registry, every manifest and the file system as they are;
    it prints that the IP was not found at that directory. *)
Theorem uninstall_absent_changes_nothing
    (ipm_iproot ip ip_root : string) (deps_file : option string) (s : state) :
  fs s !! path_join ip_root ip = None ->
  uninstall_ip ipm_iproot ip ip_root deps_file s = (Ok tt, say (NotFoundAt ip ip_root) s).
Proof.
  intros Hdir. unfold uninstall_ip.
  rewrite bind_unfold. unfold path_exists at 1.
  rewrite bool_decide_eq_false_2; [done|]. rewrite Hdir. by intros [? ?].
Qed.

Lemma uninstall_absent_changes_nothing_witness :
  uninstall_ip "/home/u/.ipm" "widget" "/ips" None fresh_state
    = (Ok tt, say (NotFoundAt "widget" "/ips") fresh_state).
Proof. apply (uninstall_absent_changes_nothing "/home/u/.ipm" "widget" "/ips" None fresh_state).
  reflexivity.
Defined.

(** ** C5: an install over an occupied destination with [--overwrite] *)

(** C5, on the code.  [widget] is installed at /a and at /b.  Installing it
    again at /a with overwrite set removes the registry record and the
    manifest entry of /b -- [remove_ip_from_json] takes the root from the
    last record of that name, not from the install -- and leaves those of
    /a, so that /a is recorded twice and /b, still on disk, not at all.
    When the occupied destination is not registered at all, the install
    ends in an [AttributeError] before anything is deleted. *)
Theorem overwrite_removes_the_entries_of_another_root :
  registered "digital" widget_at_two_roots
    = Ok [(JStr "widget", JStr "v1.2.0", JStr "/a"); (JStr "widget", JStr "v1.2.0", JStr "/b")] /\
  (let s := after (install_ip sample_world "/home/u/.ipm" "widget" true (JStr "sky130") JNull
                     "/a" None) widget_at_two_roots in
   registered "digital" s
     = Ok [(JStr "widget", JStr "v1.2.0", JStr "/a"); (JStr "widget", JStr "v1.2.0", JStr "/a")] /\
   required "/a/dependencies.json" s
     = Ok [(JStr "widget", JStr "v1.2.0"); (JStr "widget", JStr "v1.2.0")] /\
   required "/b/dependencies.json" s = Ok [] /\
   fs s !! "/b/widget" = Some (Dir [("a.txt", File "A")])) /\
  install_ip sample_world "/home/u/.ipm" "widget" true (JStr "sky130") JNull "/ips" None
      unregistered_directory
    = (Raise (AttributeError "repo"), say (RemovingExisting "widget" "/ips") unregistered_directory).
Proof. repeat split; vm_compute; reflexivity. Qed.

(** ** C6: removing a record from the registry *)

(** C6, on the code.  With two records for (widget, /ips) next to each
    other in one bucket, [remove_ip_from_json] removes the first: the list
    shrinks under the iterator, which steps over the second. *)
Theorem remove_leaves_the_second_of_two_records :
  registered "digital" widget_installed_twice
    = Ok [(JStr "widget", JStr "v1.0.0", JStr "/ips");
          (JStr "widget", JStr "v1.2.0", JStr "/ips")] /\
  registered "digital"
    (after (LocalIP.remove_ip_from_json (LocalIP.init (JStr "widget") "/home/u/.ipm"))
           widget_installed_twice)
    = Ok [(JStr "widget", JStr "v1.2.0", JStr "/ips")].
Proof. split; vm_compute; reflexivity. Qed.

(** ** Commands that leave the two JSON documents alone *)

Lemma bind_Ok {A B} (c : M A) (k : A -> M B) (s s' : state) (b : B) :
  bind c k s = (Ok b, s') -> exists a s1, c s = (Ok a, s1) /\ k a s1 = (Ok b, s').
Proof.
  unfold bind. destruct (c s) as [[a | n | e] s1]; intros H; try discriminate H.
  by exists a, s1.
Qed.

(** Invert one [run] of a hypothesis [H : (run x <- c; k) s = (Ok _, _)]. *)
Tactic Notation "inv_run" hyp(H) ident(x) ident(s) ident(Hx) :=
  apply bind_Ok in H; destruct H as (x & s & Hx & H).

Lemma lift_Ok {A} (r : result A) (s s' : state) (a : A) :
  lift r s = (Ok a, s') -> r = Ok a /\ s' = s.
Proof. unfold lift. intros [= -> ->]. done. Qed.

Lemma keeps_docs_ret {A} (a : A) : keeps_docs (ret a).
Proof. by intros s r s' [= <- <-]. Qed.

Lemma keeps_docs_lift {A} (r : result A) : keeps_docs (lift r).
Proof. by intros s r' s' [= <- <-]. Qed.

Lemma keeps_docs_exit {A} (n : Z) : keeps_docs (@exit A n).
Proof. by intros s r' s' [= <- <-]. Qed.

Lemma keeps_docs_print (e : event) : keeps_docs (print e).
Proof. by intros s r' s' [= <- <-]. Qed.

Lemma keeps_docs_with_fs (f : gmap string node -> result (gmap string node)) :
  keeps_docs (with_fs f).
Proof. intros s r' s'. unfold with_fs. by destruct (f (fs s)); intros [= <- <-]. Qed.

Lemma keeps_docs_path_exists (path : string) : keeps_docs (path_exists path).
Proof. by intros s r' s' [= <- <-]. Qed.

Lemma keeps_docs_listdir (path : string) : keeps_docs (listdir path).
Proof.
  intros s r' s'. unfold listdir. by destruct (fs s !! path) as [[]|]; intros [= <- <-].
Qed.

Lemma keeps_docs_dir_entries (path : string) : keeps_docs (dir_entries path).
Proof.
  intros s r' s'. unfold dir_entries. by destruct (fs s !! path) as [[]|]; intros [= <- <-].
Qed.

Lemma keeps_docs_bind {A B} (c : M A) (k : A -> M B) :
  keeps_docs c -> (forall a, keeps_docs (k a)) -> keeps_docs (bind c k).
Proof.
  intros Hc Hk s r s'. unfold bind.
  destruct (c s) as [[a | n | e] s1] eqn:E; destruct (Hc _ _ _ E) as [Hr Hd].
  - intros H. destruct (Hk _ _ _ _ H) as [Hr' Hd']. split; congruence.
  - by intros [= <- <-].
  - by intros [= <- <-].
Qed.

Lemma keeps_docs_if {A} (b : bool) (c1 c2 : M A) :
  keeps_docs c1 -> keeps_docs c2 -> keeps_docs (if b then c1 else c2).
Proof. by destruct b. Qed.

Create HintDb docs.
#[local] Hint Resolve keeps_docs_ret keeps_docs_lift keeps_docs_exit keeps_docs_print
  keeps_docs_with_fs keeps_docs_path_exists keeps_docs_listdir keeps_docs_dir_entries
  keeps_docs_if : docs.

Ltac keeps_docs_tac :=
  repeat first
    [ apply keeps_docs_bind; [|intros ?]
    | progress eauto with docs
    | match goal with
      | |- keeps_docs (match ?x with _ => _ end) => destruct x
      end ].

Lemma keeps_docs_rmtree (path : string) : keeps_docs (rmtree path).
Proof. apply keeps_docs_with_fs. Qed.

Lemma keeps_docs_remove (path : string) : keeps_docs (remove path).
Proof. apply keeps_docs_with_fs. Qed.

Lemma keeps_docs_write_file (path c : string) : keeps_docs (write_file path c).
Proof. apply keeps_docs_with_fs. Qed.

Lemma keeps_docs_makedirs (path : string) (b : bool) : keeps_docs (makedirs path b).
Proof. apply keeps_docs_with_fs. Qed.

Lemma keeps_docs_copy_into (items : list (string * node)) (path : string) :
  keeps_docs (copy_into items path).
Proof. unfold copy_into. keeps_docs_tac. Qed.

#[local] Hint Resolve keeps_docs_rmtree keeps_docs_remove keeps_docs_write_file
  keeps_docs_makedirs keeps_docs_copy_into : docs.

Lemma keeps_docs_resolve (w : world) (ip technology version : json) :
  keeps_docs (resolve w ip technology version).
Proof. unfold resolve. keeps_docs_tac. Qed.

Lemma keeps_docs_download_and_unpack (w : world) (ip ip_root : string) (remote_ip : obj) :
  keeps_docs (download_and_unpack w ip ip_root remote_ip).
Proof. unfold download_and_unpack. keeps_docs_tac. Qed.

(** ** The destination after the unpacking *)

Lemma string_app_cons (x : ascii) (a b : string) : String x a +:+ b = String x (a +:+ b).
Proof. reflexivity. Qed.

Lemma string_app_assoc (a b c : string) : (a +:+ b) +:+ c = a +:+ (b +:+ c).
Proof.
  induction a as [|x a IH]; [done|]. by rewrite !string_app_cons, IH.
Qed.

Lemma string_app_length (a b : string) :
  String.length (a +:+ b) = (String.length a + String.length b)%nat.
Proof.
  induction a as [|x a IH]; [done|]. rewrite string_app_cons. simpl. by rewrite IH.
Qed.

Lemma prefix_empty (s : string) : String.prefix "" s = true.
Proof. by destruct s. Qed.

(** The tarball and the scratch directory are named after the package:
    [os.path.join(ip_root, f"{ip}<suffix>")] is the destination followed
    by the suffix. *)
Lemma path_join_suffix (ip_root ip suffix : string) :
  String.prefix "/" suffix = false ->
  path_join ip_root (ip +:+ suffix) = path_join ip_root ip +:+ suffix.
Proof.
  intros Hs. unfold path_join.
  assert (String.prefix "/" (ip +:+ suffix) = String.prefix "/" ip) as ->.
  { destruct ip as [|c ip]; [exact Hs|]. rewrite string_app_cons. cbn [String.prefix].
    destruct (ascii_dec _ _); [|done]. by rewrite !prefix_empty. }
  destruct (String.prefix "/" ip); [done|].
  destruct (String.eqb ip_root ""); [done|].
  destruct (str_in "/" _); by rewrite ?string_app_assoc.
Qed.

Lemma path_join_suffix_ne (ip_root ip suffix : string) :
  String.prefix "/" suffix = false -> suffix <> "" ->
  path_join ip_root (ip +:+ suffix) <> path_join ip_root ip.
Proof.
  intros Hs Hne. rewrite path_join_suffix by done. intros H.
  apply (f_equal String.length) in H. rewrite string_app_length in H.
  destruct suffix; [done|]. simpl in H. lia.
Qed.

Lemma with_fs_Ok (f : gmap string node -> result (gmap string node)) (s s' : state)
    (u : unit) :
  with_fs f s = (Ok u, s') ->
  exists m, f (fs s) = Ok m /\
    s' = {| registry := registry s; deps := deps s; fs := m; console := console s |}.
Proof.
  unfold with_fs. destruct (f (fs s)) as [m| |]; intros [= _ <-]. by exists m.
Qed.

Lemma copy_into_Ok (items : list (string * node)) (path : string) (s s' : state) (u : unit) :
  copy_into items path s = (Ok u, s') -> exists d, fs s' !! path = Some (Dir d).
Proof.
  unfold copy_into. intros H.
  inv_run H dst s1 H1. inv_run H dst' s2 H2.
  apply with_fs_Ok in H as (m & [= <-] & ->). simpl.
  exists dst'. apply lookup_insert_eq.
Qed.

Lemma rmtree_Ok (path : string) (s s' : state) (u : unit) :
  rmtree path s = (Ok u, s') -> fs s' = delete path (fs s).
Proof.
  unfold rmtree. intros H. apply with_fs_Ok in H as (m & Hm & ->). simpl.
  destruct (fs s !! path) as [[]|]; by inversion Hm.
Qed.

Lemma remove_Ok (path : string) (s s' : state) (u : unit) :
  remove path s = (Ok u, s') -> fs s' = delete path (fs s).
Proof.
  unfold remove. intros H. apply with_fs_Ok in H as (m & Hm & ->). simpl.
  destruct (fs s !! path) as [[]|]; by inversion Hm.
Qed.

Lemma print_Ok (e : event) (s s' : state) (u : unit) :
  print e s = (Ok u, s') -> fs s' = fs s.
Proof. unfold print. by intros [= _ <-]. Qed.

(** When the download and the unpacking complete, the destination is a
    directory. *)
Lemma download_and_unpack_Ok (w : world) (ip ip_root : string) (remote_ip : obj)
    (s s' : state) (done_ : unit) :
  download_and_unpack w ip ip_root remote_ip s = (Ok done_, s') ->
  exists d, fs s' !! path_join ip_root ip = Some (Dir d).
Proof.
  unfold download_and_unpack. intros H.
  inv_run H headers s1 H1. inv_run H u2 s2 H2. inv_run H release_url s3 H3.
  inv_run H u4 s4 H4. inv_run H url s5 H5.
  destruct (negb (status_code (http_get w url headers) =? 200)).
  { inv_run H v s6 H6. inv_run H u7 s7 H7. inv_run H u8 s8 H8. discriminate H. }
  inv_run H u6 s6 H6. inv_run H stale s7 H7. inv_run H u8 s8 H8. inv_run H u9 s9 H9.
  inv_run H u10 s10 H10. inv_run H members s11 H11. inv_run H u12 s12 H12.
  inv_run H extracted s13 H13. inv_run H u14 s14 H14. inv_run H u15 s15 H15.
  inv_run H u16 s16 H16. inv_run H version s17 H17.
  apply lift_Ok in H17 as [_ ->]. apply print_Ok in H.
  apply remove_Ok in H16. apply rmtree_Ok in H15.
  assert (exists d, fs s14 !! path_join ip_root ip = Some (Dir d)) as [d Hd].
  { destruct extracted as [|[top [c|children]] [|? ?]];
      inv_run H14 u s18 H18; inv_run H14 u' s19 H19; by apply copy_into_Ok in H14. }
  exists d. rewrite H, H16, H15.
  rewrite lookup_delete_ne by (apply path_join_suffix_ne; done).
  rewrite lookup_delete_ne by (apply path_join_suffix_ne; done).
  exact Hd.
Qed.

(** ** What a resolved object holds *)

Lemma is_Some_assoc_set {A} (k k' : string) (v : A) (kvs : list (string * A)) :
  is_Some (assoc k' (assoc_set k v kvs)) <-> k' = k \/ is_Some (assoc k' kvs).
Proof.
  destruct (decide (k = k')) as [<-|Hne].
  - rewrite assoc_set_eq. split; eauto.
  - rewrite assoc_set_ne by done. split; [eauto|]. intros [?|?]; [congruence|done].
Qed.

(** Read an attribute through a pile of assignments. *)
Ltac attr :=
  unfold setattr in *;
  repeat first [ rewrite assoc_set_eq | rewrite assoc_set_ne by discriminate ];
  try done; eauto.

Lemma set_release_info_attrs (release_info : json) (self self' : obj) :
  RemoteIP.set_release_info release_info self = Ok self' ->
  (forall a, a ∉ ["date"; "type"; "width"; "height"; "cell_count"; "clk_freq"; "status"] ->
     assoc a self' = assoc a self) /\
  Forall (fun a => is_Some (assoc a self'))
    ["date"; "type"; "width"; "height"; "cell_count"; "clk_freq"; "status"].
Proof.
  unfold RemoteIP.set_release_info. intros H.
  inv_do H date Hdate. inv_do H type Htype. inv_do H width Hwidth.
  inv_do H height Hheight. inv_do H cell_count Hcc. inv_do H clk_freq Hclk.
  inv_do H status Hstatus. injection H as <-. split.
  - intros a Ha. unfold setattr.
    rewrite !assoc_set_ne; [done|..]; intros E; subst a; apply Ha; set_solver.
  - repeat constructor; attr.
Qed.

Lemma get_info_new_resolved (data technology version ip : json) (self : obj) :
  RemoteIP.get_info_new data technology version (RemoteIP.init ip) = Ok self ->
  is_Some (assoc "version" self) ->
  assoc "name" self = Some ip /\ assoc "technology" self = Some technology /\
  Forall (fun a => is_Some (assoc a self)) record_attributes.
Proof.
  unfold RemoteIP.get_info_new. intros H Hv.
  change (getattr (RemoteIP.init ip) "ip") with (Ok ip : result json) in H.
  cbn [rbind] in H.
  inv_do H value Hvalue. inv_do H repo Hrepo. inv_do H author Hauthor.
  inv_do H email Hemail. inv_do H category Hcat. inv_do H license Hlic.
  inv_do H tags Htags. inv_do H release Hrel.
  assert (forall release_info pre,
    (forall a, a ∉ ["version"] -> assoc a pre =
        assoc a (setattr "release" release (setattr "tag" tags (setattr "license" license
          (setattr "technology" technology (setattr "category" category
          (setattr "email" email (setattr "author" author (setattr "repo" repo
          (setattr "name" ip (RemoteIP.init ip))))))))))) ->
    RemoteIP.set_release_info release_info pre = Ok self ->
    assoc "name" self = Some ip /\ assoc "technology" self = Some technology /\
    Forall (fun a => is_Some (assoc a self)) record_attributes) as Hfin.
  { intros release_info pre Hpre Hset.
    apply set_release_info_attrs in Hset as [Hsame Hnew].
    assert (forall a, a ∉ ["date"; "type"; "width"; "height"; "cell_count"; "clk_freq";
                           "status"; "version"] ->
              assoc a self = assoc a (setattr "release" release (setattr "tag" tags
                (setattr "license" license (setattr "technology" technology
                (setattr "category" category (setattr "email" email
                (setattr "author" author (setattr "repo" repo
                (setattr "name" ip (RemoteIP.init ip))))))))))) as Hold.
    { intros a Ha. rewrite Hsame by set_solver. apply Hpre. set_solver. }
    rewrite !Forall_cons in Hnew. destruct Hnew as (? & ? & ? & ? & ? & ? & ? & _).
    split; [rewrite Hold by set_solver; attr|].
    split; [rewrite Hold by set_solver; attr|].
    unfold record_attributes. repeat constructor; try done;
      rewrite Hold by set_solver; attr. }
  destruct version.
  1: { inv_do H versions Hversions. destruct (last versions) as [latest|].
       - inv_do H release_info Hri. eapply Hfin; [|exact H].
         intros a Ha. unfold setattr. rewrite assoc_set_ne; [done|]. intros E. subst a. set_solver.
       - injection H as <-. revert Hv. attr. by intros [? ?]. }
  all: inv_do H present Hpresent; destruct present;
    [ inv_do H release_info Hri; eapply Hfin; [|exact H];
      intros a Ha; unfold setattr; rewrite assoc_set_ne; [done|]; intros E; subst a; set_solver
    | injection H as <-; revert Hv; attr; by intros [? ?] ].
Qed.

Lemma foldM_invariant {A S} (P : S -> Prop) (body : S -> A -> result S) (l : list A)
    (acc acc' : S) :
  (forall s x s', P s -> body s x = Ok s' -> P s') ->
  P acc -> foldM body l acc = Ok acc' -> P acc'.
Proof.
  intros Hbody. revert acc. induction l as [|x l IH]; intros acc Hacc H; simpl in H.
  - by injection H as <-.
  - inv_do H acc1 H1. eauto.
Qed.

Lemma pick_version_dated (version : json) (self self' : obj) (v : json) :
  (is_Some (assoc "version" self) -> is_Some (assoc "date" self)) ->
  RemoteIP.pick_version version self v = Ok self' ->
  (is_Some (assoc "version" self') -> is_Some (assoc "date" self')) /\
  (forall a, a ∉ ["version"; "date"] -> assoc a self' = assoc a self).
Proof.
  unfold RemoteIP.pick_version. intros Hself H.
  inv_do H vv Hvv. destruct (py_eq vv version).
  - inv_do H date Hdate. injection H as <-. split; [intros _; attr|].
    intros a Ha. unfold setattr. rewrite !assoc_set_ne; [done|..]; intros E; subst a; set_solver.
  - by injection H as <-.
Qed.

Lemma pick_versions_dated (version : json) (releases : list json) (self self' : obj) :
  (is_Some (assoc "version" self) -> is_Some (assoc "date" self)) ->
  foldM (RemoteIP.pick_version version) releases self = Ok self' ->
  (is_Some (assoc "version" self') -> is_Some (assoc "date" self')) /\
  (forall a, a ∉ ["version"; "date"] -> assoc a self' = assoc a self).
Proof.
  revert self. induction releases as [|v releases IH]; intros self Hself H; simpl in H.
  - by injection H as <-.
  - inv_do H self1 H1. apply pick_version_dated in H1 as [Hd Hs]; [|done].
    destruct (IH _ Hd H) as [Hd' Hs']. split; [done|].
    intros a Ha. by rewrite Hs', Hs.
Qed.

Lemma visit_record_partly_resolved (technology version ip : json) (key : string)
    (self self' : obj) (value : json) :
  assoc "ip" self = Some ip ->
  partly_resolved ip technology self ->
  RemoteIP.visit_record technology version key self value = Ok self' ->
  assoc "ip" self' = Some ip /\ partly_resolved ip technology self'.
Proof.
  intros Hip [Hbase Hver]. unfold RemoteIP.visit_record, getattr. rewrite Hip.
  cbn [rbind]. intros H.
  inv_do H name Hname. inv_do H matches Hmatches.
  destruct matches; [|by injection H as <-].
  inv_do H repo Hrepo. inv_do H release Hrelease. inv_do H self1 Hself1.
  assert ((is_Some (assoc "version" self1) -> is_Some (assoc "date" self1)) /\
          (forall a, a ∉ ["version"; "date"] ->
             assoc a self1 = assoc a (setattr "release" release
               (setattr "repo" repo (setattr "name" ip self))))) as [Hd Hs].
  { destruct version.
    1: { inv_do Hself1 newest Hn. inv_do Hself1 vv Hvv. inv_do Hself1 newest' Hn'.
         inv_do Hself1 date Hdate. injection Hself1 as <-. split; [intros _; attr|].
         intros a Ha. unfold setattr.
         rewrite (assoc_set_ne "date") by (intros E; subst a; set_solver).
         by rewrite (assoc_set_ne "version") by (intros E; subst a; set_solver). }
    all: inv_do Hself1 releases Hr;
      apply pick_versions_dated in Hself1; [done|];
      unfold setattr; rewrite !assoc_set_ne by done; intros Hv; by apply Hver. }
  inv_do H author Hauthor. inv_do H email Hemail. inv_do H type Htype.
  inv_do H status Hstatus. inv_do H width Hwidth. inv_do H height Hheight.
  inv_do H tag Htag. inv_do H cell_count Hcc. inv_do H clk_freq Hclk.
  inv_do H license Hlic. injection H as <-.
  assert (forall a, a ∈ ["ip"; "name"; "repo"; "release"; "version"; "date"] ->
    assoc a (setattr "license" license (setattr "clk_freq" clk_freq
      (setattr "cell_count" cell_count (setattr "tag" tag (setattr "technology" technology
      (setattr "height" height (setattr "width" width (setattr "status" status
      (setattr "type" type (setattr "category" (JStr key) (setattr "email" email
      (setattr "author" author self1)))))))))))) = assoc a self1) as Hkeep.
  { intros a Ha. unfold setattr.
    rewrite !assoc_set_ne; [done|..]; intros E; subst a; set_solver. }
  split; [|split].
  - rewrite Hkeep, Hs by set_solver. attr.
  - intros _. split; [|split].
    + rewrite Hkeep, Hs by set_solver. attr.
    + attr.
    + rewrite !Forall_cons. repeat apply conj; try apply Forall_nil; try solve [attr].
      rewrite Hkeep, Hs by set_solver. attr.
  - rewrite (Hkeep "version"), (Hkeep "date"), (Hkeep "repo") by set_solver.
    intros Hv. split; [by apply Hd|]. rewrite Hs by set_solver. attr.
Qed.

Lemma get_info_original_resolved (data technology version ip : json) (self : obj) :
  RemoteIP.get_info_original data technology version (RemoteIP.init ip) = Ok self ->
  partly_resolved ip technology self.
Proof.
  unfold RemoteIP.get_info_original. intros H. inv_do H items Hitems.
  eapply (foldM_invariant
            (fun s => assoc "ip" s = Some ip /\ partly_resolved ip technology s)) in H.
  - by destruct H.
  - intros s [key values] s' [Hip Hinv]. unfold RemoteIP.visit_category. intros Hv.
    inv_do Hv records Hrecords.
    eapply (foldM_invariant
              (fun s => assoc "ip" s = Some ip /\ partly_resolved ip technology s)) in Hv;
      [done| |done].
    intros s0 x s0' [Hip0 Hinv0]. by apply visit_record_partly_resolved.
  - split; [done|]. split; simpl; by intros [? ?].
Qed.

(** Whatever [RemoteIP.get_info] returns is fully resolved. *)
Lemma get_info_resolved (data technology version ip : json) (self : obj) :
  RemoteIP.get_info data technology version (RemoteIP.init ip) = Ok self ->
  resolved ip technology self.
Proof.
  unfold RemoteIP.get_info.
  change (getattr (RemoteIP.init ip) "ip") with (Ok ip : result json). cbn [rbind].
  intros H. inv_do H sch Hsch. inv_do H self0 Hself0.
  destruct (set_release_url_Ok _ _ H) as (repo & v & vs & Hrepo0 & Hv0 & Hvs & _).
  assert (forall a, a ∉ ["possible_urls"; "release_url"] -> assoc a self = assoc a self0)
    as Hkeep.
  { unfold RemoteIP.set_release_url in H. rewrite getattr_setattr_ne, Hrepo0 in H by done.
    cbn [rbind] in H. rewrite getattr_setattr_ne, Hv0 in H by done.
    cbn [rbind] in H. rewrite Hvs in H. injection H as <-.
    intros a Ha. unfold setattr.
    rewrite !assoc_set_ne; [done|..]; intros E; subst a; set_solver. }
  unfold getattr in Hrepo0, Hv0.
  destruct (assoc "repo" self0) as [r|] eqn:Er; [injection Hrepo0 as ->|done].
  destruct (assoc "version" self0) as [v'|] eqn:Ev; [injection Hv0 as ->|done].
  assert (assoc "name" self0 = Some ip /\ assoc "technology" self0 = Some technology /\
          Forall (fun a => is_Some (assoc a self0)) record_attributes) as (Hn & Ht & Hall).
  { destruct sch.
    - apply get_info_new_resolved in Hself0; [done|]. rewrite Ev. eauto.
    - apply get_info_original_resolved in Hself0 as [Hbase Hver].
      destruct Hbase as (Hn & Ht & Hall); [rewrite Er; eauto|].
      destruct Hver as [Hdate _]; [rewrite Ev; eauto|].
      split; [done|]. split; [done|]. unfold record_attributes.
      rewrite !Forall_cons in Hall. rewrite !Forall_cons. naive_solver. }
  unfold resolved. rewrite !Hkeep by set_solver.
  split; [done|]. split; [done|]. split; [eauto|]. split; [eauto|].
  unfold record_attributes in *. rewrite !Forall_cons in Hall. rewrite !Forall_cons.
  rewrite !Hkeep by set_solver. naive_solver.
Qed.

(** ** What an install writes into the two documents *)

Lemma py_append_Ok (bucket x bucket' : json) :
  py_append bucket x = Ok bucket' -> exists l, bucket = JArr l /\ bucket' = JArr (l ++ [x]).
Proof. destruct bucket; simpl; intros [= <-]. eauto. Qed.

Lemma add_ip_to_json_Ok (w : world) (remote_ip : obj) (ip_root : string) (self self' : obj)
    (s s' : state) :
  LocalIP.add_ip_to_json w remote_ip ip_root self s = (Ok self', s') ->
  exists record,
    LocalIP.installed_record w remote_ip ip_root = Ok record /\
    registry_appended (registry s) (registry s') record /\
    deps s' = deps s /\ fs s' = fs s /\ console s' = console s /\
    self' = setattr "ip_root" (JStr (abspath w ip_root)) self.
Proof.
  unfold LocalIP.add_ip_to_json. intros H.
  inv_run H json_decoded s1 H1. injection H1 as <- <-.
  inv_run H record s2 H2. apply lift_Ok in H2 as [Hrecord ->].
  inv_run H category s3 H3. apply lift_Ok in H3 as [Hcategory ->].
  inv_run H bucket s4 H4. apply lift_Ok in H4 as [Hbucket ->].
  inv_run H bucket' s5 H5. apply lift_Ok in H5 as [Happend ->].
  inv_run H doc s6 H6. apply lift_Ok in H6 as [Hdoc ->].
  inv_run H u s7 H7. injection H7 as _ <-. injection H as <- <-.
  apply py_append_Ok in Happend as (l & -> & ->).
  exists record. repeat split; try done. by exists category, l.
Qed.

Lemma create_deps_Ok (remote_ip : obj) (deps_file : option string) (self : obj)
    (s s' : state) (u : unit) :
  LocalIP.create_deps remote_ip deps_file self s = (Ok u, s') ->
  exists path entry,
    LocalIP.deps_path self deps_file = Ok path /\
    LocalIP.dependency_entry remote_ip = Ok entry /\
    manifest_appended (deps s) (deps s') path entry /\
    registry s' = registry s /\ fs s' = fs s /\ console s' = console s.
Proof.
  unfold LocalIP.create_deps. intros H.
  inv_run H path s1 H1. apply lift_Ok in H1 as [Hpath ->].
  inv_run H present s2 H2. injection H2 as <- <-.
  inv_run H doc s3 H3.
  assert (doc = default (JObj [("IP", JArr [])]) (deps s !! path) /\ s3 = s) as [-> ->].
  { unfold read_deps, ret in H3. destruct (deps s !! path) as [d|] eqn:E.
    - rewrite bool_decide_eq_true_2 in H3 by eauto. rewrite E in H3. by injection H3 as <- <-.
    - rewrite bool_decide_eq_false_2 in H3 by (by intros [? ?]). by injection H3 as <- <-. }
  inv_run H entry s4 H4. apply lift_Ok in H4 as [Hentry ->].
  inv_run H bucket s5 H5. apply lift_Ok in H5 as [Hbucket ->].
  inv_run H bucket' s6 H6. apply lift_Ok in H6 as [Happend ->].
  inv_run H doc' s7 H7. apply lift_Ok in H7 as [Hdoc ->].
  injection H as _ <-.
  apply py_append_Ok in Happend as (l & -> & ->).
  exists path, entry. repeat split; try done. by exists l, doc'.
Qed.

Lemma deps_path_of_root (self : obj) (root : string) (deps_file : option string) :
  assoc "ip_root" self = Some (JStr root) ->
  LocalIP.deps_path self deps_file = Ok (manifest_file root deps_file).
Proof.
  intros H. unfold LocalIP.deps_path, manifest_file, getattr. rewrite H.
  destruct deps_file as [d|]; [|done]. by destruct (negb (String.eqb d "")).
Qed.

Lemma resolve_Ok (w : world) (ip technology version : json) (remote_ip : obj) (s s' : state) :
  resolve w ip technology version s = (Ok remote_ip, s') ->
  RemoteIP.get_info (remote_catalog w) technology version (RemoteIP.init ip) = Ok remote_ip /\
  registry s' = registry s /\ deps s' = deps s /\ fs s' = fs s.
Proof.
  unfold resolve. intros H.
  inv_run H r s1 H1. apply lift_Ok in H1 as [Hr ->].
  inv_run H url s2 H2. apply lift_Ok in H2 as [_ ->].
  inv_run H u s3 H3. injection H3 as _ <-. by injection H as <- <-.
Qed.

(** The writes of a single-package install that got past the guard. *)
Lemma install_ip_effect (w : world) (ipm_iproot ip : string) (overwrite : bool)
    (technology version : json) (ip_root : string) (deps_file : option string)
    (s sg s' : state) (u : unit) :
  destination_guard ipm_iproot ip overwrite ip_root deps_file s = (Ok true, sg) ->
  install_ip w ipm_iproot ip overwrite technology version ip_root deps_file s = (Ok u, s') ->
  exists remote_ip record entry,
    RemoteIP.get_info (remote_catalog w) technology version (RemoteIP.init (JStr ip))
      = Ok remote_ip /\
    LocalIP.installed_record w remote_ip ip_root = Ok record /\
    LocalIP.dependency_entry remote_ip = Ok entry /\
    registry_appended (registry sg) (registry s') record /\
    manifest_appended (deps sg) (deps s') (manifest_file (abspath w ip_root) deps_file) entry /\
    exists d, fs s' !! path_join ip_root ip = Some (Dir d).
Proof.
  intros Hguard. unfold install_ip. rewrite bind_unfold, Hguard. intros H.
  inv_run H remote_ip s1 H1. apply resolve_Ok in H1 as (Hremote & Hr1 & Hd1 & _).
  inv_run H u2 s2 H2. injection H2 as _ <-.
  inv_run H u3 s3 H3.
  destruct (keeps_docs_download_and_unpack _ _ _ _ _ _ _ H3) as [Hr3 Hd3].
  apply download_and_unpack_Ok in H3 as [d Hdir].
  inv_run H local_ip s4 H4.
  apply add_ip_to_json_Ok in H4 as (record & Hrecord & Happ & Hd4 & Hf4 & _ & ->).
  apply create_deps_Ok in H as (path & entry & Hpath & Hentry & Hman & Hr5 & Hf5 & _).
  rewrite (deps_path_of_root _ (abspath w ip_root)) in Hpath by attr.
  injection Hpath as <-.
  exists remote_ip, record, entry. repeat split; try done.
  - rewrite Hr5. by rewrite Hr3, Hr1 in Happ.
  - by rewrite Hd4, Hd3, Hd1 in Hman.
  - exists d. by rewrite Hf5, Hf4.
Qed.

(** The writes of one turn of the bulk installer that got past the guard:
    a registry record, and nothing in any manifest. *)
Lemma install_dep_effect (w : world) (ipm_iproot ip : string) (overwrite : bool)
    (ip_root : string) (deps_file : option string) (IP_list : list json) (ip_obj : json)
    (s sg s' : state) :
  getitem ip_obj (JStr "name") = Ok (JStr ip) ->
  destination_guard ipm_iproot ip overwrite ip_root deps_file s = (Ok true, sg) ->
  install_dep w ipm_iproot overwrite ip_root deps_file IP_list ip_obj s = (Ok true, s') ->
  exists technology version remote_ip record,
    getitem ip_obj (JStr "technology") = Ok technology /\
    getitem ip_obj (JStr "version") = Ok version /\
    RemoteIP.get_info (remote_catalog w) technology version (RemoteIP.init (JStr ip))
      = Ok remote_ip /\
    LocalIP.installed_record w remote_ip ip_root = Ok record /\
    registry_appended (registry sg) (registry s') record /\
    deps s' = deps sg.
Proof.
  intros Hname Hguard. unfold install_dep. intros H.
  inv_run H name s1 H1. apply lift_Ok in H1 as [Hname' ->].
  rewrite Hname in Hname'. injection Hname' as <-.
  inv_run H version s2 H2. apply lift_Ok in H2 as [Hversion ->].
  inv_run H technology s3 H3. apply lift_Ok in H3 as [Htech ->].
  destruct (negb (existsb _ IP_list)).
  { inv_run H u0 s0 H0. discriminate H. }
  inv_run H ip' s4 H4. apply lift_Ok in H4 as [[= <-] ->].
  rewrite bind_unfold, Hguard in H.
  inv_run H remote_ip s5 H5. apply resolve_Ok in H5 as (Hremote & Hr5 & Hd5 & _).
  inv_run H u6 s6 H6.
  destruct (keeps_docs_download_and_unpack _ _ _ _ _ _ _ H6) as [Hr6 Hd6].
  inv_run H local_ip s7 H7.
  apply add_ip_to_json_Ok in H7 as (record & Hrecord & Happ & Hd7 & _).
  injection H as <-.
  exists technology, version, remote_ip, record. repeat split; try done.
  - by rewrite Hr6, Hr5 in Happ.
  - by rewrite Hd7, Hd6, Hd5.
Qed.

Lemma keeps_docs_guard_no_overwrite (ipm_iproot ip ip_root : string)
    (deps_file : option string) :
  keeps_docs (destination_guard ipm_iproot ip false ip_root deps_file).
Proof. unfold destination_guard. cbn [negb]. keeps_docs_tac. Qed.

(** ** C8: which install appends a dependency entry *)

(** C8 (amended).  Let an install get past the guard on its destination,
    which leaves the state [sg].  A successful single-package install
    appends the installed record to the bucket of its category in the
    registry and appends the entry {name, version, technology} to the
    dependency manifest, which it creates when there is none.  A
    successful turn of the bulk dependency installer appends the
    installed record to the registry and writes no manifest.  With
    overwrite unset the guard itself writes neither document. *)
Theorem install_writes
    (w : world) (ipm_iproot ip : string) (overwrite : bool) (ip_root : string)
    (deps_file : option string) (s sg : state) :
  destination_guard ipm_iproot ip overwrite ip_root deps_file s = (Ok true, sg) ->
  (forall technology version s',
     install_ip w ipm_iproot ip overwrite technology version ip_root deps_file s = (Ok tt, s') ->
     exists remote_ip record entry,
       RemoteIP.get_info (remote_catalog w) technology version (RemoteIP.init (JStr ip))
         = Ok remote_ip /\
       LocalIP.installed_record w remote_ip ip_root = Ok record /\
       LocalIP.dependency_entry remote_ip = Ok entry /\
       registry_appended (registry sg) (registry s') record /\
       manifest_appended (deps sg) (deps s')
         (manifest_file (abspath w ip_root) deps_file) entry) /\
  (forall IP_list ip_obj s',
     getitem ip_obj (JStr "name") = Ok (JStr ip) ->
     install_dep w ipm_iproot overwrite ip_root deps_file IP_list ip_obj s = (Ok true, s') ->
     exists technology version remote_ip record,
       getitem ip_obj (JStr "technology") = Ok technology /\
       getitem ip_obj (JStr "version") = Ok version /\
       RemoteIP.get_info (remote_catalog w) technology version (RemoteIP.init (JStr ip))
         = Ok remote_ip /\
       LocalIP.installed_record w remote_ip ip_root = Ok record /\
       registry_appended (registry sg) (registry s') record /\
       deps s' = deps sg) /\
  (overwrite = false -> registry sg = registry s /\ deps sg = deps s).
Proof.
  intros Hguard. split; [|split].
  - intros technology version s' H.
    destruct (install_ip_effect _ _ _ _ _ _ _ _ _ _ _ _ Hguard H)
      as (remote_ip & record & entry & ? & ? & ? & ? & ? & _).
    by exists remote_ip, record, entry.
  - intros IP_list ip_obj s' Hname H.
    by apply (install_dep_effect _ _ _ _ _ _ _ _ _ _ _ Hname Hguard H).
  - intros ->. by apply (keeps_docs_guard_no_overwrite _ _ _ _ _ _ _ Hguard).
Qed.

Lemma install_writes_witness :
  (exists entry,
     manifest_appended (deps fresh_state) (deps widget_installed) "/ips/dependencies.json" entry) /\
  deps widget_dep_installed = deps fresh_state.
Proof.
  destruct (install_writes sample_world "/home/u/.ipm" "widget" false "/ips" None
              fresh_state fresh_state eq_refl) as (Hsingle & Hbulk & _).
  split.
  - destruct (Hsingle (JStr "sky130") JNull widget_installed)
      as (remote_ip & record & entry & _ & _ & _ & _ & Hman).
    + vm_compute. reflexivity.
    + by exists entry.
  - destruct (Hbulk [JStr "widget"] (JObj widget_dep) widget_dep_installed)
      as (technology & version & remote_ip & record & _ & _ & _ & _ & _ & Hdeps).
    + reflexivity.
    + vm_compute. reflexivity.
    + exact Hdeps.
Defined.

(** C8, as stated, fails: the plain single-package install of [widget] on
    a fresh root creates the manifest and puts [widget] into it, and the
    bulk installer, run on a manifest that asks for [widget], registers
    the package and leaves the manifest as it was. *)
Lemma single_install_appends_the_dependency :
  deps fresh_state !! "/ips/dependencies.json" = None /\
  required "/ips/dependencies.json" widget_installed = Ok [(JStr "widget", JStr "v1.2.0")] /\
  (let s := after (install_deps_ip sample_world "/home/u/.ipm" false "/ips" None [JStr "widget"])
              manifest_only in
   registered "digital" s = Ok [(JStr "widget", JStr "v1.2.0", JStr "/ips")] /\
   deps s = deps manifest_only /\
   required "/ips/dependencies.json" s = Ok [(JStr "widget", JStr "v1.2.0")]).
Proof. repeat split; vm_compute; reflexivity. Qed.

(** ** Reading a registry back *)

Lemma foldM_app {A S} (body : S -> A -> result S) (l1 l2 : list A) (acc : S) :
  foldM body (l1 ++ l2) acc = do acc' <- foldM body l1 acc; foldM body l2 acc'.
Proof.
  revert acc. induction l1 as [|x l1 IH]; intros acc; [done|].
  simpl. destruct (body acc x); simpl; [apply IH|done..].
Qed.

Lemma assoc_del_ne {A} (k k' : string) (kvs : list (string * A)) :
  k <> k' -> assoc k' (assoc_del k kvs) = assoc k' kvs.
Proof.
  intros Hne. induction kvs as [|[k0 v0] rest IH]; [done|]. simpl.
  destruct (String.eqb k k0) eqn:E; simpl.
  - apply String.eqb_eq in E. subst k0.
    destruct (String.eqb k' k) eqn:E'; [|done]. apply String.eqb_eq in E'. congruence.
  - by rewrite IH.
Qed.

(** A record under another name is passed over. *)
Lemma local_visit_other (technology : json) (key ip : string) (self : obj) (value : json) :
  assoc "ip" self = Some (JStr ip) -> not_named ip value ->
  LocalIP.visit_record technology key self value = Ok self.
Proof.
  intros Hip (fields & n & -> & Hn & Hne).
  unfold LocalIP.visit_record, getattr. rewrite Hip. cbn [rbind].
  rewrite (getitem_obj _ _ _ Hn). cbn [rbind]. by rewrite Hne.
Qed.

Lemma local_visit_others (technology : json) (key ip : string) (self : obj) (l : list json) :
  assoc "ip" self = Some (JStr ip) -> Forall (not_named ip) l ->
  foldM (LocalIP.visit_record technology key) l self = Ok self.
Proof.
  intros Hip Hl. induction Hl as [|x l Hx _ IH]; [done|].
  simpl. by rewrite (local_visit_other _ _ ip).
Qed.

Lemma local_visit_categories (technology : json) (ip : string) (self : obj)
    (cats : list (string * json)) :
  assoc "ip" self = Some (JStr ip) ->
  Forall (fun kv => exists l, snd kv = JArr l /\ Forall (not_named ip) l) cats ->
  foldM (LocalIP.visit_category technology) cats self = Ok self.
Proof.
  intros Hip Hcats. induction Hcats as [|[k v] cats (l & Hv & Hl) _ IH]; [done|].
  simpl in Hv. subst v. simpl. unfold LocalIP.visit_category at 1. simpl.
  by rewrite (local_visit_others _ _ ip).
Qed.

(** A registry without [ip] has nothing for [get_info] to find. *)
Lemma local_get_info_without (technology : json) (ip ipm_iproot : string) (doc : json) :
  registry_without ip doc ->
  LocalIP.get_info doc technology (LocalIP.init (JStr ip) ipm_iproot)
    = Raise (AttributeError "repo").
Proof.
  intros (cats & -> & Hcats). unfold LocalIP.get_info. simpl py_items. cbn [rbind].
  by rewrite (local_visit_categories _ ip).
Qed.

(** ** Removing the record that was appended last *)

Lemma py_eq_obj_field (a b : list (string * json)) (k : string) (v : json) :
  py_eq (JObj a) (JObj b) = true -> assoc k a = Some v ->
  exists v', assoc k b = Some v' /\ py_eq v v' = true.
Proof.
  cbn [py_eq]. intros H. apply andb_true_iff in H as [_ H].
  induction a as [|[k0 v0] a IH]; [done|].
  apply andb_true_iff in H as [Hhead Htail]. simpl.
  destruct (String.eqb k k0) eqn:E.
  - apply String.eqb_eq in E. subst k0. intros [= <-].
    destruct (assoc k b) as [v'|]; [|done]. eauto.
  - by apply IH.
Qed.

(** A record under another name is not [==] to a record named [ip]. *)
Lemma not_named_ne (ip : string) (y : json) (fields : list (string * json)) :
  not_named ip y -> assoc "name" fields = Some (JStr ip) -> py_eq y (JObj fields) = false.
Proof.
  intros (yf & n & -> & Hn & Hne) Hname.
  destruct (py_eq (JObj yf) (JObj fields)) eqn:E; [|done].
  destruct (py_eq_obj_field _ _ _ _ E Hn) as (v' & Hv' & Heq).
  rewrite Hname in Hv'. injection Hv' as <-. congruence.
Qed.

Lemma list_remove_last (x : json) (l : list json) :
  Forall (fun y => py_eq y x = false) l -> list_remove (length l) x (l ++ [x]) = l.
Proof.
  intros H. induction H as [|y l Hy _ IH]; [done|]. simpl. by rewrite Hy, IH.
Qed.

(** The loop, run on a list whose last item alone satisfies the test,
    removes that item. *)
Lemma remove_loop_last (cond : json -> result bool) (l : list json) (x : json) :
  Forall (fun y => cond y = Ok false) l -> cond x = Ok true ->
  Forall (fun y => py_eq y x = false) l ->
  forall fuel i, (i <= length l)%nat -> (length l < fuel + i)%nat ->
    LocalIP.remove_loop cond fuel i (l ++ [x]) = Ok l.
Proof.
  intros Hl Hx Hne fuel. induction fuel as [|fuel IH]; intros i Hi Hfuel; [lia|].
  cbn [LocalIP.remove_loop].
  destruct (decide (i = length l)) as [->|Hlt].
  - rewrite list_lookup_middle by done. rewrite Hx. cbn [rbind].
    rewrite list_remove_last by done.
    destruct fuel; [done|]. cbn [LocalIP.remove_loop].
    by rewrite lookup_ge_None_2 by lia.
  - assert (i < length l)%nat as Hi' by lia.
    destruct (lookup_lt_is_Some_2 l i Hi') as [y Hy].
    rewrite lookup_app_l, Hy by done.
    rewrite Forall_lookup in Hl. rewrite (Hl _ _ Hy). cbn [rbind].
    apply IH; lia.
Qed.

Lemma remove_where_last (cond : json -> result bool) (l : list json) (x : json) :
  Forall (fun y => cond y = Ok false) l -> cond x = Ok true ->
  Forall (fun y => py_eq y x = false) l ->
  LocalIP.remove_where cond (JArr (l ++ [x])) = Ok (JArr l).
Proof.
  intros Hl Hx Hne. unfold LocalIP.remove_where.
  rewrite (remove_loop_last cond l x) by (rewrite ?length_app; simpl; done || lia). done.
Qed.

(** The iterator makes at most as many visits as the list is long: more
    fuel changes nothing. *)
Lemma remove_loop_fuel (cond : json -> result bool) (fuel extra i : nat) (l : list json) :
  (length l <= fuel + i)%nat ->
  LocalIP.remove_loop cond (fuel + extra) i l = LocalIP.remove_loop cond fuel i l.
Proof.
  revert i l. induction fuel as [|fuel IH]; intros i l Hlen.
  - simpl. destruct extra; [done|]. cbn [LocalIP.remove_loop].
    by rewrite lookup_ge_None_2 by (simpl in Hlen; lia).
  - cbn [Nat.add LocalIP.remove_loop]. destruct (l !! i) as [ips|] eqn:E; [|done].
    destruct (cond ips) as [[]| |]; cbn [rbind]; try done; apply IH; [|lia].
    assert (length (list_remove i ips l) <= length l)%nat; [|lia].
    clear. revert i. induction l as [|y l IHl]; intros [|i]; simpl; try lia.
    destruct (py_eq y ips); simpl; [lia|]. specialize (IHl i). lia.
Qed.

(** ** Uninstalling what was just installed *)

Lemma installed_record_fields (w : world) (remote_ip : obj) (ip_root : string) (record : json) :
  LocalIP.installed_record w remote_ip ip_root = Ok record ->
  exists fields, record = JObj fields /\
    assoc "ip_root" fields = Some (JStr (abspath w ip_root)) /\
    forall a, a <> "ip_root" -> a <> "release" -> assoc a fields = assoc a remote_ip.
Proof.
  unfold LocalIP.installed_record, LocalIP.get_info_from_atr. intros H.
  destruct (assoc "release" remote_ip); [|done]. injection H as <-.
  eexists. split; [done|]. split; [apply assoc_set_eq|].
  intros a H1 H2. rewrite assoc_set_ne by done. by rewrite assoc_del_ne.
Qed.

Lemma same_name_other (ip : string) (self : obj) (y : json) :
  assoc "name" self = Some (JStr ip) -> not_named ip y ->
  LocalIP.same_name self y = Ok false.
Proof.
  intros Hname (fields & n & -> & Hn & Hne). unfold LocalIP.same_name.
  rewrite (getitem_obj _ _ _ Hn), (getitem_obj _ _ _ Hname). cbn [rbind]. by rewrite Hne.
Qed.

Lemma assoc_set_restore {A} (k : string) (v v' : A) (kvs : list (string * A)) :
  assoc k kvs = Some v -> assoc_set k v (assoc_set k v' kvs) = kvs.
Proof.
  induction kvs as [|[k0 v0] rest IH]; [done|]. simpl.
  destruct (String.eqb k k0) eqn:E; simpl; rewrite E.
  - apply String.eqb_eq in E. subst k0. by intros [= ->].
  - intros H. by rewrite IH.
Qed.

Lemma py_eq_str (v : json) (s : string) : py_eq v (JStr s) = true -> v = JStr s.
Proof. destruct v; simpl; try discriminate. intros H. apply String.eqb_eq in H. by subst. Qed.

Lemma assoc_app_None {A} (k : string) (a b : list (string * A)) :
  assoc k a = None -> assoc k (a ++ b) = assoc k b.
Proof.
  induction a as [|[k0 v0] a IH]; [done|]. simpl. destruct (String.eqb k k0); [done|]. exact IH.
Qed.

Lemma assoc_set_middle {A} (k : string) (v x : A) (a b : list (string * A)) :
  assoc k a = None -> assoc_set k v (a ++ (k, x) :: b) = a ++ (k, v) :: b.
Proof.
  induction a as [|[k0 v0] a IH]; simpl.
  - intros _. by rewrite String.eqb_refl.
  - destruct (String.eqb k k0); [done|]. intros H. by rewrite IH.
Qed.

(** A record with every field is read without an exception, whatever it
    says. *)
Lemma local_visit_total (technology : json) (key ip : string) (self : obj) (value : json) :
  assoc "ip" self = Some (JStr ip) -> registry_record value ->
  exists self', LocalIP.visit_record technology key self value = Ok self' /\
    assoc "ip" self' = Some (JStr ip).
Proof.
  intros Hip (fields & -> & Hall). unfold registry_fields in Hall.
  rewrite !Forall_cons in Hall.
  destruct Hall as ([name Hname] & [tech Htech] & [repo Hrepo] & [version Hversion] &
    [date Hdate] & [author Hauthor] & [email Hemail] & [type Htype] & [status Hstatus] &
    [width Hwidth] & [height Hheight] & [tag Htag] & [cc Hcc] & [clk Hclk] &
    [license Hlicense] & [root Hroot] & _).
  unfold LocalIP.visit_record, getattr. rewrite Hip. cbn [rbind].
  rewrite (getitem_obj _ _ _ Hname). cbn [rbind].
  destruct (py_eq name (JStr ip)); cbn [rbind]; [|eauto].
  rewrite (getitem_obj _ _ _ Htech). cbn [rbind].
  destruct (py_eq tech technology); cbn [rbind]; [|eauto].
  rewrite (getitem_obj _ _ _ Hrepo), (getitem_obj _ _ _ Hversion), (getitem_obj _ _ _ Hdate),
    (getitem_obj _ _ _ Hauthor), (getitem_obj _ _ _ Hemail), (getitem_obj _ _ _ Htype),
    (getitem_obj _ _ _ Hstatus), (getitem_obj _ _ _ Hwidth), (getitem_obj _ _ _ Hheight),
    (getitem_obj _ _ _ Htag), (getitem_obj _ _ _ Hcc), (getitem_obj _ _ _ Hclk),
    (getitem_obj _ _ _ Hlicense), (getitem_obj _ _ _ Hroot).
  cbn [rbind]. eexists. split; [reflexivity|]. attr.
Qed.

Lemma local_visit_total_list (technology : json) (key ip : string) (self : obj) (l : list json) :
  assoc "ip" self = Some (JStr ip) -> Forall registry_record l ->
  exists self', foldM (LocalIP.visit_record technology key) l self = Ok self' /\
    assoc "ip" self' = Some (JStr ip).
Proof.
  intros Hip Hl. revert self Hip. induction Hl as [|x l Hx _ IH]; intros self Hip; [by eexists|].
  destruct (local_visit_total technology key ip self x Hip Hx) as (self1 & H1 & Hip1).
  destruct (IH self1 Hip1) as (self' & H' & Hip'). exists self'. simpl. by rewrite H1.
Qed.

Lemma local_visit_total_categories (technology : json) (ip : string) (self : obj)
    (cats : list (string * json)) :
  assoc "ip" self = Some (JStr ip) ->
  Forall (fun kv => exists l, snd kv = JArr l /\ Forall registry_record l) cats ->
  exists self', foldM (LocalIP.visit_category technology) cats self = Ok self' /\
    assoc "ip" self' = Some (JStr ip).
Proof.
  intros Hip Hcats. revert self Hip.
  induction Hcats as [|[k v] cats (l & Hv & Hl) _ IH]; intros self Hip; [by eexists|].
  simpl in Hv. subst v.
  destruct (local_visit_total_list technology k ip self l Hip Hl) as (self1 & H1 & Hip1).
  destruct (IH self1 Hip1) as (self' & H' & Hip'). exists self'.
  simpl. unfold LocalIP.visit_category at 1. simpl. by rewrite H1.
Qed.

(** A record of another name or of another technology is passed over. *)
Lemma local_visit_passed_over (key ip : string) (self : obj) (value : json) :
  assoc "ip" self = Some (JStr ip) -> passed_over ip value ->
  LocalIP.visit_record (JStr "sky130") key self value = Ok self.
Proof.
  intros Hip (fields & n & -> & Hn & Hno).
  unfold LocalIP.visit_record, getattr. rewrite Hip. cbn [rbind].
  rewrite (getitem_obj _ _ _ Hn). cbn [rbind].
  destruct Hno as [Hne | (t & Ht & Hne)].
  - by rewrite Hne.
  - destruct (py_eq n (JStr ip)); [|done].
    rewrite (getitem_obj _ _ _ Ht). cbn [rbind]. by rewrite Hne.
Qed.

Lemma local_visit_passed_over_categories (ip : string) (self : obj)
    (cats : list (string * json)) :
  assoc "ip" self = Some (JStr ip) ->
  Forall (fun kv => exists l, snd kv = JArr l /\ Forall (passed_over ip) l) cats ->
  foldM (LocalIP.visit_category (JStr "sky130")) cats self = Ok self.
Proof.
  intros Hip Hcats. induction Hcats as [|[k v] cats (l & Hv & Hl) _ IH]; [done|].
  simpl in Hv. subst v. simpl. unfold LocalIP.visit_category at 1. simpl.
  assert (foldM (LocalIP.visit_record (JStr "sky130") k) l self = Ok self) as ->; [|done].
  clear IH. induction Hl as [|x l Hx _ IHl]; [done|].
  simpl. by rewrite (local_visit_passed_over _ ip).
Qed.

(** [LocalIP.get_info] reads the installed record back, whatever it has
    read before. *)
Lemma local_visit_installed_over (w : world) (remote_ip : obj) (ip ip_root c : string)
    (self0 : obj) (fields : list (string * json)) :
  assoc "ip" self0 = Some (JStr ip) ->
  resolved (JStr ip) (JStr "sky130") remote_ip ->
  LocalIP.installed_record w remote_ip ip_root = Ok (JObj fields) ->
  exists self,
    LocalIP.visit_record (JStr "sky130") c self0 (JObj fields) = Ok self /\
    assoc "ip" self = Some (JStr ip) /\
    local_view ip c (abspath w ip_root) self /\
    (exists repo, assoc "repo" self = Some (JStr repo)) /\
    (exists v vs, assoc "version" self = Some v /\ fmt v = Ok vs).
Proof.
  intros Hip0 (Hname & Htech & [repo Hrepo] & (v & vs & Hv & Hvs) & Hall) Hrecord.
  apply installed_record_fields in Hrecord as (fields' & [= <-] & Hroot & Hsame).
  unfold record_attributes in Hall. rewrite !Forall_cons in Hall.
  destruct Hall as ([date Hdate] & [author Hauthor] & [email Hemail] & _ & [type Htype] &
    [status Hstatus] & [width Hwidth] & [height Hheight] & [tag Htag] & [cc Hcc] &
    [clk Hclk] & [license Hlicense] & _).
  unfold LocalIP.visit_record. unfold getattr at 1. rewrite Hip0.
  cbn [rbind].
  rewrite (getitem_obj fields "name" (JStr ip)) by (by rewrite Hsame).
  cbn [rbind py_eq]. rewrite String.eqb_refl.
  rewrite (getitem_obj fields "technology" (JStr "sky130")) by (by rewrite Hsame).
  cbn [rbind py_eq]. rewrite String.eqb_refl.
  rewrite (getitem_obj fields "repo" (JStr repo)) by (by rewrite Hsame).
  rewrite (getitem_obj fields "version" v) by (by rewrite Hsame).
  rewrite (getitem_obj fields "date" date) by (by rewrite Hsame).
  rewrite (getitem_obj fields "author" author) by (by rewrite Hsame).
  rewrite (getitem_obj fields "email" email) by (by rewrite Hsame).
  rewrite (getitem_obj fields "type" type) by (by rewrite Hsame).
  rewrite (getitem_obj fields "status" status) by (by rewrite Hsame).
  rewrite (getitem_obj fields "width" width) by (by rewrite Hsame).
  rewrite (getitem_obj fields "height" height) by (by rewrite Hsame).
  rewrite (getitem_obj fields "tag" tag) by (by rewrite Hsame).
  rewrite (getitem_obj fields "cell_count" cc) by (by rewrite Hsame).
  rewrite (getitem_obj fields "clk_freq" clk) by (by rewrite Hsame).
  rewrite (getitem_obj fields "license" license) by (by rewrite Hsame).
  rewrite (getitem_obj fields "ip_root" _ Hroot).
  cbn [rbind]. eexists. split; [reflexivity|].
  unfold local_view. repeat apply conj.
  - attr.
  - attr.
  - attr.
  - attr.
  - attr.
  - exists repo. attr.
  - exists v, vs. split; [attr | done].
Qed.

(** The test of the removal loop of the registry, on a record. *)
Lemma same_name_and_root_is_target (ip root : string) (self : obj) (y : json) :
  assoc "name" self = Some (JStr ip) -> assoc "ip_root" self = Some (JStr root) ->
  registry_record y ->
  LocalIP.same_name_and_root self y = Ok (is_target ip root y).
Proof.
  intros Hname Hroot (fields & -> & Hall). unfold registry_fields in Hall.
  rewrite !Forall_cons in Hall.
  destruct Hall as ([n Hn] & _ & _ & _ & _ & _ & _ & _ & _ & _ & _ & _ & _ & _ & _ & [r Hr] & _).
  unfold LocalIP.same_name_and_root, is_target, getattr.
  rewrite (getitem_obj _ _ _ Hn), (getitem_obj _ _ _ Hname), Hn, Hr, Hroot. cbn [rbind].
  destruct (py_eq n (JStr ip)); [|done].
  rewrite (getitem_obj _ _ _ Hr). done.
Qed.

(** A record that is [==] to one with the name [ip] and the root [root]
    has that name and that root. *)
Lemma py_eq_target (ip root : string) (y : json) (fields : list (string * json)) :
  registry_record y ->
  assoc "name" fields = Some (JStr ip) -> assoc "ip_root" fields = Some (JStr root) ->
  py_eq y (JObj fields) = true -> is_target ip root y = true.
Proof.
  intros (yf & -> & Hall) Hname Hroot Heq. unfold registry_fields in Hall.
  rewrite !Forall_cons in Hall.
  destruct Hall as ([n Hn] & _ & _ & _ & _ & _ & _ & _ & _ & _ & _ & _ & _ & _ & _ & [r Hr] & _).
  destruct (py_eq_obj_field _ _ _ _ Heq Hn) as (n' & Hn' & Hnn).
  destruct (py_eq_obj_field _ _ _ _ Heq Hr) as (r' & Hr' & Hrr).
  rewrite Hname in Hn'. injection Hn' as <-. rewrite Hroot in Hr'. injection Hr' as <-.
  unfold is_target. by rewrite Hn, Hr, Hnn, Hrr.
Qed.

(** [remove_ip_from_json] takes the appended record out again, and only
    that one, when no other record of the bucket carries its name and its
    root and the lookup finds it last. *)
Lemma remove_ip_from_json_appended_among (w : world) (remote_ip : obj)
    (ip ip_root c ipm_iproot : string) (before behind : list (string * json)) (l : list json)
    (record : json) (s : state) :
  resolved (JStr ip) (JStr "sky130") remote_ip ->
  LocalIP.installed_record w remote_ip ip_root = Ok record ->
  assoc c before = None ->
  Forall (fun kv => exists l, snd kv = JArr l /\ Forall registry_record l) before ->
  Forall registry_record l ->
  Forall (fun r => is_target ip (abspath w ip_root) r = false) l ->
  Forall (fun kv => exists l, snd kv = JArr l /\ Forall (passed_over ip) l) behind ->
  registry s = JObj (before ++ (c, JArr (l ++ [record])) :: behind) ->
  exists self,
    LocalIP.remove_ip_from_json (LocalIP.init (JStr ip) ipm_iproot) s
      = (Ok self, {| registry := JObj (before ++ (c, JArr l) :: behind); deps := deps s;
                     fs := fs s; console := console s |}) /\
    local_view ip c (abspath w ip_root) self.
Proof.
  intros Hres Hrecord Hc Hbefore Hl Hnot Hbehind Hreg.
  destruct (installed_record_fields _ _ _ _ Hrecord) as (fields & -> & Hroot & Hsame).
  destruct (local_visit_total_categories (JStr "sky130") ip
              (LocalIP.init (JStr ip) ipm_iproot) before eq_refl Hbefore)
    as (self_b & Hvisit_b & Hip_b).
  destruct (local_visit_total_list (JStr "sky130") c ip self_b l Hip_b Hl)
    as (self_l & Hvisit_l & Hip_l).
  destruct (local_visit_installed_over w remote_ip ip ip_root c self_l fields Hip_l Hres Hrecord)
    as (self0 & Hvisit & Hip & (Hn & Hcat & Hr & Hver) & [repo Hrepo] & (v & vs & Hv & Hvs)).
  set (self := setattr "release_url" (JStr (local_release_url repo vs)) self0).
  assert (Hname : assoc "name" self = Some (JStr ip)) by (subst self; attr).
  assert (Hroot' : assoc "ip_root" self = Some (JStr (abspath w ip_root))) by (subst self; attr).
  assert (Hfname : assoc "name" fields = Some (JStr ip)).
  { rewrite Hsame by done. apply Hres. }
  exists self. split.
  - unfold LocalIP.remove_ip_from_json.
    rewrite !bind_unfold. unfold read_registry. rewrite Hreg.
    unfold lift. rewrite !bind_unfold.
    unfold LocalIP.get_info. rewrite ?Hreg. cbn [py_items rbind].
    rewrite foldM_app, Hvisit_b. cbn [rbind foldM].
    unfold LocalIP.visit_category at 1. cbn [snd fst py_iter rbind].
    rewrite foldM_app, Hvisit_l. cbn [rbind foldM]. rewrite Hvisit. cbn [rbind].
    rewrite (local_visit_passed_over_categories ip) by done.
    cbn [rbind]. unfold getattr. rewrite Hrepo. cbn [rbind fmt]. rewrite Hv. cbn [rbind].
    rewrite Hvs. cbn [rbind]. unfold LocalIP.get_info_from_atr. fold self.
    rewrite (getitem_obj _ "category" (JStr c)) by (subst self; attr).
    rewrite !bind_unfold. cbn [getitem].
    rewrite assoc_app_None, assoc_head by done.
    rewrite !bind_unfold.
    rewrite remove_where_last.
    + rewrite !bind_unfold. cbn [LocalIP.setitem_any]. rewrite !bind_unfold.
      by rewrite assoc_set_middle.
    + rewrite Forall_forall in Hl, Hnot. apply Forall_forall. intros y Hy.
      rewrite (same_name_and_root_is_target ip (abspath w ip_root)) by auto.
      by rewrite Hnot.
    + unfold LocalIP.same_name_and_root.
      rewrite (getitem_obj fields "name" (JStr ip)) by done.
      rewrite (getitem_obj _ "name" (JStr ip)) by done.
      cbn [rbind py_eq]. rewrite String.eqb_refl.
      rewrite (getitem_obj fields "ip_root" _ Hroot). cbn [rbind]. unfold getattr.
      rewrite Hroot'. cbn [rbind py_eq]. by rewrite String.eqb_refl.
    + rewrite Forall_forall in Hl, Hnot. apply Forall_forall. intros y Hy.
      destruct (py_eq y (JObj fields)) eqn:E; [|done].
      rewrite <- (Hnot y Hy). symmetry.
      by apply (py_eq_target ip (abspath w ip_root) y fields); auto.
  - subst self. unfold local_view. repeat apply conj; attr.
Qed.

(** [remove_from_deps] takes the appended entry out again. *)
Lemma remove_from_deps_appended (ip c root : string) (self : obj) (deps_file : option string)
    (dkvs efields : list (string * json)) (dl : list json) (s : state) :
  local_view ip c root self ->
  deps s !! manifest_file root deps_file
    = Some (JObj (assoc_set "IP" (JArr (dl ++ [JObj efields])) dkvs)) ->
  assoc "IP" dkvs = Some (JArr dl) ->
  Forall (not_named ip) dl ->
  assoc "name" efields = Some (JStr ip) ->
  LocalIP.remove_from_deps deps_file self s
    = (Ok tt, {| registry := registry s;
                 deps := <[manifest_file root deps_file := JObj dkvs]> (deps s);
                 fs := fs s; console := console s |}).
Proof.
  intros (Hn & _ & Hr & _) Hdoc HIP Hdl Hename.
  unfold LocalIP.remove_from_deps, lift. rewrite bind_unfold.
  rewrite (deps_path_of_root _ root) by done.
  rewrite bind_unfold. unfold read_deps at 1. rewrite Hdoc.
  rewrite bind_unfold. cbn [getitem]. rewrite assoc_set_eq.
  rewrite bind_unfold, remove_where_last.
  - rewrite bind_unfold. cbn [LocalIP.setitem_any]. unfold write_deps.
    by rewrite assoc_set_restore.
  - eapply Forall_impl; [exact Hdl|]. intros y Hy. by apply (same_name_other ip).
  - unfold LocalIP.same_name, LocalIP.get_info_from_atr.
    rewrite (getitem_obj _ _ _ Hename), (getitem_obj _ _ _ Hn).
    cbn [rbind py_eq]. by rewrite String.eqb_refl.
  - eapply Forall_impl; [exact Hdl|]. intros y Hy. by apply (not_named_ne ip).
Qed.

Lemma dependency_entry_named (ip technology : json) (remote_ip : obj) (entry : json) :
  resolved ip technology remote_ip ->
  LocalIP.dependency_entry remote_ip = Ok entry ->
  exists efields, entry = JObj efields /\ assoc "name" efields = Some ip.
Proof.
  intros (Hname & _) H. unfold LocalIP.dependency_entry, LocalIP.get_info_from_atr in H.
  rewrite (getitem_obj _ _ _ Hname) in H. cbn [rbind] in H.
  inv_do H version Hversion. inv_do H tech Htech. injection H as <-.
  eexists. split; [done|]. reflexivity.
Qed.

(** ** C7: install, then uninstall *)

(** C7 (amended).  Let the catalog resolve [ip] for sky130 to a package of
    the category [c]; let the registry hold lists of records, none of them
    a record of [ip] at this root in the bucket [c], and none a record of
    [ip] for sky130 in a category behind [c] -- [ip] may be registered at
    other roots; let the dependency manifest of the install exist and hold
    no entry named [ip]; let the destination be absent or empty; and let
    the install of [ip] for sky130 complete.  Then the uninstall of [ip]
    that follows, with the same root and the same manifest location,
    completes, leaves the registry and every manifest exactly as they were
    before the install, and the directory [ip_root/ip] is gone. *)
Theorem install_uninstall_round_trip
    (w : world) (ipm_iproot ip : string) (overwrite : bool) (version : json)
    (ip_root : string) (deps_file : option string) (remote_ip : obj) (c : string)
    (doc : json) (s s1 : state) :
  RemoteIP.get_info (remote_catalog w) (JStr "sky130") version (RemoteIP.init (JStr ip))
    = Ok remote_ip ->
  assoc "category" remote_ip = Some (JStr c) ->
  not_registered_at ip (abspath w ip_root) c (registry s) ->
  deps s !! manifest_file (abspath w ip_root) deps_file = Some doc ->
  manifest_without ip doc ->
  fs s !! path_join ip_root ip = None \/ fs s !! path_join ip_root ip = Some (Dir []) ->
  install_ip w ipm_iproot ip overwrite (JStr "sky130") version ip_root deps_file s
    = (Ok tt, s1) ->
  exists s2,
    uninstall_ip ipm_iproot ip ip_root deps_file s1 = (Ok tt, s2) /\
    registry s2 = registry s /\
    deps s2 = deps s /\
    fs s2 !! path_join ip_root ip = None.
Proof.
  intros Hcatalog Hcategory Hreg Hdoc Hman Hfree Hinstall.
  assert (exists sg, destination_guard ipm_iproot ip overwrite ip_root deps_file s = (Ok true, sg) /\
            registry sg = registry s /\ deps sg = deps s) as (sg & Hguard & Hrg & Hdg).
  { destruct Hfree as [Hfree|Hfree].
    - eexists. split; [by apply destination_guard_absent|done].
    - eexists. split; [by apply destination_guard_empty|done]. }
  destruct (install_ip_effect _ _ _ _ _ _ _ _ _ _ _ _ Hguard Hinstall)
    as (remote_ip' & record & entry & Hremote & Hrecord & Hentry & Hrapp & Hmapp & d & Hdir).
  rewrite Hcatalog in Hremote. injection Hremote as <-.
  apply get_info_resolved in Hcatalog as Hres.
  destruct Hreg as (before & l & behind & Hcats_eq & Hc & Hbefore & Hl & Hnot & Hbehind).
  destruct Hman as (dkvs & dl & -> & HIP & Hdl).
  (* the registry after the install *)
  destruct Hrapp as (category & l' & Hcat & Hbucket & Hset).
  destruct (installed_record_fields _ _ _ _ Hrecord) as (fields & Hfields & _ & Hsame).
  rewrite Hfields in Hcat.
  rewrite (getitem_obj fields "category" (JStr c)) in Hcat by (by rewrite Hsame).
  injection Hcat as <-.
  rewrite Hrg, Hcats_eq in Hbucket, Hset.
  cbn [getitem] in Hbucket. rewrite assoc_app_None, assoc_head in Hbucket by done.
  injection Hbucket as <-.
  cbn [LocalIP.setitem_any] in Hset. rewrite assoc_set_middle in Hset by done.
  injection Hset as Hreg1.
  (* the manifest after the install *)
  destruct Hmapp as (l' & doc' & Hbucket' & Hset' & Hdeps1).
  rewrite Hdg, Hdoc in Hbucket', Hset'. cbn [default from_option id] in Hbucket', Hset'.
  rewrite (getitem_obj _ _ _ HIP) in Hbucket'. injection Hbucket' as <-.
  cbn [LocalIP.setitem_any] in Hset'. injection Hset' as <-.
  destruct (dependency_entry_named _ _ _ _ Hres Hentry) as (efields & -> & Hename).
  (* the uninstall *)
  destruct (remove_ip_from_json_appended_among w remote_ip ip ip_root c ipm_iproot
              before behind l record s1 Hres Hrecord Hc Hbefore Hl Hnot Hbehind (eq_sym Hreg1))
    as (self & Hrm & Hview).
  assert (exists v, assoc "version" self = Some v) as [v Hv] by apply Hview.
  eexists. split.
  - unfold uninstall_ip. rewrite bind_unfold. unfold path_exists at 1.
    rewrite bool_decide_eq_true_2 by (rewrite Hdir; eauto).
    rewrite bind_unfold, Hrm, bind_unfold.
    erewrite (remove_from_deps_appended ip c (abspath w ip_root) self deps_file dkvs efields dl);
      [|done| |done..].
    2: { cbn [deps]. rewrite Hdeps1, Hdg. apply lookup_insert_eq. }
    rewrite bind_unfold. unfold rmtree, with_fs. cbn [fs]. rewrite Hdir.
    rewrite bind_unfold. unfold lift, getattr.
    rewrite Hv. reflexivity.
  - cbn [registry deps fs]. repeat split.
    + done.
    + rewrite Hdeps1, Hdg, insert_insert_eq. by apply insert_id.
    + apply lookup_delete_eq.
Qed.

Lemma install_uninstall_round_trip_witness :
  exists s2,
    uninstall_ip "/home/u/.ipm" "widget" "/a" None widget_installed_at_b_and_a = (Ok tt, s2) /\
    registry s2 = registry widget_installed_at_b /\
    deps s2 = deps widget_installed_at_b /\
    fs s2 !! path_join "/a" "widget" = None.
Proof.
  apply (install_uninstall_round_trip sample_world "/home/u/.ipm" "widget" false JNull "/a"
           None resolved_widget "digital" (JObj [("IP", JArr [JObj gadget_dep])])
           widget_installed_at_b widget_installed_at_b_and_a).
  - reflexivity.
  - reflexivity.
  - exists [("analog", JArr []); ("comm", JArr []); ("dataconv", JArr [])],
      [match LocalIP.installed_record sample_world resolved_widget "/b" with
       | Ok record => record
       | _ => JNull
       end],
      [("technolgy", JArr [])].
    split; [vm_compute; reflexivity|]. split; [reflexivity|].
    split; [repeat constructor; by exists []|].
    split.
    { repeat constructor. eexists. split; [vm_compute; reflexivity|].
      unfold registry_fields. repeat constructor; by eexists. }
    split; [repeat constructor|].
    repeat constructor. by exists [].
  - vm_compute. reflexivity.
  - exists [("IP", JArr [JObj gadget_dep])], [JObj gadget_dep]. repeat split.
    repeat constructor. by exists gadget_dep, (JStr "gadget").
  - left. vm_compute. reflexivity.
  - vm_compute. reflexivity.
Defined.

(** C7, as stated, fails, and each condition of the amended statement is
    needed.  On a fresh root, which has no manifest, the install creates
    one and the uninstall leaves it behind, empty.  A package installed for
    gf180mcu cannot be uninstalled at all: the lookup of the uninstall asks
    for sky130, finds nothing, and ends in an [AttributeError] with the
    record still in the registry.  When the manifest asks for the package
    already, or the registry holds a record of it at the same root, the
    uninstall takes out the older entry, or record, and leaves the new one.
    When a record of the package sits in a category behind its own, the
    uninstall takes out that record.  And an install with [--overwrite] on
    an occupied destination has taken out the record of another root before
    it starts. *)
Lemma round_trip_does_not_restore :
  (* a root without a manifest: the manifest is left behind *)
  fst (install_ip sample_world "/home/u/.ipm" "widget" false (JStr "sky130") JNull "/ips" None
         fresh_state) = Ok tt /\
  fst (uninstall_ip "/home/u/.ipm" "widget" "/ips" None widget_installed) = Ok tt /\
  deps fresh_state !! "/ips/dependencies.json" = None /\
  deps (after (uninstall_ip "/home/u/.ipm" "widget" "/ips" None) widget_installed)
    !! "/ips/dependencies.json" = Some (JObj [("IP", JArr [])]) /\
  deps (after (uninstall_ip "/home/u/.ipm" "widget" "/ips" None) widget_installed)
    <> deps fresh_state /\
  (* another technology: the uninstall fails *)
  fst (install_ip sample_world "/home/u/.ipm" "widget" false (JStr "gf180mcu") JNull "/ips" None
         empty_manifest_state) = Ok tt /\
  uninstall_ip "/home/u/.ipm" "widget" "/ips" None widget_installed_for_gf180mcu
    = (Raise (AttributeError "repo"), widget_installed_for_gf180mcu) /\
  registered "digital" widget_installed_for_gf180mcu
    = Ok [(JStr "widget", JStr "v1.2.0", JStr "/ips")] /\
  (* a manifest that asks for the package already: the older entry goes *)
  (let s1 := after (install_ip sample_world "/home/u/.ipm" "widget" false (JStr "sky130") JNull
                      "/ips" None) widget_required in
   let s2 := after (uninstall_ip "/home/u/.ipm" "widget" "/ips" None) s1 in
   required "/ips/dependencies.json" widget_required = Ok [(JStr "widget", JStr "v1.0.0")] /\
   fst (uninstall_ip "/home/u/.ipm" "widget" "/ips" None s1) = Ok tt /\
   required "/ips/dependencies.json" s2 = Ok [(JStr "widget", JStr "v1.2.0")]) /\
  (* a record at the same root: the older record goes *)
  (let s1 := after (install_ip sample_world "/home/u/.ipm" "widget" false (JStr "sky130") JNull
                      "/ips" None) widget_registered_only in
   let s2 := after (uninstall_ip "/home/u/.ipm" "widget" "/ips" None) s1 in
   registered "digital" widget_registered_only
     = Ok [(JStr "widget", JStr "v1.0.0", JStr "/ips")] /\
   fst (uninstall_ip "/home/u/.ipm" "widget" "/ips" None s1) = Ok tt /\
   registered "digital" s2 = Ok [(JStr "widget", JStr "v1.2.0", JStr "/ips")]) /\
  (* a record of the package in a category behind its own: that one goes *)
  (let s1 := after (install_ip sample_world "/home/u/.ipm" "widget" false (JStr "sky130") JNull
                      "/a" None) widget_filed_behind in
   let s2 := after (uninstall_ip "/home/u/.ipm" "widget" "/a" None) s1 in
   registered "digital" widget_filed_behind = Ok [] /\
   registered "technolgy" widget_filed_behind
     = Ok [(JStr "widget", JStr "v1.2.0", JStr "/b")] /\
   fst (uninstall_ip "/home/u/.ipm" "widget" "/a" None s1) = Ok tt /\
   registered "digital" s2 = Ok [(JStr "widget", JStr "v1.2.0", JStr "/a")] /\
   registered "technolgy" s2 = Ok []) /\
  (* an occupied destination and --overwrite: the record of the other root goes *)
  (let s1 := after (install_ip sample_world "/home/u/.ipm" "widget" true (JStr "sky130") JNull
                      "/a" None) widget_at_b_and_stray_directory in
   let s2 := after (uninstall_ip "/home/u/.ipm" "widget" "/a" None) s1 in
   registered "digital" widget_at_b_and_stray_directory
     = Ok [(JStr "widget", JStr "v1.2.0", JStr "/b")] /\
   fst (install_ip sample_world "/home/u/.ipm" "widget" true (JStr "sky130") JNull
          "/a" None widget_at_b_and_stray_directory) = Ok tt /\
   fst (uninstall_ip "/home/u/.ipm" "widget" "/a" None s1) = Ok tt /\
   registered "digital" s2 = Ok []).
Proof.
  repeat split; try (vm_compute; reflexivity).
  intros H. apply (f_equal (fun m => m !! "/ips/dependencies.json")) in H.
  vm_compute in H. discriminate H.
Qed.

(* ===================================================================== *)
(** * Further properties of the code *)
(* ===================================================================== *)

(** ** Resolution *)

(** X1.  Whatever [RemoteIP.get_info] returns carries the name that was
    asked for, the technology that was asked for (whatever the catalog
    says), a [str] repository, a version the URL could be printed with,
    and every other attribute a registry record is made of. *)
Theorem resolution_fills_the_object (data technology version ip : json) (self : obj) :
  RemoteIP.get_info data technology version (RemoteIP.init ip) = Ok self ->
  resolved ip technology self.
Proof. apply get_info_resolved. Qed.

Lemma resolution_fills_the_object_witness :
  resolved (JStr "widget") (JStr "gf180mcu")
    (match RemoteIP.get_info sample_catalog (JStr "gf180mcu") JNull
             (RemoteIP.init (JStr "widget")) with
     | Ok self => self
     | _ => []
     end).
Proof.
  apply (resolution_fills_the_object sample_catalog (JStr "gf180mcu") JNull (JStr "widget")).
  reflexivity.
Defined.

(** X2.  In the new format, a requested version that the release mapping
    of the record does not list is not an error of its own: the object is
    filled up to [release], gets no version, and the f-string of the URL
    raises [AttributeError] on [self.version]. *)
Theorem absent_version_raises_attribute_error
    (kvs fields releases : list (string * json)) (ip version repo : string)
    (technology author email category license tags : json) :
  assoc ip kvs = Some (JObj fields) ->
  assoc "repo" fields = Some (JStr repo) ->
  assoc "author" fields = Some author ->
  assoc "email" fields = Some email ->
  assoc "category" fields = Some category ->
  assoc "license" fields = Some license ->
  assoc "tags" fields = Some tags ->
  assoc "release" fields = Some (JObj releases) ->
  assoc version releases = None ->
  RemoteIP.get_info (JObj kvs) technology (JStr version) (RemoteIP.init (JStr ip))
    = Raise (AttributeError "version").
Proof. apply get_info_absent_version_new. Qed.

Lemma absent_version_raises_attribute_error_witness :
  RemoteIP.get_info sample_catalog (JStr "sky130") (JStr "v3.0.0") (RemoteIP.init (JStr "widget"))
    = Raise (AttributeError "version").
Proof.
  eapply (absent_version_raises_attribute_error _ _ _ "widget" "v3.0.0");
    reflexivity.
Defined.




(** X4.  [LocalIP.get_info] on a registry that holds no record named [ip]
    finds nothing, assigns nothing, and ends in the [AttributeError] of the
    f-string that reads [self.repo]. *)
Theorem unregistered_lookup_raises (technology : json) (ip ipm_iproot : string) (doc : json) :
  registry_without ip doc ->
  LocalIP.get_info doc technology (LocalIP.init (JStr ip) ipm_iproot)
    = Raise (AttributeError "repo").
Proof. apply local_get_info_without. Qed.

Lemma unregistered_lookup_raises_witness :
  LocalIP.get_info (registry widget_installed) (JStr "sky130")
    (LocalIP.init (JStr "gadget") "/home/u/.ipm") = Raise (AttributeError "repo").
Proof.
  apply (unregistered_lookup_raises (JStr "sky130") "gadget" "/home/u/.ipm").
  eexists. split; [reflexivity|].
  repeat constructor; try (by exists []).
  eexists. split; [reflexivity|]. repeat constructor.
  eexists _, (JStr "widget"). repeat split.
Defined.

(** ** The guard of the installer *)

(** X5.  Without [--overwrite], [install_ip] on a destination that holds
    something returns normally after one line of refusal: the registry, the
    manifests and the file system are what they were. *)
Theorem refused_install_changes_nothing (w : world) (ipm_iproot ip ip_root : string)
    (technology version : json) (deps_file : option string)
    (s : state) (entries : list (string * node)) :
  fs s !! path_join ip_root ip = Some (Dir entries) -> entries <> [] ->
  exists s',
    install_ip w ipm_iproot ip false technology version ip_root deps_file s = (Ok tt, s') /\
    registry s' = registry s /\ deps s' = deps s /\ fs s' = fs s /\
    console s' = console s ++ [ExistsNonEmpty ip ip_root].
Proof.
  intros Hdir Hne. eexists. split; [by eapply install_ip_refuses|]. done.
Qed.

Lemma refused_install_changes_nothing_witness :
  exists s',
    install_ip sample_world "/home/u/.ipm" "widget" false (JStr "sky130") JNull "/ips" None
      unregistered_directory = (Ok tt, s') /\
    registry s' = registry unregistered_directory /\ deps s' = deps unregistered_directory /\
    fs s' = fs unregistered_directory /\
    console s' = console unregistered_directory ++ [ExistsNonEmpty "widget" "/ips"].
Proof.
  apply (refused_install_changes_nothing sample_world "/home/u/.ipm" "widget" "/ips"
           (JStr "sky130") JNull None unregistered_directory [("notes.txt", File "kept")]).
  - reflexivity.
  - discriminate.
Defined.

(** X6.  An empty directory at the destination counts as no directory:
    with or without [--overwrite], [install_ip] does what it does on the
    state in which that directory was never there. *)
Theorem empty_destination_is_no_destination (w : world) (ipm_iproot ip : string)
    (overwrite : bool) (technology version : json) (ip_root : string)
    (deps_file : option string) (s : state) :
  fs s !! path_join ip_root ip = Some (Dir []) ->
  install_ip w ipm_iproot ip overwrite technology version ip_root deps_file s =
  install_ip w ipm_iproot ip overwrite technology version ip_root deps_file
    (deleted_by_hand (path_join ip_root ip) s).
Proof.
  intros Hdir. unfold install_ip. rewrite !bind_unfold.
  rewrite (destination_guard_empty _ _ _ _ _ _ Hdir).
  rewrite destination_guard_absent; [done|].
  unfold deleted_by_hand. cbn [fs]. apply lookup_delete_eq.
Qed.

Lemma empty_destination_is_no_destination_witness :
  install_ip sample_world "/home/u/.ipm" "widget" false (JStr "sky130") JNull "/ips" None
    empty_destination =
  install_ip sample_world "/home/u/.ipm" "widget" false (JStr "sky130") JNull "/ips" None
    (deleted_by_hand (path_join "/ips" "widget") empty_destination).
Proof.
  apply (empty_destination_is_no_destination sample_world "/home/u/.ipm" "widget" false
           (JStr "sky130") JNull "/ips" None empty_destination).
  reflexivity.
Defined.

(** ** A download that fails *)

Lemma auth_header_total (w : world) (remote_ip : obj) (repo : string) :
  assoc "repo" remote_ip = Some (JStr repo) ->
  exists headers, auth_header w remote_ip = Ok headers.
Proof.
  intros Hrepo. unfold auth_header, getattr. rewrite Hrepo.
  destruct (GITHUB_TOKEN w) as [token|]; [|eauto].
  destruct (negb (token =? ""))%string; cbn [rbind py_in]; eauto.
Qed.

Lemma resolved_release_url (data technology version ip : json) (self : obj) :
  RemoteIP.get_info data technology version (RemoteIP.init ip) = Ok self ->
  exists repo v vs,
    assoc "repo" self = Some (JStr repo) /\ assoc "version" self = Some v /\ fmt v = Ok vs /\
    assoc "release_url" self = Some (JStr (release_url_of repo vs)).
Proof.
  unfold RemoteIP.get_info. intros H.
  inv_do H ip' Hip. inv_do H sch Hsch. inv_do H self0 Hself0.
  apply set_release_url_Ok in H as (repo & v & vs & _ & _ & Hvs & Hrepo & Hv & Hurl).
  exists repo, v, vs. unfold getattr in *.
  destruct (assoc "repo" self) as [x|]; [|discriminate].
  destruct (assoc "version" self) as [y|]; [|discriminate].
  destruct (assoc "release_url" self) as [z|]; [|discriminate].
  by inversion Hrepo; inversion Hv; inversion Hurl; subst.
Qed.

(** X7.  When the destination is free, the package resolves, and the host
    answers the request for the archive with a status other than 200,
    [install_ip] ends in [exit(1)] and leaves the registry, the manifests
    and the file system as they were. *)
Theorem failed_download_leaves_nothing (w : world) (ipm_iproot ip : string) (overwrite : bool)
    (technology version : json) (ip_root : string) (deps_file : option string)
    (s : state) (remote_ip : obj) (url : string) :
  fs s !! path_join ip_root ip = None ->
  RemoteIP.get_info (remote_catalog w) technology version (RemoteIP.init (JStr ip))
    = Ok remote_ip ->
  getattr remote_ip "release_url" = Ok (JStr url) ->
  (forall headers, status_code (http_get w url headers) <> 200) ->
  exists s',
    install_ip w ipm_iproot ip overwrite technology version ip_root deps_file s = (Exit 1, s') /\
    registry s' = registry s /\ deps s' = deps s /\ fs s' = fs s.
Proof.
  intros Hfree Hres Hurl Hstatus.
  destruct (resolved_release_url _ _ _ _ _ Hres) as (repo & v & vs & Hrepo & Hv & _ & _).
  destruct (auth_header_total w remote_ip repo Hrepo) as [headers Hh].
  unfold install_ip. rewrite bind_unfold, destination_guard_absent by done.
  unfold resolve. rewrite !bind_unfold. unfold lift at 1. rewrite Hres.
  rewrite !bind_unfold. unfold lift at 1. rewrite Hurl.
  rewrite !bind_unfold. unfold print at 1. unfold ret at 1.
  rewrite !bind_unfold. unfold print at 1.
  unfold download_and_unpack.
  rewrite !bind_unfold. unfold lift at 1. rewrite Hh.
  rewrite !bind_unfold.
  assert (Hv' : getattr remote_ip "version" = Ok v) by (unfold getattr; by rewrite Hv).
  destruct headers as [h|].
  - unfold print at 1. rewrite !bind_unfold. unfold lift at 1. rewrite Hurl.
    rewrite !bind_unfold. unfold print at 1. rewrite !bind_unfold. unfold lift at 1.
    cbn [as_path].
    rewrite (proj2 (Z.eqb_neq _ _) (Hstatus (Some h))). cbn [negb].
    rewrite !bind_unfold. unfold lift at 1. rewrite Hv'.
    rewrite !bind_unfold. unfold print at 1. rewrite !bind_unfold. unfold print at 1.
    unfold exit. eexists. split; [reflexivity|]. done.
  - unfold ret at 1. rewrite !bind_unfold. unfold lift at 1. rewrite Hurl.
    rewrite !bind_unfold. unfold print at 1. rewrite !bind_unfold. unfold lift at 1.
    cbn [as_path].
    rewrite (proj2 (Z.eqb_neq _ _) (Hstatus None)). cbn [negb].
    rewrite !bind_unfold. unfold lift at 1. rewrite Hv'.
    rewrite !bind_unfold. unfold print at 1. rewrite !bind_unfold. unfold print at 1.
    unfold exit. eexists. split; [reflexivity|]. done.
Qed.

Lemma failed_download_leaves_nothing_witness :
  exists s',
    install_ip unreachable_world "/home/u/.ipm" "widget" false (JStr "sky130") JNull "/ips" None
      fresh_state = (Exit 1, s') /\
    registry s' = registry fresh_state /\ deps s' = deps fresh_state /\
    fs s' = fs fresh_state.
Proof.
  apply (failed_download_leaves_nothing unreachable_world "/home/u/.ipm" "widget" false
           (JStr "sky130") JNull "/ips" None fresh_state resolved_widget
           "https://github.com/acme/widget/archive/refs/tags/widget-v1.2.0.tar.gz").
  - reflexivity.
  - reflexivity.
  - reflexivity.
  - intros headers. discriminate.
Defined.

(** ** Uninstalling what the registry does not know *)

(** X14.  [uninstall_ip] on a destination that exists while the registry
    holds no record of that name stops in the [AttributeError] of
    [LocalIP.get_info], before anything is written or deleted. *)
Theorem uninstall_unregistered_raises (ipm_iproot ip ip_root : string)
    (deps_file : option string) (s : state) :
  is_Some (fs s !! path_join ip_root ip) ->
  registry_without ip (registry s) ->
  uninstall_ip ipm_iproot ip ip_root deps_file s = (Raise (AttributeError "repo"), s).
Proof.
  intros Hdir Hreg. unfold uninstall_ip.
  rewrite bind_unfold. unfold path_exists at 1.
  rewrite bool_decide_eq_true_2 by done.
  unfold LocalIP.remove_ip_from_json. rewrite !bind_unfold.
  unfold read_registry at 1. rewrite !bind_unfold. unfold read_registry at 1.
  rewrite !bind_unfold. unfold lift at 1.
  by rewrite (local_get_info_without _ _ _ _ Hreg).
Qed.

Lemma uninstall_unregistered_raises_witness :
  uninstall_ip "/home/u/.ipm" "widget" "/ips" None unregistered_directory
    = (Raise (AttributeError "repo"), unregistered_directory).
Proof.
  apply (uninstall_unregistered_raises "/home/u/.ipm" "widget" "/ips" None
           unregistered_directory).
  - vm_compute. eauto.
  - exists [("analog", JArr []); ("comm", JArr []); ("dataconv", JArr []);
            ("digital", JArr []); ("technolgy", JArr [])].
    split; [reflexivity|].
    repeat constructor; by exists [].
Defined.

(** ** What a completed download leaves on disk *)









(** ** Which schema the listing functions take the catalog for *)

(** X9.  On a catalog that opens with a non-empty key whose value is an object
    or a list of records, the name enumeration and the listing decide the
    schema by the first key: the document is of the new format when the
    value of that key has a [description] field, and of the original
    format otherwise. *)
Theorem readers_decide_by_the_first_key
    (k : string) (v : json) (rest : list (string * json)) (category : string) :
  k <> "" ->
  (exists fields, v = JObj fields) \/
  (exists records, v = JArr records /\ Forall (fun r => exists fields, r = JObj fields) records) ->
  let data := JObj ((k, v) :: rest) in
  get_IP_list_of data =
    match schema_by_description data with
    | NewFormat => get_IP_list_new data
    | OriginalFormat => get_IP_list_original data
    end /\
  list_IPs_of data category =
    match schema_by_description data with
    | NewFormat => list_IPs_new data category
    | OriginalFormat => list_IPs_original data category
    end.
Proof.
  intros Hk Hv data.
  assert (Hsch : schema_by_first_key data = Ok (schema_by_description data))
    by (by apply schema_by_first_key_description).
  split.
  - unfold get_IP_list_of. by rewrite Hsch.
  - unfold list_IPs_of. by rewrite Hsch.
Qed.

Lemma readers_decide_by_the_first_key_witness :
  get_IP_list_of legacy_catalog = get_IP_list_original legacy_catalog /\
  list_IPs_of legacy_catalog "digital" = list_IPs_original legacy_catalog "digital".
Proof.
  apply (readers_decide_by_the_first_key "digital"
           (JArr [legacy_record "github.com/acme/widget"
                    [legacy_release "v1.0.0" "2024-01-01T00:00:00Z"]]) [] "digital").
  - discriminate.
  - right. eexists. split; [reflexivity|]. repeat constructor. by eexists.
Defined.

(** ** Checking for newer versions *)

Lemma keeps_disk_ret {A} (a : A) : keeps_disk (ret a).
Proof. by intros s r s' [= <- <-]. Qed.

Lemma keeps_disk_lift {A} (r : result A) : keeps_disk (lift r).
Proof. by intros s r' s' [= <- <-]. Qed.

Lemma keeps_disk_print (e : event) : keeps_disk (print e).
Proof. by intros s r' s' [= <- <-]. Qed.

Lemma keeps_disk_read_registry : keeps_disk read_registry.
Proof. by intros s r' s' [= <- <-]. Qed.

Lemma keeps_disk_bind {A B} (c : M A) (k : A -> M B) :
  keeps_disk c -> (forall a, keeps_disk (k a)) -> keeps_disk (bind c k).
Proof.
  intros Hc Hk s r s'. unfold bind.
  destruct (c s) as [[a | n | e] s1] eqn:E; destruct (Hc _ _ _ E) as (Hr & Hd & Hf).
  - intros H. destruct (Hk _ _ _ _ H) as (Hr' & Hd' & Hf'). repeat split; congruence.
  - by intros [= <- <-].
  - by intros [= <- <-].
Qed.

Lemma keeps_disk_if {A} (b : bool) (c1 c2 : M A) :
  keeps_disk c1 -> keeps_disk c2 -> keeps_disk (if b then c1 else c2).
Proof. by destruct b. Qed.

Create HintDb disk.
#[local] Hint Resolve keeps_disk_ret keeps_disk_lift keeps_disk_print keeps_disk_read_registry
  keeps_disk_if : disk.

Ltac keeps_disk_tac :=
  repeat first
    [ apply keeps_disk_bind; [|intros ?]
    | progress eauto with disk
    | match goal with
      | |- keeps_disk (if ?b then _ else _) => destruct b
      end ].

Lemma keeps_disk_resolve (w : world) (ip technology version : json) :
  keeps_disk (resolve w ip technology version).
Proof. unfold resolve. keeps_disk_tac. Qed.

Lemma keeps_disk_local_info (ipm_iproot : string) (ip technology : json) :
  keeps_disk (local_info ipm_iproot ip technology).
Proof. unfold local_info. keeps_disk_tac. Qed.

#[local] Hint Resolve keeps_disk_resolve keeps_disk_local_info : disk.

Lemma keeps_disk_check_one_of_all (w : world) (ipm_iproot : string)
    (version technology : json) (n : nat) (ip : json) :
  keeps_disk (check_one_of_all w ipm_iproot false version technology n ip).
Proof.
  unfold check_one_of_all. keeps_disk_tac.
  destruct version; keeps_disk_tac.
Qed.

Lemma keeps_disk_check_all_loop (w : world) (ipm_iproot : string)
    (version technology : json) (IP_list : list json) (n : nat) :
  keeps_disk (check_all_loop w ipm_iproot false version technology IP_list n).
Proof.
  revert n. induction IP_list as [|ip rest IH]; intros n; cbn [check_all_loop].
  - apply keeps_disk_ret.
  - apply keeps_disk_bind; [apply keeps_disk_check_one_of_all | intros ?; apply IH].
Qed.

(** X10.  [check_IP] without [update] -- what [ipm check] runs, for one
    package or for all -- prints and writes nothing: whatever it returns or
    raises, the registry, the manifests and the file system are what they
    were. *)
Theorem checking_writes_nothing (w : world) (ipm_iproot ip : string)
    (version technology : json) :
  keeps_disk (check_IP w ipm_iproot ip false version technology).
Proof.
  unfold check_IP. destruct (ip =? "all")%string.
  - unfold get_IP_list. cbn [negb].
    apply keeps_disk_bind; [keeps_disk_tac|]. intros IP_list.
    destruct (length IP_list =? 0)%nat; [keeps_disk_tac|].
    apply keeps_disk_bind; [keeps_disk_tac|]. intros _.
    apply keeps_disk_bind; [apply keeps_disk_check_all_loop|]. intros update_counter.
    keeps_disk_tac.
  - unfold check_single. keeps_disk_tac.
Qed.

Lemma check_one_of_all_given_version (w : world) (ipm_iproot : string) (update : bool)
    (version technology : json) (n : nat) (ip : json) (s s' : state) (r : result nat) :
  version <> JNull ->
  check_one_of_all w ipm_iproot update version technology n ip s = (r, s') ->
  (registry s' = registry s /\ deps s' = deps s /\ fs s' = fs s) /\
  forall n', r = Ok n' -> n' = n.
Proof.
  intros Hv H. unfold check_one_of_all in H.
  assert (keeps_disk (run local_ip <- local_info ipm_iproot ip technology;
                      run remote_ip <- resolve w ip technology version;
                      (ret n : M nat))) as Hkeeps by keeps_disk_tac.
  assert ((run local_ip <- local_info ipm_iproot ip technology;
           run remote_ip <- resolve w ip technology version;
           (ret n : M nat)) s = (r, s')) as H'.
  { rewrite <- H. by destruct version. }
  split; [by eapply Hkeeps|].
  intros n' ->. inv_run H' l s1 H1. inv_run H' rm s2 H2. by injection H' as <- _.
Qed.

Lemma check_all_loop_given_version (w : world) (ipm_iproot : string) (update : bool)
    (version technology : json) (IP_list : list json) (n : nat) (s s' : state)
    (r : result nat) :
  version <> JNull ->
  check_all_loop w ipm_iproot update version technology IP_list n s = (r, s') ->
  (registry s' = registry s /\ deps s' = deps s /\ fs s' = fs s) /\
  forall n', r = Ok n' -> n' = n.
Proof.
  intros Hv. revert n s. induction IP_list as [|ip rest IH]; intros n s; cbn [check_all_loop].
  - by intros [= <- <-]; split; [|intros ? [= <-]].
  - rewrite bind_unfold.
    destruct (check_one_of_all w ipm_iproot update version technology n ip s)
      as [[m|code|e] s1] eqn:E;
      destruct (check_one_of_all_given_version _ _ _ _ _ _ _ _ _ _ Hv E) as [(Hr1&Hd1&Hf1) Hn].
    + rewrite (Hn m eq_refl). intros Hrest. destruct (IH _ _ Hrest) as [(Hr2&Hd2&Hf2) Hn'].
      split; [repeat split; congruence | done].
    + by intros [= <- <-].
    + by intros [= <- <-].
Qed.

(** X11.  When a version is given, the loop over all installed packages
    compares nothing: [check_IP] for "all" with a version, even with
    [update] set (what [check] of the command module runs), reinstalls
    nothing, leaves the registry, the manifests and the file system as they
    were, and when it completes its last line says that all is up to date or
    that nothing is installed. *)
Theorem check_all_with_a_version_updates_nothing (w : world) (ipm_iproot : string)
    (update : bool) (version technology : json) (s s' : state) (r : result unit) :
  version <> JNull ->
  check_IP w ipm_iproot "all" update version technology s = (r, s') ->
  (registry s' = registry s /\ deps s' = deps s /\ fs s' = fs s) /\
  (r = Ok tt ->
   last (console s') = Some AllUpToDate \/
   last (console s') = Some NoInstalledToUpdate \/
   last (console s') = Some NoInstalledToCheck).
Proof.
  intros Hv. unfold check_IP. cbn [String.eqb Ascii.eqb Bool.eqb].
  rewrite bind_unfold.
  destruct (get_IP_list w false s) as [[IP_list|code|e] s0] eqn:E.
  2,3: intros [= <- <-]; split; [|done];
       by eapply (keeps_disk_bind read_registry (fun data => lift (get_IP_list_of data)));
       [apply keeps_disk_read_registry | intros; apply keeps_disk_lift | exact E].
  assert (s0 = s) as ->.
  { unfold get_IP_list in E. rewrite bind_unfold in E. unfold read_registry, lift in E.
    by injection E as _ <-. }
  destruct (length IP_list =? 0)%nat.
  - destruct update; intros [= <- <-]; (split; [done|]); intros _; cbn [console];
      rewrite last_snoc; eauto.
  - rewrite bind_unfold. unfold print at 1. rewrite bind_unfold.
    destruct (check_all_loop w ipm_iproot update version technology IP_list 0 _)
      as [[m|code|e] s1] eqn:El;
      destruct (check_all_loop_given_version _ _ _ _ _ _ _ _ _ _ Hv El) as [(Hr1&Hd1&Hf1) Hn].
    + rewrite (Hn m eq_refl). cbn [Nat.ltb Nat.leb]. intros [= <- <-].
      split; [done|]. intros _. cbn [console]. rewrite last_snoc. eauto.
    + by intros [= <- <-].
    + by intros [= <- <-].
Qed.

Lemma check_all_with_a_version_updates_nothing_witness :
  (registry (after (check_IP sample_world "/home/u/.ipm" "all" true (JStr "v1.0.0")
                      (JStr "sky130")) widget_installed) = registry widget_installed /\
   deps (after (check_IP sample_world "/home/u/.ipm" "all" true (JStr "v1.0.0")
                  (JStr "sky130")) widget_installed) = deps widget_installed /\
   fs (after (check_IP sample_world "/home/u/.ipm" "all" true (JStr "v1.0.0")
                (JStr "sky130")) widget_installed) = fs widget_installed) /\
  (Ok tt = Ok tt ->
   last (console (after (check_IP sample_world "/home/u/.ipm" "all" true (JStr "v1.0.0")
                           (JStr "sky130")) widget_installed)) = Some AllUpToDate \/
   last (console (after (check_IP sample_world "/home/u/.ipm" "all" true (JStr "v1.0.0")
                           (JStr "sky130")) widget_installed)) = Some NoInstalledToUpdate \/
   last (console (after (check_IP sample_world "/home/u/.ipm" "all" true (JStr "v1.0.0")
                           (JStr "sky130")) widget_installed)) = Some NoInstalledToCheck).
Proof.
  apply (check_all_with_a_version_updates_nothing sample_world "/home/u/.ipm" true
           (JStr "v1.0.0") (JStr "sky130") widget_installed
           (after (check_IP sample_world "/home/u/.ipm" "all" true (JStr "v1.0.0")
                     (JStr "sky130")) widget_installed)
           (Ok tt)).
  - discriminate.
  - vm_compute. reflexivity.
Defined.

(** X12.  With no version given and without [update], one turn of the loop
    over all installed packages compares the version of the registry record
    with the version resolved from the catalog, by [==]: equal, it reports
    the package up to date and leaves the counter; different, it reports
    the remote version and counts one. *)
Theorem check_all_compares_local_with_remote (w : world) (ipm_iproot : string)
    (technology ip : json) (n : nat) (s s1 s2 : state) (local_ip remote_ip : obj)
    (lv rv : json) :
  local_info ipm_iproot ip technology s = (Ok local_ip, s1) ->
  resolve w ip technology JNull s1 = (Ok remote_ip, s2) ->
  getattr local_ip "version" = Ok lv ->
  getattr remote_ip "version" = Ok rv ->
  check_one_of_all w ipm_iproot false JNull technology n ip s =
    if py_eq lv rv then (Ok n, snd (print (UpToDate ip lv) s2))
    else (Ok (S n), snd (print (NewerVersion ip rv) s2)).
Proof. apply check_one_of_all_compares. Qed.

Lemma check_all_compares_local_with_remote_witness :
  check_one_of_all sample_world "/home/u/.ipm" false JNull (JStr "sky130") 0 (JStr "widget")
    widget_installed =
    if py_eq (JStr "v1.2.0") (JStr "v1.2.0")
    then (Ok 0%nat, snd (print (UpToDate (JStr "widget") (JStr "v1.2.0"))
                     (after (resolve sample_world (JStr "widget") (JStr "sky130") JNull)
                            widget_installed)))
    else (Ok 1%nat, snd (print (NewerVersion (JStr "widget") (JStr "v1.2.0"))
                     (after (resolve sample_world (JStr "widget") (JStr "sky130") JNull)
                            widget_installed))).
Proof.
  apply (check_all_compares_local_with_remote sample_world "/home/u/.ipm" (JStr "sky130")
           (JStr "widget") 0 widget_installed widget_installed
           (after (resolve sample_world (JStr "widget") (JStr "sky130") JNull) widget_installed)
           (match LocalIP.get_info (registry widget_installed) (JStr "sky130")
                    (LocalIP.init (JStr "widget") "/home/u/.ipm") with
            | Ok l => l | _ => [] end)
           resolved_widget (JStr "v1.2.0") (JStr "v1.2.0")).
  - vm_compute. reflexivity.
  - vm_compute. reflexivity.
  - vm_compute. reflexivity.
  - vm_compute. reflexivity.
Defined.

(** X13.  Without [update], the check of a single package compares the
    version of the registry record with the version that was ASKED FOR,
    not with the resolved one: it reports the package up to date exactly
    when the two are [==], and otherwise reports the resolved remote
    version as newer. *)
Theorem check_single_compares_local_with_request (w : world) (ipm_iproot : string)
    (technology version ip : json)
    (s s1 s2 : state) (local_ip remote_ip : obj) (lv rv : json) :
  local_info ipm_iproot ip technology s = (Ok local_ip, s1) ->
  resolve w ip technology version s1 = (Ok remote_ip, s2) ->
  getattr local_ip "version" = Ok lv ->
  getattr remote_ip "version" = Ok rv ->
  check_single w ipm_iproot ip false version technology s =
    if py_eq lv version then (Ok tt, snd (print (UpToDate ip lv) s2))
    else (Ok tt, snd (print (NewerVersion ip rv) s2)).
Proof. apply check_single_compares_request. Qed.

Lemma check_single_compares_local_with_request_witness :
  check_single sample_world "/home/u/.ipm" (JStr "widget") false (JStr "v1.2.0") (JStr "sky130")
    widget_installed =
    if py_eq (JStr "v1.2.0") (JStr "v1.2.0")
    then (Ok tt, snd (print (UpToDate (JStr "widget") (JStr "v1.2.0"))
                     (after (resolve sample_world (JStr "widget") (JStr "sky130") (JStr "v1.2.0"))
                            widget_installed)))
    else (Ok tt, snd (print (NewerVersion (JStr "widget") (JStr "v1.2.0"))
                     (after (resolve sample_world (JStr "widget") (JStr "sky130") (JStr "v1.2.0"))
                            widget_installed))).
Proof.
  apply (check_single_compares_local_with_request sample_world "/home/u/.ipm" (JStr "sky130")
           (JStr "v1.2.0") (JStr "widget") widget_installed widget_installed
           (after (resolve sample_world (JStr "widget") (JStr "sky130") (JStr "v1.2.0"))
                  widget_installed)
           (match LocalIP.get_info (registry widget_installed) (JStr "sky130")
                    (LocalIP.init (JStr "widget") "/home/u/.ipm") with
            | Ok l => l | _ => [] end)
           (match RemoteIP.get_info sample_catalog (JStr "sky130") (JStr "v1.2.0")
                    (RemoteIP.init (JStr "widget")) with
            | Ok l => l | _ => [] end)
           (JStr "v1.2.0") (JStr "v1.2.0")).
  - vm_compute. reflexivity.
  - vm_compute. reflexivity.
  - vm_compute. reflexivity.
  - vm_compute. reflexivity.
Defined.

(** ** What the removal loop never takes *)

Lemma list_remove_sublist (i : nat) (x : json) (l : list json) :
  sublist (list_remove i x l) l.
Proof.
  revert i. induction l as [|y l IH]; intros [|i]; simpl.
  - constructor.
  - constructor.
  - apply sublist_cons. reflexivity.
  - destruct (py_eq y x); [apply sublist_cons; reflexivity|]. apply sublist_skip, IH.
Qed.

Lemma list_remove_filter (keep : json -> bool) (i : nat) (x : json) (l : list json) :
  l !! i = Some x -> keep x = false ->
  Forall (fun y => keep y = true -> py_eq y x = false) l ->
  List.filter keep (list_remove i x l) = List.filter keep l.
Proof.
  intros Hi Hx Hl. revert i Hi. induction Hl as [|y l Hy _ IH]; intros i Hi; [done|].
  destruct i as [|i]; simpl in *.
  - injection Hi as ->. by rewrite Hx.
  - destruct (py_eq y x) eqn:E.
    + assert (keep y = false) as Hk.
      { destruct (keep y); [|done]. specialize (Hy eq_refl). congruence. }
      by rewrite Hk.
    + simpl. by rewrite (IH i Hi).
Qed.

Lemma Forall_of_sublist {A} (P : A -> Prop) (l1 l2 : list A) :
  sublist l1 l2 -> Forall P l2 -> Forall P l1.
Proof.
  induction 1 as [|x l1 l2 _ IH|x l1 l2 _ IH]; [done| |].
  - intros [Hx Hl]%Forall_cons. constructor; auto.
  - intros [Hx Hl]%Forall_cons. auto.
Qed.

(** The loop, whatever it skips, takes out only items that pass its test:
    the items [keep] holds on stay, in their order. *)
Lemma remove_loop_keeps (cond : json -> result bool) (keep : json -> bool) (P : json -> Prop) :
  (forall y, P y -> exists b, cond y = Ok b /\ (b = true -> keep y = false)) ->
  (forall x y, P x -> P y -> cond x = Ok true -> keep y = true -> py_eq y x = false) ->
  forall fuel i l, Forall P l ->
    exists l', LocalIP.remove_loop cond fuel i l = Ok l' /\
      List.filter keep l' = List.filter keep l /\ sublist l' l.
Proof.
  intros Hcond Hne fuel. induction fuel as [|fuel IH]; intros i l Hl; [by exists l|].
  cbn [LocalIP.remove_loop]. destruct (l !! i) as [ips|] eqn:Ei; [|by exists l].
  assert (P ips) as Hips by (by eapply Forall_lookup_1).
  destruct (Hcond ips Hips) as (b & Hb & Hkeep). rewrite Hb. cbn [rbind].
  destruct b.
  - assert (Forall P (list_remove i ips l)) as Hl'.
    { eapply Forall_of_sublist; [apply list_remove_sublist | exact Hl]. }
    destruct (IH (S i) _ Hl') as (l' & Hloop & Hfilter & Hsub).
    exists l'. split; [done|]. split.
    + rewrite Hfilter. apply list_remove_filter; [done|by apply Hkeep|].
      eapply Forall_impl; [exact Hl|]. intros y Hy Hk. by apply Hne.
    + etrans; [exact Hsub|]. apply list_remove_sublist.
  - by apply IH.
Qed.

(** X15.  The loop of [remove_ip_from_json], run on a bucket of records
    for an object with the name [ip] and the root [root], returns; it may
    leave records of that name and root behind, but it takes out nothing
    else: the records with another name or another root are all there
    afterwards, in their order, and every record that is there was there
    before. *)
Theorem removal_keeps_the_other_records (self : obj) (ip root : string) (l : list json) :
  assoc "name" self = Some (JStr ip) ->
  assoc "ip_root" self = Some (JStr root) ->
  Forall registry_record l ->
  exists l',
    LocalIP.remove_where (LocalIP.same_name_and_root self) (JArr l) = Ok (JArr l') /\
    List.filter (fun r => negb (is_target ip root r)) l'
      = List.filter (fun r => negb (is_target ip root r)) l /\
    sublist l' l.
Proof.
  intros Hname Hroot Hl.
  destruct (remove_loop_keeps (LocalIP.same_name_and_root self)
              (fun r => negb (is_target ip root r)) registry_record) with
    (fuel := length l) (i := 0%nat) (l := l) as (l' & Hloop & Hfilter & Hsub).
  - intros y Hy. exists (is_target ip root y).
    split; [by apply same_name_and_root_is_target|]. by intros ->.
  - intros x y Hx Hy Hcond Hkeep.
    rewrite (same_name_and_root_is_target ip root) in Hcond by done.
    injection Hcond as Hx_target.
    destruct (py_eq y x) eqn:E; [|done].
    destruct Hx as (fields & -> & Hall). unfold is_target in Hx_target.
    destruct (assoc "name" fields) as [n|] eqn:En; [|done].
    destruct (assoc "ip_root" fields) as [r|] eqn:Er; [|done].
    apply andb_true_iff in Hx_target as [Hn Hr].
    apply py_eq_str in Hn, Hr. subst n r.
    rewrite (py_eq_target ip root y fields) in Hkeep by done. done.
  - done.
  - exists l'. unfold LocalIP.remove_where. by rewrite Hloop.
Qed.

Lemma removal_keeps_the_other_records_witness :
  exists l',
    LocalIP.remove_where
      (LocalIP.same_name_and_root [("name", JStr "widget"); ("ip_root", JStr "/b")])
      (JArr records_at_two_roots) = Ok (JArr l') /\
    List.filter (fun r => negb (is_target "widget" "/b" r)) l'
      = List.filter (fun r => negb (is_target "widget" "/b" r)) records_at_two_roots /\
    sublist l' records_at_two_roots.
Proof.
  apply (removal_keeps_the_other_records [("name", JStr "widget"); ("ip_root", JStr "/b")]
           "widget" "/b" records_at_two_roots).
  - reflexivity.
  - reflexivity.
  - repeat constructor; (eexists; split; [reflexivity|]);
      unfold registry_fields; repeat constructor; by eexists.
Defined.

(** ** The URL that the package check probes *)

Lemma str_in_behind_scheme (s : string) :
  str_in "github.com" ("https://" +:+ s) = str_in "github.com" s.
Proof. rewrite !string_app_cons. reflexivity. Qed.

(** X16.  For a repository given without its scheme, as the catalog gives
    it, [package_check] probes the tarball at the URL from which the
    installer downloads it -- except for a location that contains
    github.com and has fewer than three segments, for which the check has
    no URL at all. *)
Theorem package_check_probes_the_installer_url (gh_repo version : string) :
  String.prefix "https" gh_repo = false ->
  tarball_url_of gh_repo version =
    if str_in "github.com" gh_repo && (length (split "/" gh_repo) <? 3)%nat then None
    else Some (release_url_of gh_repo version).
Proof.
  intros Hscheme. unfold tarball_url_of, gh_repo_url_of, release_url_of.
  rewrite Hscheme, str_in_behind_scheme.
  destruct (str_in "github.com" gh_repo); cbn [andb].
  - rewrite andb_true_r.
    destruct (Nat.leb_spec 3 (length (split "/" gh_repo))) as [H|H].
    + rewrite (proj2 (Nat.ltb_ge _ _)) by done. by rewrite !string_app_assoc.
    + by rewrite (proj2 (Nat.ltb_lt _ _)) by done.
  - rewrite andb_false_r. by rewrite !string_app_assoc.
Qed.

Lemma package_check_probes_the_installer_url_witness :
  tarball_url_of "github.com/acme/widget" "v1.2.0" =
    if str_in "github.com" "github.com/acme/widget"
       && (length (split "/" "github.com/acme/widget") <? 3)%nat
    then None
    else Some (release_url_of "github.com/acme/widget" "v1.2.0").
Proof.
  apply (package_check_probes_the_installer_url "github.com/acme/widget" "v1.2.0").
  reflexivity.
Defined.

(** ** The names in the listing *)

(** X17.  On a catalog of the new format, the table of [list_IPs] has one
    row for each package of the category asked for whose release mapping
    is not empty, in the order of the catalog; the packages without a
    release are left out, although [get_IP_list] enumerates them. *)
Theorem listing_leaves_out_the_unreleased (items : list (string * json)) (category : string)
    (rows : list row) :
  list_IPs_new (JObj items) category = Ok rows ->
  map row_name rows =
    map (fun kv => JStr (fst kv))
      (List.filter (fun kv => in_category category (snd kv) && has_releases (snd kv)) items) /\
  get_IP_list_new (JObj items) = Ok (map (fun kv => JStr (fst kv)) items).
Proof.
  intros H. split; [|unfold get_IP_list_new; cbn [py_keys rbind]; by rewrite map_map].
  unfold list_IPs_new in H. cbn [py_items rbind] in H.
  assert (forall acc rows,
    foldM (fun rows kv =>
           let '(ip_name, ip_data) := kv in
           do skip <-
             (if negb (String.eqb category "all") then
                do c <- getitem ip_data (JStr "category");
                Ok (negb (py_eq c (JStr category)))
              else Ok false);
           if skip then Ok rows
           else
             do release <- getitem ip_data (JStr "release");
             if truthy release then
               do versions <- py_keys release;
               match last versions with
               | None => Raise IndexError
               | Some latest_version =>
                   do latest_release <- getitem release (JStr latest_version);
                   do c <- getitem ip_data (JStr "category");
                   do author <- getitem ip_data (JStr "author");
                   do type <- getitem latest_release (JStr "type");
                   do tags <- getitem ip_data (JStr "tags");
                   do tags <- py_join "," tags;
                   do maturity <- py_get latest_release "maturity" (JStr "unknown");
                   do technology <- getitem ip_data (JStr "technology");
                   do license <- getitem ip_data (JStr "license");
                   Ok (rows ++ [[c; JStr ip_name; JStr latest_version; author; type;
                                 JStr tags; maturity; technology; license]])
               end
             else Ok rows)
        items acc = Ok rows ->
    map row_name rows =
      map row_name acc ++
      map (fun kv => JStr (fst kv))
        (List.filter (fun kv => in_category category (snd kv) && has_releases (snd kv)) items))
    as Hgen.
  { clear. induction items as [|[ip_name ip_data] items IH]; intros acc rows H.
    - injection H as <-. by rewrite app_nil_r.
    - cbn [foldM] in H. inv_do H acc' Hstep. apply IH in H. rewrite H. clear H IH.
      cbn [List.filter fst snd]. unfold in_category, has_releases.
      inv_do Hstep skip Hskip.
      destruct (String.eqb category "all") eqn:Eall; cbn [negb orb] in *.
      + injection Hskip as <-.
        inv_do Hstep release Hrelease. rewrite Hrelease.
        destruct (truthy release); [|by injection Hstep as <-].
        inv_do Hstep versions Hversions.
        destruct (last versions); [|discriminate Hstep].
        inv_do Hstep x1 H1. inv_do Hstep x2 H2. inv_do Hstep x3 H3. inv_do Hstep x4 H4.
        inv_do Hstep x5 H5. inv_do Hstep x6 H6. inv_do Hstep x7 H7. inv_do Hstep x8 H8.
        inv_do Hstep x9 H9. injection Hstep as <-.
        cbn [map fst]. rewrite map_app. cbn [map row_name nth]. by rewrite <- app_assoc.
      + inv_do Hskip c Hc. injection Hskip as <-. rewrite Hc.
        destruct (py_eq c (JStr category)); cbn [negb andb] in *; [|by injection Hstep as <-].
        inv_do Hstep release Hrelease. rewrite Hrelease.
        destruct (truthy release); [|by injection Hstep as <-].
        inv_do Hstep versions Hversions.
        destruct (last versions); [|discriminate Hstep].
        inv_do Hstep x1 H1. inv_do Hstep x2 H2. inv_do Hstep x3 H3. inv_do Hstep x4 H4.
        inv_do Hstep x5 H5. inv_do Hstep x6 H6. inv_do Hstep x7 H7. inv_do Hstep x8 H8.
        inv_do Hstep x9 H9. injection Hstep as <-.
        cbn [map fst]. rewrite map_app. cbn [map row_name nth]. by rewrite <- app_assoc. }
  by apply (Hgen [] rows).
Qed.

Lemma listing_leaves_out_the_unreleased_witness :
  map row_name [[JStr "digital"; JStr "widget"; JStr "v1.2.0"; JStr "acme"; JStr "soft";
                 JStr "demo"; JStr "verified"; JStr "sky130"; JStr "Apache-2.0"]] =
    map (fun kv => JStr (fst kv))
      (List.filter (fun kv => in_category "all" (snd kv) && has_releases (snd kv))
         [("widget", sample_record "github.com/acme/widget"
                       [("v1.2.0", sample_release "2024-06-01T00:00:00Z")]);
          ("gadget", sample_record "github.com/acme/gadget" [])]) /\
  get_IP_list_new catalog_with_unreleased
    = Ok (map (fun kv : string * json => JStr (fst kv))
            [("widget", sample_record "github.com/acme/widget"
                          [("v1.2.0", sample_release "2024-06-01T00:00:00Z")]);
             ("gadget", sample_record "github.com/acme/gadget" [])]).
Proof.
  apply (listing_leaves_out_the_unreleased
           [("widget", sample_record "github.com/acme/widget"
                         [("v1.2.0", sample_release "2024-06-01T00:00:00Z")]);
            ("gadget", sample_record "github.com/acme/gadget" [])] "all").
  vm_compute. reflexivity.
Defined.

(** ** What is registered is enumerated *)

Lemma Forall_assoc_set {A} (Q : A -> Prop) (k : string) (v : A) (kvs : list (string * A)) :
  Forall (fun kv => Q (snd kv)) kvs -> Q v ->
  Forall (fun kv => Q (snd kv)) (assoc_set k v kvs).
Proof.
  intros H Hv. induction H as [|[k0 v0] kvs H0 Hrest IH]; simpl.
  - by repeat constructor.
  - destruct (String.eqb k k0); constructor; done.
Qed.

Lemma get_IP_list_bucket (l : list json) (acc : list json) :
  Forall named_record l ->
  foldM (fun IP_list value => do name <- getitem value (JStr "name"); Ok (IP_list ++ [name]))
        l acc = Ok (acc ++ map record_name l).
Proof.
  intros Hl. revert acc. induction Hl as [|r l (fields & n & -> & Hn) _ IH]; intros acc.
  - by rewrite app_nil_r.
  - cbn [foldM map]. unfold record_name at 1. rewrite (getitem_obj _ _ _ Hn). cbn [rbind].
    by rewrite IH, <- app_assoc.
Qed.

Lemma get_IP_list_original_names (cats : list (string * json)) :
  Forall (fun kv => exists l, snd kv = JArr l /\ Forall named_record l) cats ->
  get_IP_list_original (JObj cats) = Ok (registry_names cats).
Proof.
  intros Hcats. unfold get_IP_list_original. cbn [py_items rbind].
  enough (forall acc,
    foldM (fun IP_list kv =>
             do values <- py_iter (snd kv);
             foldM (fun IP_list value =>
                      do name <- getitem value (JStr "name");
                      Ok (IP_list ++ [name])) values IP_list)
          cats acc = Ok (acc ++ registry_names cats)) as Hgen by apply (Hgen []).
  induction Hcats as [|[k v] cats (l & Hv & Hl) _ IH]; intros acc.
  - by rewrite app_nil_r.
  - simpl in Hv. subst v. cbn [foldM snd py_iter rbind].
    rewrite get_IP_list_bucket by done. cbn [rbind]. rewrite IH.
    unfold registry_names. cbn [flat_map snd bucket_names]. by rewrite app_assoc.
Qed.

Lemma registry_names_appended (c : string) (l : list json) (record : json)
    (cats : list (string * json)) :
  assoc c cats = Some (JArr l) ->
  record_name record ∈ registry_names (assoc_set c (JArr (l ++ [record])) cats).
Proof.
  induction cats as [|[k v] cats IH]; [done|]. simpl.
  destruct (String.eqb c k).
  - intros _. unfold registry_names. cbn [flat_map snd bucket_names].
    rewrite map_app. set_solver.
  - intros H. unfold registry_names in *. cbn [flat_map]. set_solver.
Qed.

(** X18.  What [add_ip_to_json] registers, the name enumeration of the
    local registry lists: after the record of a resolved package was
    appended to a registry of named records, [get_IP_list] for the local
    side returns, and the name of the package is in its list -- so the
    commands that first test [ip in IP_list] accept it. *)
Theorem registered_package_is_enumerated (w : world) (remote_ip : obj) (ip : string)
    (technology : json) (ip_root : string) (self self' : obj) (s s' : state) :
  resolved (JStr ip) technology remote_ip ->
  registry_of_named_records (registry s) ->
  LocalIP.add_ip_to_json w remote_ip ip_root self s = (Ok self', s') ->
  exists IP_list, get_IP_list w false s' = (Ok IP_list, s') /\ JStr ip ∈ IP_list.
Proof.
  intros Hres (k & v & rest & Hreg & Hk & Hcats) Hadd.
  apply add_ip_to_json_Ok in Hadd
    as (record & Hrecord & (category & l & Hcat & Hbucket & Hset) & _).
  destruct (installed_record_fields _ _ _ _ Hrecord) as (fields & -> & _ & Hsame).
  assert (Hname : assoc "name" fields = Some (JStr ip)).
  { rewrite Hsame by done. apply Hres. }
  rewrite Hreg in Hbucket, Hset.
  assert (exists c, category = JStr c /\ assoc c ((k, v) :: rest) = Some (JArr l))
    as (c & -> & Hc).
  { destruct category; try discriminate Hbucket. cbn [getitem] in Hbucket.
    destruct (assoc _ _) eqn:E; [|done]. injection Hbucket as ->. eauto. }
  remember (assoc_set c (JArr (l ++ [JObj fields])) ((k, v) :: rest)) as cats' eqn:Ecats.
  assert (Hreg' : registry s' = JObj cats').
  { rewrite Ecats. cbn [LocalIP.setitem_any] in Hset. by injection Hset as <-. }
  assert (Hcats' : Forall (fun kv => exists l, snd kv = JArr l /\ Forall named_record l) cats').
  { rewrite Ecats.
    apply (Forall_assoc_set (fun x => exists l, x = JArr l /\ Forall named_record l)); [done|].
    exists (l ++ [JObj fields]). split; [done|]. apply Forall_app. split.
    - clear -Hcats Hc. induction Hcats as [|[k0 v0] cats (l0 & Hv & Hl0) _ IH]; [done|].
      simpl in Hc, Hv. destruct (String.eqb c k0); [|by apply IH]. congruence.
    - repeat constructor. by exists fields, (JStr ip). }
  assert (exists v' rest', cats' = (k, v') :: rest') as (v' & rest' & Hshape).
  { rewrite Ecats. simpl. destruct (String.eqb c k); eauto. }
  exists (registry_names cats'). split.
  - unfold get_IP_list. rewrite bind_unfold. unfold read_registry, lift. rewrite Hreg'.
    f_equal. unfold get_IP_list_of.
    rewrite Hshape in Hcats' |- *.
    rewrite schema_by_first_key_description; [| done |].
    + destruct (proj1 (Forall_cons _ _ _) Hcats') as [(l' & Hv' & _) _]. simpl in Hv'. subst v'.
      cbn [schema_by_description rbind]. rewrite <- Hshape.
      apply get_IP_list_original_names. by rewrite Hshape.
    + right. apply Forall_cons in Hcats' as [(l' & Hv' & Hl') _]. simpl in Hv'.
      exists l'. split; [done|]. eapply Forall_impl; [exact Hl'|].
      intros r (f & n & -> & _). by exists f.
  - assert (record_name (JObj fields) = JStr ip) as <-.
    { unfold record_name. by rewrite (getitem_obj _ _ _ Hname). }
    rewrite Ecats. by apply registry_names_appended.
Qed.

Lemma registered_package_is_enumerated_witness :
  exists IP_list,
    get_IP_list sample_world false
      (after (LocalIP.add_ip_to_json sample_world resolved_widget "/ips"
                (LocalIP.init (JStr "widget") "/home/u/.ipm")) fresh_state)
      = (Ok IP_list,
         after (LocalIP.add_ip_to_json sample_world resolved_widget "/ips"
                  (LocalIP.init (JStr "widget") "/home/u/.ipm")) fresh_state) /\
    JStr "widget" ∈ IP_list.
Proof.
  apply (registered_package_is_enumerated sample_world resolved_widget "widget" (JStr "sky130")
           "/ips" (LocalIP.init (JStr "widget") "/home/u/.ipm")
           (setattr "ip_root" (JStr "/ips") (LocalIP.init (JStr "widget") "/home/u/.ipm"))
           fresh_state).
  - apply (get_info_resolved sample_catalog (JStr "sky130") JNull). reflexivity.
  - exists "analog", (JArr []), [("comm", JArr []); ("dataconv", JArr []);
                                 ("digital", JArr []); ("technolgy", JArr [])].
    split; [reflexivity|]. split; [discriminate|]. repeat constructor; by exists [].
  - vm_compute. reflexivity.
Defined.

(** ** The cleanup of the registry *)

Lemma assoc_not_in {A} (k : string) (kvs : list (string * A)) :
  k ∉ map fst kvs -> assoc k kvs = None.
Proof.
  induction kvs as [|[k0 v0] kvs IH]; [done|]. simpl. intros Hk.
  apply not_elem_of_cons in Hk as [Hne Hk].
  destruct (String.eqb k k0) eqn:E; [|by apply IH].
  apply String.eqb_eq in E. congruence.
Qed.

Lemma cleanup_is_new_format_tidy (cats : list (string * json)) :
  tidy_registry cats -> cleanup_is_new_format (JObj cats) = Ok false.
Proof.
  intros [_ Hcats]. destruct Hcats as [|[k v] rest (l & Hv & Hl) _]; [done|].
  simpl in Hv. subst v. unfold cleanup_is_new_format.
  cbn [truthy py_iter rbind map length Nat.eqb negb fst].
  destruct (String.eqb k "") eqn:E; [done|]. cbn [negb].
  unfold py_in at 1. rewrite assoc_head, bool_decide_eq_true_2 by eauto.
  cbn [rbind py_get]. rewrite assoc_head. cbn [default from_option id rbind].
  apply py_in_records. eapply Forall_impl; [exact Hl|]. by intros r [Hr _].
Qed.

Lemma py_get_stored_root (v : json) :
  rooted_record v -> py_get v "ip_root" (JStr "") = Ok (stored_root v).
Proof. by intros [[fields ->] _]. Qed.

Lemma py_get_stored_name (v : json) :
  rooted_record v -> py_get v "name" (JStr "") = Ok (stored_name v).
Proof. by intros [[fields ->] _]. Qed.

Lemma collect_bucket (ip_root : string) (l : list json) (acc : list (json * json)) :
  Forall rooted_record l ->
  foldM (fun entries_to_remove value =>
           do stored_ip_root <- py_get value "ip_root" (JStr "");
           do ip_name <- py_get value "name" (JStr "");
           if stale ip_root stored_ip_root
           then Ok (entries_to_remove ++ [(ip_name, stored_ip_root)])
           else Ok entries_to_remove)
        l acc
  = Ok (acc ++ map entry_of (List.filter (elsewhere ip_root) l)).
Proof.
  intros Hl. revert acc. induction Hl as [|v l Hv _ IH]; intros acc.
  - by rewrite app_nil_r.
  - cbn [foldM List.filter]. rewrite py_get_stored_root, py_get_stored_name by done.
    cbn [rbind]. unfold elsewhere at 1.
    destruct (stale ip_root (stored_root v)); cbn [rbind]; rewrite IH; [|done].
    cbn [map]. by rewrite <- app_assoc.
Qed.

Lemma collect_original_tidy (ip_root : string) (cats : list (string * json)) :
  Forall (fun kv => exists l, snd kv = JArr l /\ Forall rooted_record l) cats ->
  collect_original ip_root cats
  = Ok (map entry_of (List.filter (elsewhere ip_root) (registry_records cats))).
Proof.
  intros Hcats. unfold collect_original.
  enough (forall acc,
    foldM (fun entries_to_remove kv =>
             do values <- py_iter (snd kv);
             foldM (fun entries_to_remove value =>
                      do stored_ip_root <- py_get value "ip_root" (JStr "");
                      do ip_name <- py_get value "name" (JStr "");
                      if stale ip_root stored_ip_root
                      then Ok (entries_to_remove ++ [(ip_name, stored_ip_root)])
                      else Ok entries_to_remove)
                   values entries_to_remove)
          cats acc
    = Ok (acc ++ map entry_of (List.filter (elsewhere ip_root) (registry_records cats))))
    as Hgen by apply (Hgen []).
  induction Hcats as [|[k v] cats (l & Hv & Hl) _ IH]; intros acc.
  - by rewrite app_nil_r.
  - simpl in Hv. subst v. cbn [foldM snd py_iter rbind].
    rewrite collect_bucket by done. cbn [rbind]. rewrite IH.
    unfold registry_records. cbn [flat_map snd bucket_records].
    by rewrite List.filter_app, map_app, app_assoc.
Qed.

(** A record is among the noted ones exactly when it sits elsewhere. *)
Lemma in_entries_elsewhere (ip_root : string) (all : list json) (v : json) :
  Forall rooted_record all -> v ∈ all ->
  in_entries (stored_name v) (stored_root v)
    (map entry_of (List.filter (elsewhere ip_root) all)) = elsewhere ip_root v.
Proof.
  intros Hall Hv. rewrite Forall_forall in Hall.
  destruct (Hall v Hv) as (_ & [n Hn] & [r Hr]).
  destruct (elsewhere ip_root v) eqn:E.
  - unfold in_entries. apply existsb_exists. exists (entry_of v). split.
    + apply in_map, filter_In. split; [by apply list_elem_of_In|done].
    + unfold entry_of. cbn [fst snd]. rewrite Hn, Hr. cbn [py_eq].
      by rewrite !String.eqb_refl.
  - destruct (in_entries _ _ _) eqn:Ein; [|done]. exfalso.
    unfold in_entries in Ein. apply existsb_exists in Ein as (e & He & Heq).
    apply in_map_iff in He as (u & <- & Hu). apply filter_In in Hu as [Hu Hstale].
    apply list_elem_of_In in Hu. destruct (Hall u Hu) as (_ & _ & [ru Hru]).
    unfold entry_of in Heq. cbn [fst snd] in Heq.
    apply andb_true_iff in Heq as [_ Hroot]. rewrite Hru, Hr in Hroot.
    cbn [py_eq] in Hroot. apply String.eqb_eq in Hroot. subst ru.
    unfold elsewhere in *. congruence.
Qed.

Lemma keep_bucket (ip_root : string) (all l : list json) :
  Forall rooted_record all -> Forall (fun v => v ∈ all) l ->
  filterM (fun v =>
             do name <- py_get v "name" (JStr "");
             do root <- py_get v "ip_root" (JStr "");
             Ok (negb (in_entries name root
                         (map entry_of (List.filter (elsewhere ip_root) all)))))
          l
  = Ok (List.filter (fun v => negb (elsewhere ip_root v)) l).
Proof.
  intros Hall Hl. induction Hl as [|v l Hv _ IH]; [done|].
  assert (rooted_record v) as Hrec by (rewrite Forall_forall in Hall; auto).
  cbn [filterM List.filter]. rewrite py_get_stored_root, py_get_stored_name by done.
  cbn [rbind]. rewrite IH. cbn [rbind].
  by rewrite (in_entries_elsewhere ip_root all v).
Qed.

Lemma cleaned_app (ip_root : string) (a b : list (string * json)) :
  cleaned ip_root (a ++ b) = cleaned ip_root a ++ cleaned ip_root b.
Proof. apply map_app. Qed.

Lemma cleaned_keys (ip_root : string) (cats : list (string * json)) :
  map fst (cleaned ip_root cats) = map fst cats.
Proof. unfold cleaned. rewrite map_map. done. Qed.

Lemma names_all_removed (names : list json) :
  Forall (fun n => exists s, n = JStr s) names ->
  List.filter (fun n => negb (existsb (fun y => py_eq y n) names)) names = [].
Proof.
  intros Hnames.
  assert (forall l, Forall (fun n => n ∈ names) l ->
            List.filter (fun n => negb (existsb (fun y => py_eq y n) names)) l = []) as Hgen.
  { induction 1 as [|n l Hn _ IH]; [done|]. cbn [List.filter].
    assert (existsb (fun y => py_eq y n) names = true) as ->; [|done].
    apply existsb_exists. exists n. split; [by apply list_elem_of_In|].
    rewrite Forall_forall in Hnames. destruct (Hnames n Hn) as [s ->].
    cbn [py_eq]. apply String.eqb_refl. }
  apply Hgen. apply Forall_forall. auto.
Qed.

Lemma remove_original_tidy (ip_root : string) (all : list json)
    (entries : list (json * json)) (post pre : list (string * json)) (removed : list json) :
  entries = map entry_of (List.filter (elsewhere ip_root) all) ->
  Forall rooted_record all ->
  removed = [] \/ removed = map fst entries ->
  NoDup (map fst (pre ++ post)) ->
  Forall (fun kv => exists l, snd kv = JArr l /\ Forall (fun v => v ∈ all) l) post ->
  foldM (fun acc kv =>
           let '(data, removed_entries) := acc in
           do values <- py_iter (snd kv);
           do kept <-
             filterM (fun v =>
                        do name <- py_get v "name" (JStr "");
                        do root <- py_get v "ip_root" (JStr "");
                        Ok (negb (in_entries name root entries)))
                     values;
           do data <- LocalIP.setitem_any data (JStr (fst kv)) (JArr kept);
           let more :=
             List.filter (fun n => negb (existsb (fun y => py_eq y n) removed_entries))
                         (map fst entries) in
           Ok (data, removed_entries ++ more))
        post (JObj (cleaned ip_root pre ++ post), removed)
  = Ok (JObj (cleaned ip_root (pre ++ post)),
        match post with [] => removed | _ => map fst entries end).
Proof.
  intros Hentries Hall Hremoved Hnodup Hpost. revert pre removed Hremoved Hnodup.
  induction Hpost as [|[c v] post (l & Hv & Hl) _ IH]; intros pre removed Hremoved Hnodup.
  - by rewrite !app_nil_r.
  - simpl in Hv. subst v. cbn [foldM snd fst py_iter rbind].
    rewrite Hentries, (keep_bucket ip_root all l) by done. rewrite <- Hentries.
    cbn [rbind LocalIP.setitem_any].
    rewrite assoc_set_middle.
    2: { apply assoc_not_in. rewrite cleaned_keys.
         rewrite map_app in Hnodup. apply NoDup_app in Hnodup as (_ & Hdisj & _).
         intros Hin. apply (Hdisj c Hin). cbn [map fst]. set_solver. }
    cbn [rbind].
    assert (removed ++
            List.filter (fun n => negb (existsb (fun y => py_eq y n) removed)) (map fst entries)
            = map fst entries) as ->.
    { destruct Hremoved as [-> | ->].
      - cbn [app existsb negb]. clear. induction (map fst entries) as [|n ns IHn]; [done|].
        cbn [List.filter]. by rewrite IHn.
      - rewrite names_all_removed; [by rewrite app_nil_r|].
        rewrite Hentries, map_map. apply Forall_forall. intros n Hn.
        apply list_elem_of_In, in_map_iff in Hn as (u & <- & Hu).
        apply filter_In in Hu as [Hu _]. apply list_elem_of_In in Hu.
        rewrite Forall_forall in Hall. destruct (Hall u Hu) as (_ & [s Hs] & _).
        exists s. exact Hs. }
    specialize (IH (pre ++ [(c, JArr l)]) (map fst entries)).
    rewrite cleaned_app, <- !app_assoc in IH. cbn [cleaned map app fst snd bucket_records] in IH.
    rewrite IH; [by destruct post | by right | done].
Qed.

(** What [cleanup] does on a registry of the original format. *)
Lemma cleanup_registry_tidy (cats : list (string * json))
    (ip_root : string) (force : bool) (answer : string) :
  tidy_registry cats ->
  let found := List.filter (elsewhere ip_root) (registry_records cats) in
  let shown := FoundEntries (length found)
               :: map (fun v => EntryInstalledAt (stored_name v) (stored_root v)) found in
  cleanup_registry (JObj cats) ip_root force answer =
    match found with
    | [] => Ok ([NoEntriesFound], None)
    | _ :: _ =>
        if force || confirmed answer
        then Ok (shown ++ [RemovedEntries (length found); FilesNotDeleted],
                 Some (JObj (cleaned ip_root cats)))
        else Ok (shown ++ [CleanupCanceled], None)
    end.
Proof.
  intros Htidy found shown. pose proof Htidy as [Hnodup Hcats].
  assert (Forall rooted_record (registry_records cats)) as Hall.
  { clear -Hcats. induction Hcats as [|[k v] cats (l & Hv & Hl) _ IH]; [done|].
    simpl in Hv. subst v. unfold registry_records.
    cbn [flat_map snd bucket_records]. by apply Forall_app. }
  assert (Forall (fun kv => exists l, snd kv = JArr l /\
                              Forall (fun v => v ∈ registry_records cats) l) cats) as Hin.
  { clear -Hcats. unfold registry_records.
    induction Hcats as [|[k v] cats (l & Hv & Hl) _ IH]; [done|].
    simpl in Hv. subst v. constructor.
    - exists l. split; [done|]. apply Forall_forall. intros x Hx.
      cbn [flat_map snd bucket_records]. set_solver.
    - eapply Forall_impl; [exact IH|]. intros kv (l' & Hkv & Hl'). exists l'.
      split; [done|]. eapply Forall_impl; [exact Hl'|]. intros x Hx.
      cbn [flat_map snd bucket_records]. set_solver. }
  pose proof (remove_original_tidy ip_root (registry_records cats) _ cats [] []
                eq_refl Hall (or_introl eq_refl) Hnodup Hin) as Hrm.
  cbn [cleaned map app] in Hrm.
  unfold cleanup_registry, remove_original. rewrite cleanup_is_new_format_tidy by done.
  cbn [rbind py_items]. rewrite collect_original_tidy by done. cbn [rbind].
  rewrite Hrm. cbn [rbind fst snd]. subst shown found.
  rewrite !map_map, !length_map.
  destruct (List.filter (elsewhere ip_root) (registry_records cats)) as [|v0 found0] eqn:Efound;
    [done|].
  cbn [length Nat.eqb].
  destruct cats as [|kv0 cats0]; [discriminate Efound|].
  rewrite !length_map.
  by destruct force, (confirmed answer).
Qed.

(** X19.  On a registry of the original format -- distinct categories,
    each a list of records whose name and root are [str] -- [cleanup] for
    the root [ip_root] notes the records whose stored root is not empty and
    is another one than [ip_root].  When there is none it says so and
    writes nothing.  Otherwise it lists them; when it is not forced and the
    answer is not "y", it cancels and writes nothing; else the registry it
    writes back is the old one without exactly those records -- the records
    at [ip_root], and those without a root, stay in their order -- and the
    count it reports is their number. *)
Theorem cleanup_removes_the_records_elsewhere (cats : list (string * json))
    (ip_root : string) (force : bool) (answer : string) :
  tidy_registry cats ->
  let found := List.filter (elsewhere ip_root) (registry_records cats) in
  let shown := FoundEntries (length found)
               :: map (fun v => EntryInstalledAt (stored_name v) (stored_root v)) found in
  cleanup_registry (JObj cats) ip_root force answer =
    match found with
    | [] => Ok ([NoEntriesFound], None)
    | _ :: _ =>
        if force || confirmed answer
        then Ok (shown ++ [RemovedEntries (length found); FilesNotDeleted],
                 Some (JObj (cleaned ip_root cats)))
        else Ok (shown ++ [CleanupCanceled], None)
    end.
Proof. apply cleanup_registry_tidy. Qed.

Lemma cleanup_removes_the_records_elsewhere_witness :
  let found := List.filter (elsewhere "/a") (registry_records registry_at_two_roots) in
  let shown := FoundEntries (length found)
               :: map (fun v => EntryInstalledAt (stored_name v) (stored_root v)) found in
  cleanup_registry (JObj registry_at_two_roots) "/a" false "y" =
    match found with
    | [] => Ok ([NoEntriesFound], None)
    | _ :: _ =>
        if false || confirmed "y"
        then Ok (shown ++ [RemovedEntries (length found); FilesNotDeleted],
                 Some (JObj (cleaned "/a" registry_at_two_roots)))
        else Ok (shown ++ [CleanupCanceled], None)
    end.
Proof.
  apply (cleanup_removes_the_records_elsewhere registry_at_two_roots "/a" false "y").
  split.
  - apply (bool_decide_unpack _). vm_compute. reflexivity.
  - unfold registry_at_two_roots.
    repeat constructor; eexists; (split; [reflexivity|]); repeat constructor;
      repeat split; eexists; reflexivity.
Defined.

Lemma registry_records_cleaned (ip_root : string) (cats : list (string * json)) :
  registry_records (cleaned ip_root cats)
  = List.filter (fun v => negb (elsewhere ip_root v)) (registry_records cats).
Proof.
  unfold registry_records. induction cats as [|[k v] cats IH]; [done|].
  cbn [cleaned map flat_map fst snd bucket_records]. rewrite List.filter_app.
  f_equal. exact IH.
Qed.

Lemma tidy_cleaned (ip_root : string) (cats : list (string * json)) :
  tidy_registry cats -> tidy_registry (cleaned ip_root cats).
Proof.
  intros [Hnodup Hcats]. split; [by rewrite cleaned_keys|].
  unfold cleaned. apply Forall_map. eapply Forall_impl; [exact Hcats|].
  intros [k v] (l & Hv & Hl). simpl in Hv. subst v. cbn [fst snd bucket_records].
  eexists. split; [reflexivity|].
  apply Forall_forall. intros x Hx. apply list_elem_of_In, filter_In in Hx as [Hx _].
  rewrite Forall_forall in Hl. apply Hl. by apply list_elem_of_In.
Qed.

(** X20.  A second [cleanup] for the same root finds nothing: on the
    registry that a first one has written back, it says that no entry needs
    cleanup and writes nothing. *)
Theorem cleanup_twice_finds_nothing (cats : list (string * json))
    (ip_root : string) (force : bool) (answer : string) :
  tidy_registry cats ->
  cleanup_registry (JObj (cleaned ip_root cats)) ip_root force answer
    = Ok ([NoEntriesFound], None).
Proof.
  intros Htidy.
  rewrite (cleanup_registry_tidy _ ip_root force answer
             (tidy_cleaned ip_root cats Htidy)).
  rewrite registry_records_cleaned.
  assert (List.filter (elsewhere ip_root)
            (List.filter (fun v => negb (elsewhere ip_root v)) (registry_records cats)) = [])
    as ->; [|done].
  induction (registry_records cats) as [|v l IH]; [done|].
  cbn [List.filter]. destruct (elsewhere ip_root v) eqn:E; cbn [negb List.filter]; [done|].
  by rewrite E.
Qed.

Lemma cleanup_twice_finds_nothing_witness :
  cleanup_registry (JObj (cleaned "/a" registry_at_two_roots)) "/a" true ""
    = Ok ([NoEntriesFound], None).
Proof.
  apply (cleanup_twice_finds_nothing registry_at_two_roots "/a" true "").
  split.
  - apply (bool_decide_unpack _). vm_compute. reflexivity.
  - unfold registry_at_two_roots.
    repeat constructor; eexists; (split; [reflexivity|]); repeat constructor;
      repeat split; eexists; reflexivity.
Defined.
